(** * Verification of the streaming beat-decision pipeline of
      [quickshell/assets/beat_detector.cpp]

    The development embeds the per-chunk callback [process_audio], the
    variance query [get_bpm_variance] and the argument loop of [main] as
    Rocq functions, and proves the properties the specification states
    about them; then the rest of the detector ([stop], the stream-state
    callback, the processing times, the final statistics, start-up and
    shutdown), with the properties the code itself shows.

    Numbers.  The C++ type [float] is IEEE 754 binary32.  It is modelled by
    the Standard Library's [spec_float] at precision 24 and maximal
    exponent 128, every operation rounded to nearest-even on its own (the
    program is built with [-std=c++17], which evaluates [float] expressions
    in [float] and does not contract products and sums).  Unsigned counters
    are integers in [Z] with their wrap-around written out.

    Collaborators.  The aubio objects ([tempo_], [onset_], [pitch_]) are
    outside the repository; they are an abstract state with one function per
    library call used by the source.  The PipeWire and aubio calls of the
    start-up that can fail are answered by an environment.  Wall-clock
    readings are inputs: the timestamps of the log are left out, and the
    time each callback took and the seconds a run lasted are given. *)

From Stdlib Require Import ZArith Lia Bool String Ascii SpecFloat.
From stdpp Require Import base list.

Local Open Scope Z_scope.

(** ** Binary32 arithmetic *)

Module F32.

Definition prec : Z := 24.
Definition emax : Z := 128.

Definition float : Type := spec_float.

Definition add : float -> float -> float := SFadd prec emax.
Definition sub : float -> float -> float := SFsub prec emax.
Definition mul : float -> float -> float := SFmul prec emax.
Definition div : float -> float -> float := SFdiv prec emax.
Definition sqrt : float -> float := SFsqrt prec emax.
Definition abs : float -> float := SFabs.

(** [a < b], [a > b], [a == b], [a != b] of C++; every comparison with a
    NaN is false except [!=]. *)
Definition ltb (a b : float) : bool := SFltb a b.
Definition gtb (a b : float) : bool := SFltb b a.
Definition leb (a b : float) : bool := SFleb a b.
Definition eqb (a b : float) : bool := SFeqb a b.
Definition neqb (a b : float) : bool := negb (SFeqb a b).

(** Conversion of an integer ([uint32_t], [size_t]) to [float]. *)
Definition of_Z (n : Z) : float := binary_normalize prec emax n 0 false.

(** The literal [num/den] with [num] and [den] exact: one correctly
    rounded division, which is the nearest binary32 value. *)
Definition lit (num den : Z) : float := div (of_Z num) (of_Z den).

Definition zero : float := S754_zero false.

(** [std::max(a, b)] is [(a < b) ? b : a]; [std::min(a, b)] is
    [(b < a) ? b : a]. *)
Definition max (a b : float) : float := if ltb a b then b else a.
Definition min (a b : float) : float := if ltb b a then b else a.

Definition valid (x : float) : bool := valid_binary prec emax x.

End F32.

Abbreviation float := F32.float.

Declare Scope f32_scope.
Delimit Scope f32_scope with f32.
Infix "+" := F32.add : f32_scope.
Infix "-" := F32.sub : f32_scope.
Infix "*" := F32.mul : f32_scope.
Infix "/" := F32.div : f32_scope.
Infix "<?" := F32.ltb : f32_scope.
Infix ">?" := F32.gtb : f32_scope.
Infix "=?" := F32.eqb : f32_scope.

(** ** Unsigned machine integers *)

Definition wrap32 (x : Z) : Z := x mod 2 ^ 32.
Definition wrap64 (x : Z) : Z := x mod 2 ^ 64.

(** ** Constants of [EnhancedBeatDetector] *)

Definition SILENCE_THRESHOLD : float := F32.lit 1 100.
Definition BPM_MIN : float := F32.of_Z 60.
Definition BPM_MAX : float := F32.of_Z 200.
Definition CONFIDENCE_THRESHOLD : float := F32.lit 1 2.
Definition BPM_VARIANCE_LIMIT : float := F32.of_Z 5.
Definition BPM_HISTORY_SIZE : nat := 20.
Definition STABILITY_WINDOW : nat := 5.

(** ** The analysis engine (aubio), as the source calls it *)

Class Aubio := {
  engine : Type;
  aubio_onset_set_threshold : engine -> float -> engine;
  (** [aubio_tempo_do] followed by the two getters. *)
  aubio_tempo_do : engine -> list float -> engine;
  aubio_tempo_get_bpm : engine -> float;
  aubio_tempo_get_confidence : engine -> float;
  (** [aubio_onset_do] and the value it leaves in [output_buffer_->data[0]]. *)
  aubio_onset_do : engine -> list float -> engine * float;
  (** [aubio_pitch_do] and the value it leaves in [pitch_buffer_->data[0]]. *)
  aubio_pitch_do : engine -> list float -> engine * float
}.

(** ** State of an [EnhancedBeatDetector] *)

Record Config := mkConfig {
  buf_size_ : Z;
  enable_logging_ : bool;
  enable_performance_stats_ : bool;
  enable_pitch_detection_ : bool;
  enable_visual_feedback_ : bool
}.

(** What the callback writes to standard output (the data of each line, not
    its text). *)
Inductive Output :=
| OutSilence (frame_no : Z) (amp : float)
| OutDebug (frame_no : Z) (amp bpm conf : float) (is_beat : bool)
| OutVisual (bpm conf avg : float)
| OutBeat (bpm conf : float) (is_stable : bool).

(** A line of the log file, without its timestamp. *)
Record LogLine := mkLogLine {
  log_bpm : float;
  log_confidence : float;
  log_pitch : float;
  log_amplitude : float;
  log_variance : float
}.

(** The locals of one pass over a full frame, kept for stating properties. *)
Record Analysis := mkAnalysis {
  an_threshold : float;
  an_bpm : float;
  an_confidence : float;
  an_is_onset : bool;
  an_pitch_hz : float;
  an_is_beat : bool;
  (** [variance] and [is_stable] of the acceptance branch. *)
  an_beat : option (float * bool)
}.

Record FrameReport := mkFrameReport {
  fr_frame : list float;
  fr_max_amplitude : float;
  fr_rms_energy : float;
  (** [None] when the silence gate skipped the frame. *)
  fr_analysis : option Analysis
}.

Section Detector.

Context `{Aubio}.

Record Detector := mkDetector {
  config : Config;
  should_quit_ : bool;
  log_is_open : bool;
  aubio_ : engine;
  total_beats_ : Z;
  total_onsets_ : Z;
  recent_bpms_ : list float;
  bpm_stability_ : list float;
  smoothed_bpm_ : float;
  sample_accumulator_ : list float;
  accumulated_samples_ : Z;
  frame_count_ : Z;
  stdout_ : list Output;
  log_file_ : list LogLine
}.

(** The constructor: counters at zero, [smoothed_bpm_] at [0.0f], empty
    histories, [sample_accumulator_.resize(buf_size_)]. *)
Definition new_detector (cfg : Config) (log_open : bool) (e : engine) : Detector :=
  {| config := cfg;
     should_quit_ := false;
     log_is_open := log_open;
     aubio_ := e;
     total_beats_ := 0;
     total_onsets_ := 0;
     recent_bpms_ := [];
     bpm_stability_ := [];
     smoothed_bpm_ := F32.zero;
     sample_accumulator_ := replicate (Z.to_nat (buf_size_ cfg)) F32.zero;
     accumulated_samples_ := 0;
     frame_count_ := 0;
     stdout_ := [];
     log_file_ := [] |}.

(** *** Queries *)

Definition sum_floats (v : list float) : float :=
  fold_left F32.add v F32.zero.

Definition get_average_bpm_of (recent : list float) : float :=
  match recent with
  | [] => F32.zero
  | _ => (sum_floats recent / F32.of_Z (Z.of_nat (length recent)))%f32
  end.

Definition get_average_bpm (d : Detector) : float :=
  get_average_bpm_of (recent_bpms_ d).

Definition get_bpm_variance_of (stab : list float) : float :=
  match stab with
  | [] => F32.of_Z 999
  | _ =>
      let size := F32.of_Z (Z.of_nat (length stab)) in
      let mean := (fold_left (fun mean bpm => mean + bpm) stab F32.zero / size)%f32 in
      let variance :=
        fold_left (fun variance bpm => variance + (bpm - mean) * (bpm - mean))%f32
                  stab F32.zero in
      F32.sqrt (variance / size)%f32
  end.

Definition get_bpm_variance (d : Detector) : float :=
  get_bpm_variance_of (bpm_stability_ d).

(** *** Pieces of [process_audio] *)

(** The amplitude loop over [input_buffer_]: running maximum of the
    absolute values and running sum of squares. *)
Definition amplitude_loop (frame : list float) : float * float :=
  fold_left
    (fun '(max_amplitude, rms_energy) x =>
       (F32.max max_amplitude (F32.abs x), rms_energy + x * x)%f32)
    frame (F32.zero, F32.zero).

Definition max_amplitude_of (frame : list float) : float :=
  fst (amplitude_loop frame).

Definition rms_energy_of (buf_size : Z) (frame : list float) : float :=
  F32.sqrt (snd (amplitude_loop frame) / F32.of_Z buf_size)%f32.

(** [std::min(0.15f + 0.15f * rms_energy, 0.3f)]. *)
Definition adaptive_threshold (rms_energy : float) : float :=
  F32.min (F32.lit 15 100 + F32.lit 15 100 * rms_energy)%f32 (F32.lit 3 10).

(** BPM smoothing with validity checking. *)
Definition smooth_bpm (smoothed_bpm current_bpm : float) : float :=
  if (current_bpm >? BPM_MIN)%f32 && (current_bpm <? BPM_MAX)%f32 then
    (F32.lit 7 10 * smoothed_bpm + F32.lit 3 10 * current_bpm)%f32
  else if (smoothed_bpm =? F32.zero)%f32 then current_bpm
  else smoothed_bpm.

(** [v.push_back(x); if (v.size() > cap) v.erase(v.begin());] *)
Definition push_bounded (cap : nat) (v : list float) (x : float) : list float :=
  let v' := v ++ [x] in
  if (cap <? length v')%nat then tail v' else v'.

Definition every_200 (frame_count : Z) (o : Output) : list Output :=
  if frame_count mod 200 =? 0 then [o] else [].

(** The body run when the accumulator is full (from the [memcpy] to the
    reset of [accumulated_samples_]). *)
Definition process_frame (d : Detector) : Detector * FrameReport :=
  let cfg := config d in
  let input_buffer := take (Z.to_nat (buf_size_ cfg)) (sample_accumulator_ d) in
  let max_amplitude := max_amplitude_of input_buffer in
  let rms_energy := rms_energy_of (buf_size_ cfg) input_buffer in
  let frame_count := wrap64 (frame_count_ d + 1) in
  if (max_amplitude <? SILENCE_THRESHOLD)%f32 then
    ({| config := cfg;
        should_quit_ := should_quit_ d;
        log_is_open := log_is_open d;
        aubio_ := aubio_ d;
        total_beats_ := total_beats_ d;
        total_onsets_ := total_onsets_ d;
        recent_bpms_ := recent_bpms_ d;
        bpm_stability_ := bpm_stability_ d;
        smoothed_bpm_ := smoothed_bpm_ d;
        sample_accumulator_ := sample_accumulator_ d;
        accumulated_samples_ := 0;
        frame_count_ := frame_count;
        stdout_ := stdout_ d ++ every_200 frame_count (OutSilence frame_count max_amplitude);
        log_file_ := log_file_ d |},
     mkFrameReport input_buffer max_amplitude rms_energy None)
  else
    let threshold := adaptive_threshold rms_energy in
    let e1 := aubio_onset_set_threshold (aubio_ d) threshold in
    let e2 := aubio_tempo_do e1 input_buffer in
    let current_bpm := aubio_tempo_get_bpm e2 in
    let tempo_confidence := aubio_tempo_get_confidence e2 in
    let '(e3, onset_out) := aubio_onset_do e2 input_buffer in
    let is_onset := F32.neqb onset_out F32.zero in
    let '(e4, pitch_hz) :=
      if enable_pitch_detection_ cfg then aubio_pitch_do e3 input_buffer
      else (e3, F32.zero) in
    let smoothed_bpm := smooth_bpm (smoothed_bpm_ d) current_bpm in
    let is_beat := is_onset && (tempo_confidence >? CONFIDENCE_THRESHOLD)%f32 in
    let debug :=
      every_200 frame_count
        (OutDebug frame_count max_amplitude smoothed_bpm tempo_confidence is_beat) in
    if is_beat then
      let recent := push_bounded BPM_HISTORY_SIZE (recent_bpms_ d) smoothed_bpm in
      let stability := push_bounded STABILITY_WINDOW (bpm_stability_ d) smoothed_bpm in
      let variance := get_bpm_variance_of stability in
      let is_stable := (variance <? BPM_VARIANCE_LIMIT)%f32 in
      let beat_out :=
        if enable_visual_feedback_ cfg
        then OutVisual smoothed_bpm tempo_confidence (get_average_bpm_of recent)
        else OutBeat smoothed_bpm tempo_confidence is_stable in
      let log :=
        if enable_logging_ cfg && log_is_open d
        then [mkLogLine smoothed_bpm tempo_confidence pitch_hz max_amplitude
                        (get_bpm_variance_of stability)]
        else [] in
      ({| config := cfg;
          should_quit_ := should_quit_ d;
          log_is_open := log_is_open d;
          aubio_ := e4;
          total_beats_ := wrap64 (total_beats_ d + 1);
          total_onsets_ := wrap64 (total_onsets_ d + 1);
          recent_bpms_ := recent;
          bpm_stability_ := stability;
          smoothed_bpm_ := smoothed_bpm;
          sample_accumulator_ := sample_accumulator_ d;
          accumulated_samples_ := 0;
          frame_count_ := frame_count;
          stdout_ := stdout_ d ++ debug ++ [beat_out];
          log_file_ := log_file_ d ++ log |},
       mkFrameReport input_buffer max_amplitude rms_energy
         (Some (mkAnalysis threshold current_bpm tempo_confidence is_onset pitch_hz
                           true (Some (variance, is_stable)))))
    else
      ({| config := cfg;
          should_quit_ := should_quit_ d;
          log_is_open := log_is_open d;
          aubio_ := e4;
          total_beats_ := total_beats_ d;
          total_onsets_ := wrap64 (total_onsets_ d + 1);
          recent_bpms_ := recent_bpms_ d;
          bpm_stability_ := bpm_stability_ d;
          smoothed_bpm_ := smoothed_bpm;
          sample_accumulator_ := sample_accumulator_ d;
          accumulated_samples_ := 0;
          frame_count_ := frame_count;
          stdout_ := stdout_ d ++ debug;
          log_file_ := log_file_ d |},
       mkFrameReport input_buffer max_amplitude rms_energy
         (Some (mkAnalysis threshold current_bpm tempo_confidence is_onset pitch_hz
                           false None))).

(** One iteration of the sample loop: store the sample at the write
    offset, advance the offset, and run [process_frame] when it reaches
    [buf_size_].  The offset stays below [buf_size_] between iterations,
    so the store is in range whenever [buf_size_] is positive (a store
    out of range is undefined in the source and a no-op here). *)
Definition store_sample (d : Detector) (x : float) : Detector :=
  {| config := config d;
     should_quit_ := should_quit_ d;
     log_is_open := log_is_open d;
     aubio_ := aubio_ d;
     total_beats_ := total_beats_ d;
     total_onsets_ := total_onsets_ d;
     recent_bpms_ := recent_bpms_ d;
     bpm_stability_ := bpm_stability_ d;
     smoothed_bpm_ := smoothed_bpm_ d;
     sample_accumulator_ :=
       <[Z.to_nat (accumulated_samples_ d) := x]> (sample_accumulator_ d);
     accumulated_samples_ := wrap32 (accumulated_samples_ d + 1);
     frame_count_ := frame_count_ d;
     stdout_ := stdout_ d;
     log_file_ := log_file_ d |}.

Definition accumulate (s : Detector * list FrameReport) (x : float)
  : Detector * list FrameReport :=
  let d := store_sample (fst s) x in
  if buf_size_ (config d) <=? accumulated_samples_ d then
    let '(d', r) := process_frame d in (d', snd s ++ [r])
  else (d, snd s).

(** What [pw_stream_dequeue_buffer] hands to the callback. *)
Inductive PwBuffer :=
| NoBuffer
| NullData
| Samples (audio_data : list float).

(** [process_audio], with the reports of the frames it completed. *)
Definition process_audio (d : Detector) (b : PwBuffer) : Detector * list FrameReport :=
  if should_quit_ d then (d, [])
  else match b with
       | NoBuffer | NullData => (d, [])
       | Samples audio_data => fold_left accumulate audio_data (d, [])
       end.

(** A run of the callback over successive buffers. *)
Definition process_stream (d : Detector) (bs : list PwBuffer)
  : Detector * list FrameReport :=
  fold_left
    (fun s b => let '(d', rs) := process_audio (fst s) b in (d', snd s ++ rs))
    bs (d, []).

(** *** Names for stating properties

    The frame a pass works on ([input_buffer_] after the [memcpy]), the
    outcome of the silence test, and the engine after the tempo call. *)
Definition frame_of (d : Detector) : list float :=
  take (Z.to_nat (buf_size_ (config d))) (sample_accumulator_ d).

Definition is_silent (d : Detector) : bool :=
  F32.ltb (max_amplitude_of (frame_of d)) SILENCE_THRESHOLD.

Definition engine_after_tempo (d : Detector) : engine :=
  aubio_tempo_do
    (aubio_onset_set_threshold (aubio_ d)
       (adaptive_threshold (rms_energy_of (buf_size_ (config d)) (frame_of d))))
    (frame_of d).

End Detector.

Arguments Detector : clear implicits.
Arguments PwBuffer : clear implicits.

(** ** The argument loop of [main]

    [std::stoul(arg)] is [strtoul] in base 10 on a 64-bit [unsigned long]:
    leading white space, an optional sign, then decimal digits up to the
    first other character.  No digit raises [invalid_argument], a magnitude
    above [ULONG_MAX] raises [out_of_range], and a minus sign negates the
    value modulo [2^64]. *)

Definition is_space (c : ascii) : bool :=
  (nat_of_ascii c =? 32)%nat
  || ((9 <=? nat_of_ascii c)%nat && (nat_of_ascii c <=? 13)%nat).

Definition digit_of (c : ascii) : option Z :=
  if ((48 <=? nat_of_ascii c)%nat && (nat_of_ascii c <=? 57)%nat)%bool
  then Some (Z.of_nat (nat_of_ascii c) - 48)
  else None.

Fixpoint skip_spaces (s : string) : string :=
  match s with
  | String c s' => if is_space c then skip_spaces s' else s
  | EmptyString => s
  end.

(** The value of the longest prefix of digits, [None] when it is empty. *)
Fixpoint read_digits (s : string) (acc : option Z) : option Z :=
  match s with
  | String c s' =>
      match digit_of c with
      | Some dgt => read_digits s' (Some (10 * default 0 acc + dgt))
      | None => acc
      end
  | EmptyString => acc
  end.

Inductive stoul_result :=
| Parsed (v : Z)
| InvalidArgument
| OutOfRange.

Definition ULONG_MAX : Z := 2 ^ 64 - 1.

Definition stoul (s : string) : stoul_result :=
  let '(negative, digits) :=
    match skip_spaces s with
    | String "-" r => (true, r)
    | String "+" r => (false, r)
    | r => (false, r)
    end in
  match read_digits digits None with
  | None => InvalidArgument
  | Some v =>
      if ULONG_MAX <? v then OutOfRange
      else Parsed (if negative then wrap64 (- v) else v)
  end.

(** What [main] writes before it returns from the argument loop. *)
Inductive MainOutput :=
| PrintUsage
| ErrBufferRange
| ErrInvalidBufferSize (arg : string)
| ErrUnknownOption (arg : string).

(** The outcome of the argument loop: a return from [main] with an exit
    code, or the construction of the detector with the parsed settings. *)
Inductive MainResult :=
| Exit (code : Z)
| RunDetector (cfg : Config).

Definition is_help (arg : string) : bool :=
  (arg =? "--help")%string || (arg =? "-h")%string.

(** [arg[0] != '-']; [arg[0]] of an empty string is the null character. *)
Definition is_positional (arg : string) : bool :=
  match arg with
  | String c _ => negb (Ascii.eqb c "-")
  | EmptyString => true
  end.

Fixpoint parse_args (args : list string) (cfg : Config) : MainResult * list MainOutput :=
  match args with
  | [] => (RunDetector cfg, [])
  | arg :: rest =>
      if is_help arg then (Exit 0, [PrintUsage])
      else if (arg =? "--no-log")%string then
        parse_args rest
          (mkConfig (buf_size_ cfg) false (enable_performance_stats_ cfg)
                    (enable_pitch_detection_ cfg) (enable_visual_feedback_ cfg))
      else if (arg =? "--no-stats")%string then
        parse_args rest
          (mkConfig (buf_size_ cfg) (enable_logging_ cfg) false
                    (enable_pitch_detection_ cfg) (enable_visual_feedback_ cfg))
      else if (arg =? "--pitch")%string then
        parse_args rest
          (mkConfig (buf_size_ cfg) (enable_logging_ cfg) (enable_performance_stats_ cfg)
                    true (enable_visual_feedback_ cfg))
      else if (arg =? "--no-visual")%string then
        parse_args rest
          (mkConfig (buf_size_ cfg) (enable_logging_ cfg) (enable_performance_stats_ cfg)
                    (enable_pitch_detection_ cfg) false)
      else if is_positional arg then
        match stoul arg with
        | Parsed v =>
            (* the [unsigned long] is stored in a [uint32_t] *)
            let buffer_size := wrap32 v in
            if (buffer_size <? 64) || (8192 <? buffer_size)
            then (Exit 1, [ErrBufferRange])
            else parse_args rest
                   (mkConfig buffer_size (enable_logging_ cfg)
                             (enable_performance_stats_ cfg)
                             (enable_pitch_detection_ cfg) (enable_visual_feedback_ cfg))
        | InvalidArgument | OutOfRange => (Exit 1, [ErrInvalidBufferSize arg])
        end
      else (Exit 1, [ErrUnknownOption arg; PrintUsage])
  end.

(** [main] up to the construction of the detector; [argv[0]] is skipped. *)
Definition main (argv : list string) : MainResult * list MainOutput :=
  parse_args (tail argv) (mkConfig 128 true true false true).

(** The four switches that only set a flag. *)
Definition is_switch (arg : string) : bool :=
  (arg =? "--no-log")%string || (arg =? "--no-stats")%string
  || (arg =? "--pitch")%string || (arg =? "--no-visual")%string.

(** An argument after which the loop goes on: a switch, or a buffer size
    that is stored as a value between 64 and 8192. *)
Definition accepted (arg : string) : bool :=
  negb (is_help arg)
  && (is_switch arg
      || (is_positional arg
          && match stoul arg with
             | Parsed v => (64 <=? wrap32 v) && (wrap32 v <=? 8192)
             | _ => false
             end)).

(** ** A scripted engine

    An engine that replays a list of analysis results
    [(bpm, confidence, onset output)], one per analysed frame, and then
    reports zeros.  It stands for the collaborator in closed examples. *)

Definition script_head (s : list (float * float * float)) : float * float * float :=
  match s with
  | [] => (F32.zero, F32.zero, F32.zero)
  | r :: _ => r
  end.

#[local] Instance scripted : Aubio := {|
  engine := list (float * float * float);
  aubio_onset_set_threshold := fun s _ => s;
  aubio_tempo_do := fun s _ => s;
  aubio_tempo_get_bpm := fun s => fst (fst (script_head s));
  aubio_tempo_get_confidence := fun s => snd (fst (script_head s));
  aubio_onset_do := fun s _ => (tail s, snd (script_head s));
  aubio_pitch_do := fun s _ => (s, F32.of_Z 440)
|}.

(** The default configuration of [main] with the smallest buffer size it
    accepts. *)
Definition cfg64 : Config := mkConfig 64 true true false true.

(** A loud frame (every sample [0.5f]) and a quiet one (every sample
    [0.002f]) of 64 samples. *)
Definition loud64 : list float := replicate 64 (F32.lit 1 2).
Definition quiet64 : list float := replicate 64 (F32.lit 2 1000).

(** A detector whose accumulator has just been filled, at the point where
    [process_frame] runs, with a given script for the engine. *)
Definition full_detector (frame : list float) (smoothed : float)
    (script : list (float * float * float)) : Detector scripted :=
  {| config := cfg64;
     should_quit_ := false;
     log_is_open := true;
     aubio_ := script;
     total_beats_ := 0;
     total_onsets_ := 0;
     recent_bpms_ := [];
     bpm_stability_ := [];
     smoothed_bpm_ := smoothed;
     sample_accumulator_ := frame;
     accumulated_samples_ := 64;
     frame_count_ := 0;
     stdout_ := [];
     log_file_ := [] |}.

(** The engine result of the specification's end-to-end scenario:
    [bpm = 128], [confidence = 0.8], an onset. *)
Definition onset_128 : float * float * float :=
  (F32.of_Z 128, F32.lit 8 10, F32.of_Z 1).

(** An out-of-range tempo estimate followed by an ordinary one, both with
    confidence 0.8 and an onset. *)
Definition script_6760_100 : list (float * float * float) :=
  [(F32.of_Z 6760, F32.lit 8 10, F32.of_Z 1); (F32.of_Z 100, F32.lit 8 10, F32.of_Z 1)].

(** The analysis of a loud frame under that result, from a detector with no
    beat yet. *)
Definition analysis_128 : Analysis :=
  {| an_threshold := adaptive_threshold (rms_energy_of 64 loud64);
     an_bpm := F32.of_Z 128;
     an_confidence := F32.lit 8 10;
     an_is_onset := true;
     an_pitch_hz := F32.zero;
     an_is_beat := true;
     an_beat := Some (F32.zero, true) |}.

(** ** Names for stating the properties of a run *)

(** The detector and the frame reports after a run of the callback from a
    freshly constructed detector. *)
Definition detector_after `{Aubio} (cfg : Config) (log_open : bool) (e : engine)
    (bs : list (PwBuffer)) : Detector _ :=
  fst (process_stream (new_detector cfg log_open e) bs).

Definition reports_after `{Aubio} (cfg : Config) (log_open : bool) (e : engine)
    (bs : list (PwBuffer)) : list FrameReport :=
  snd (process_stream (new_detector cfg log_open e) bs).

(** All samples delivered by a run of buffers, in order. *)
Definition samples_of (bs : list PwBuffer) : list float :=
  concat (map (fun b => match b with Samples l => l | _ => [] end) bs).

(** The samples held in the accumulator below the write offset. *)
Definition pending `{Aubio} (d : Detector _) : list float :=
  take (Z.to_nat (accumulated_samples_ d)) (sample_accumulator_ d).

(** The accumulator between two iterations of the sample loop: a buffer of
    [buf_size_] floats and a write offset below [buf_size_]. *)
Definition accumulator_ok `{Aubio} (d : Detector _) : Prop :=
  0 < buf_size_ (config d) < 2 ^ 32 /\
  length (sample_accumulator_ d) = Z.to_nat (buf_size_ (config d)) /\
  0 <= accumulated_samples_ d < buf_size_ (config d).

(** The frames handed downstream by a run, in order. *)
Definition frames_after `{Aubio} (cfg : Config) (log_open : bool) (e : engine)
    (bs : list PwBuffer) : list (list float) :=
  map fr_frame (reports_after cfg log_open e bs).

(** The [i]-th run of [n] consecutive samples of [l]. *)
Definition slice (n : nat) (l : list float) (i : nat) : list float :=
  take n (drop (i * n) l).

(** ** The population standard deviation, as the specification words it

    [sqrt(mean((x - mean)^2))] over the window, the mean of [n] values being
    their sum divided by [n], in binary32. *)
Definition mean_of (l : list float) : float :=
  (sum_floats l / F32.of_Z (Z.of_nat (length l)))%f32.

Definition population_std_dev (w : list float) : float :=
  F32.sqrt (mean_of (map (fun x => (x - mean_of w) * (x - mean_of w))%f32 w)).

(** ** Rounding to nearest-even, for the proofs about binary32 sums and
       products *)

(** [m / 2^n] rounded to the nearest integer, ties to even. *)
Definition rne (m n : Z) : Z :=
  match 2 * (m mod 2 ^ n) ?= 2 ^ n with
  | Lt => m / 2 ^ n
  | Eq => if Z.even (m / 2 ^ n) then m / 2 ^ n else m / 2 ^ n + 1
  | Gt => m / 2 ^ n + 1
  end.

(** The binary32 value with truncation exponent [t] and rounded mantissa
    [k]: zero, a finite value (renormalised when the mantissa reached
    [2^24]), or infinity when the exponent exceeds 104. *)
Definition encode (t k : Z) : spec_float :=
  if k =? 0 then S754_zero false
  else if k <? 2 ^ 24 then
    (if t <=? 104 then S754_finite false (Z.to_pos k) t else S754_infinity false)
  else
    (if t + 1 <=? 104 then S754_finite false (Z.to_pos (2 ^ 23)) (t + 1)
     else S754_infinity false).

(** The exponent at which a positive value [p * 2^e] is rounded: 24
    significant bits, but not below the subnormal exponent -149. *)
Definition trunc_exp (p : positive) (e : Z) : Z :=
  Z.max (Zpos (digits2_pos p) + e - 24) (-149).

(** The rank of a non-negative binary32 value among the non-negative
    values (its bit pattern read as an integer); -1 elsewhere. *)
Definition ord32 (x : spec_float) : Z :=
  match x with
  | S754_zero _ => 0
  | S754_finite false m e => (e + 149) * 2 ^ 23 + Zpos m
  | S754_infinity false => 255 * 2 ^ 23
  | _ => -1
  end.

(** Valid values [x] with [0 <= x]: zeros, positive finite values and
    positive infinity. *)
Definition nonneg32 (x : spec_float) : bool :=
  valid_binary 24 128 x && SFleb (S754_zero false) x.

(** The rank of the rounding of [p * 2^e], before saturation at infinity. *)
Definition round_ord (p : positive) (e : Z) : Z :=
  (trunc_exp p e + 149) * 2 ^ 23 + rne (Zpos p) (trunc_exp p e - e).

(** The literals [0.15f] and [0.3f] as mantissa and exponent. *)
Definition c015 : spec_float := S754_finite false 10066330 (-26).
Definition c030 : spec_float := S754_finite false 10066330 (-25).

(** ** The rest of the detector: stopping, counting, telemetry *)

(** [stop()]: raise the quit flag (the call that makes the main loop return
    is outside the model). *)
Definition stop `{Aubio} (d : Detector _) : Detector _ :=
  {| config := config d;
     should_quit_ := true;
     log_is_open := log_is_open d;
     aubio_ := aubio_ d;
     total_beats_ := total_beats_ d;
     total_onsets_ := total_onsets_ d;
     recent_bpms_ := recent_bpms_ d;
     bpm_stability_ := bpm_stability_ d;
     smoothed_bpm_ := smoothed_bpm_ d;
     sample_accumulator_ := sample_accumulator_ d;
     accumulated_samples_ := accumulated_samples_ d;
     frame_count_ := frame_count_ d;
     stdout_ := stdout_ d;
     log_file_ := log_file_ d |}.

(** The stream states of PipeWire that [on_state_changed] distinguishes. *)
Inductive pw_stream_state :=
| PW_STREAM_STATE_ERROR
| PW_STREAM_STATE_UNCONNECTED
| PW_STREAM_STATE_CONNECTING
| PW_STREAM_STATE_PAUSED
| PW_STREAM_STATE_STREAMING.

(** [on_state_changed]: the state is printed in every case (not recorded
    here); an error state stops the detector. *)
Definition on_state_changed `{Aubio} (d : Detector _) (state : pw_stream_state)
  : Detector _ :=
  match state with
  | PW_STREAM_STATE_ERROR => stop d
  | _ => d
  end.

(** Frames of a run that reached the engine, and frames accepted as beats. *)
Definition is_analysed (r : FrameReport) : bool :=
  match fr_analysis r with Some _ => true | None => false end.

Definition is_beat_report (r : FrameReport) : bool :=
  match fr_analysis r with Some a => an_is_beat a | None => false end.

(** The beat lines among what the callback wrote to standard output. *)
Definition is_beat_output (o : Output) : bool :=
  match o with
  | OutVisual _ _ _ | OutBeat _ _ _ => true
  | _ => false
  end.

(** The number of elements of a list that pass a test. *)
Definition count_where {A : Type} (p : A -> bool) (l : list A) : nat :=
  length (List.filter p l).


(** What the analysis of a frame can change: the engine, the smoothed BPM,
    the two histories, the beat and onset counters and the log. *)
Definition analysis_state `{Aubio} (d : Detector _) :=
  (aubio_ d, smoothed_bpm_ d, recent_bpms_ d, bpm_stability_ d,
   total_beats_ d, total_onsets_ d, log_file_ d).

(** ** Samples that are not numbers *)

Definition is_nan (x : float) : bool :=
  match x with S754_nan => true | _ => false end.

(** A sample the silence gate does not see: a NaN, or a value below the
    silence floor in absolute value. *)
Definition quiet_or_nan (x : float) : bool :=
  is_nan x || F32.ltb (F32.abs x) SILENCE_THRESHOLD.

(** The shapes of a running maximum of absolute values: a zero, positive
    infinity or a positive finite number. *)
Definition is_magnitude (x : float) : bool :=
  match x with
  | S754_zero _ | S754_infinity false | S754_finite false _ _ => true
  | _ => false
  end.

(** A number: a zero or a finite value (not an infinity, not a NaN). *)
Definition is_number (x : float) : bool :=
  match x with S754_zero _ | S754_finite _ _ _ => true | _ => false end.

(** ** What the argument loop leaves in the settings *)

(** Whether a switch occurs among the arguments. *)
Definition has_flag (flag : string) (args : list string) : bool :=
  existsb (fun arg => (arg =? flag)%string) args.

(** The buffer size after the arguments: each positional argument that is
    a number overwrites it, so the last one wins. *)
Definition buffer_size_of (args : list string) (buffer_size : Z) : Z :=
  fold_left
    (fun size arg =>
       if is_positional arg then
         match stoul arg with
         | Parsed v => wrap32 v
         | _ => size
         end
       else size)
    args buffer_size.

(** The settings the detector is constructed with when the loop ends. *)
Definition settings_of (args : list string) (cfg : Config) : Config :=
  mkConfig (buffer_size_of args (buf_size_ cfg))
           (enable_logging_ cfg && negb (has_flag "--no-log" args))
           (enable_performance_stats_ cfg && negb (has_flag "--no-stats" args))
           (enable_pitch_detection_ cfg || has_flag "--pitch" args)
           (enable_visual_feedback_ cfg && negb (has_flag "--no-visual" args)).

(** A string of decimal digits only. *)
Fixpoint all_digits (s : string) : bool :=
  match s with
  | EmptyString => true
  | String c s' =>
      match digit_of c with
      | Some _ => all_digits s'
      | None => false
      end
  end.

(** ** Processing times and the final statistics *)

(** Binary64, for the processing times ([double]). *)
Module F64.

Definition prec : Z := 53.
Definition emax : Z := 1024.

Definition float : Type := spec_float.

Definition add : float -> float -> float := SFadd prec emax.
Definition div : float -> float -> float := SFdiv prec emax.
Definition ltb (a b : float) : bool := SFltb a b.
Definition of_Z (n : Z) : float := binary_normalize prec emax n 0 false.
Definition zero : float := S754_zero false.

End F64.

(** The end of [process_audio]: the time of a callback that got as far as
    the sample loop is recorded while fewer than 1000 are stored.  A
    callback that returns early (after [stop], without a buffer, or with a
    buffer without data) records nothing. *)
Definition track_performance `{Aubio} (d : Detector _) (b : PwBuffer)
    (process_times : list F64.float) (process_time : F64.float) : list F64.float :=
  if should_quit_ d then process_times
  else
    match b with
    | Samples _ =>
        if enable_performance_stats_ (config d) then
          if (length process_times <? 1000)%nat
          then process_times ++ [process_time]
          else process_times
        else process_times
    | _ => process_times
    end.

(** A run of the callback with the time each call took. *)
Definition timed_stream `{Aubio} (d : Detector _) (bs : list (PwBuffer * F64.float))
    : Detector _ * list F64.float :=
  fold_left
    (fun '(d, process_times) '(b, process_time) =>
       (fst (process_audio d b), track_performance d b process_times process_time))
    bs (d, []).

(** [*std::max_element(first, last)] and [*std::min_element(first, last)]
    of a non-empty range: the first largest and the first smallest element
    under [<]. *)
Definition max_element (first : F64.float) (rest : list F64.float) : F64.float :=
  fold_left (fun largest x => if F64.ltb largest x then x else largest) rest first.

Definition min_element (first : F64.float) (rest : list F64.float) : F64.float :=
  fold_left (fun smallest x => if F64.ltb x smallest then x else smallest) rest first.

Inductive StatLine :=
| StatHeader
| StatRuntime (seconds : Z)
| StatBeats (total_beats : Z)
| StatFrames (frame_count : Z)
| StatRate (beats_per_second : float)
| StatAvgTime (avg_time : F64.float)
| StatMaxTime (max_time : F64.float)
| StatMinTime (min_time : F64.float)
| StatAvgBpm (average_bpm : float).

(** [print_final_stats], given the whole seconds since [start_time_]. *)
Definition print_final_stats `{Aubio} (d : Detector _) (process_times : list F64.float)
    (seconds : Z) : list StatLine :=
  if negb (enable_performance_stats_ (config d)) then []
  else
    [StatHeader; StatRuntime seconds; StatBeats (total_beats_ d);
     StatFrames (frame_count_ d)]
    ++ (if 0 <? frame_count_ d
        then [StatRate (F32.of_Z (total_beats_ d) / F32.of_Z seconds)%f32]
        else [])
    ++ match process_times with
       | [] => []
       | t :: ts =>
           [StatAvgTime
              (F64.div (fold_left F64.add process_times F64.zero)
                       (F64.of_Z (Z.of_nat (length process_times))));
            StatMaxTime (max_element t ts);
            StatMinTime (min_element t ts)]
       end
    ++ match recent_bpms_ d with
       | [] => []
       | _ => [StatAvgBpm (get_average_bpm d)]
       end.

(** The times of the callbacks of a run that carried samples. *)
Definition sample_times (bs : list (PwBuffer * F64.float)) : list F64.float :=
  omap (fun '(b, t) => match b with Samples _ => Some t | _ => None end) bs.

Definition is_avg_bpm_line (l : StatLine) : bool :=
  match l with StatAvgBpm _ => true | _ => false end.

Definition is_rate_line (l : StatLine) : bool :=
  match l with StatRate _ => true | _ => false end.

(** ** Start-up and shutdown

    [initialize], [setup_stream], [run], the destructor and [cleanup], as
    the sequence of objects they create and destroy.  The calls into
    PipeWire and aubio that can fail are answered by an [Env]; allocation
    failures of the standard containers are left out. *)

Module Lifecycle.

(** The objects the detector owns: the log file and one entry per pointer
    member. *)
Inductive Resource :=
| LogFile | MainLoop | Context | Core | Stream
| Tempo | InputBuffer | OutputBuffer | Onset | Pitch | PitchBuffer.

#[global] Instance Resource_eq_dec : EqDecision Resource.
Proof. solve_decision. Defined.

(** Which calls succeed: [log_file_.open], and each call that returns an
    object or a status. *)
Record Env := mkEnv {
  log_file_opens : bool;
  pw_main_loop_new_ok : bool;
  pw_context_new_ok : bool;
  pw_context_connect_ok : bool;
  new_aubio_tempo_ok : bool;
  new_fvec_input_ok : bool;
  new_fvec_output_ok : bool;
  new_aubio_onset_ok : bool;
  new_aubio_pitch_ok : bool;
  new_fvec_pitch_ok : bool;
  pw_stream_new_simple_ok : bool;
  pw_stream_connect_ok : bool }.

(** The messages of [initialize] and [setup_stream] on standard error. *)
Inductive Failure :=
| NoMainLoop | NoContext | NoConnection | NoTempo | NoBuffers | NoOnset | NoPitch
| NoStream | NoStreamConnection.

Inductive Event :=
| PwInit
| Acquired (r : Resource)
| Failed (f : Failure)
| StartupInfo
| MainLoopRun
| FinalStats
| Released (r : Resource)
| PwDeinit
| CleanupComplete.

#[global] Instance Failure_eq_dec : EqDecision Failure.
Proof. solve_decision. Defined.

#[global] Instance Event_eq_dec : EqDecision Event.
Proof. solve_decision. Defined.

(** The members that hold an object (an open file, a non-null pointer). *)
Definition Handles : Type := Resource -> bool.

Definition no_handles : Handles := fun _ => false.

Definition hold (r : Resource) (h : Handles) : Handles :=
  fun r' => if decide (r' = r) then true else h r'.

Definition drop_handle (r : Resource) (h : Handles) : Handles :=
  fun r' => if decide (r' = r) then false else h r'.

(** A call that stores its result in a member: the member holds an object
    when the call succeeded and is null otherwise. *)
Definition acquire (ok : bool) (r : Resource) (s : Handles * list Event)
    : Handles * list Event :=
  if ok then (hold r (fst s), snd s ++ [Acquired r])
  else (drop_handle r (fst s), snd s).

Definition fail (f : Failure) (s : Handles * list Event)
    : Handles * list Event * bool :=
  (fst s, snd s ++ [Failed f], false).

Definition setup_stream (env : Env) (s : Handles * list Event)
    : Handles * list Event * bool :=
  let s := acquire (pw_stream_new_simple_ok env) Stream s in
  if negb (fst s Stream) then fail NoStream s
  else if negb (pw_stream_connect_ok env) then fail NoStreamConnection s
  else (s, true).

Definition initialize (cfg : Config) (env : Env) : Handles * list Event * bool :=
  let s := (no_handles, []) in
  let s := if enable_logging_ cfg then acquire (log_file_opens env) LogFile s else s in
  let s := (fst s, snd s ++ [PwInit]) in
  let s := acquire (pw_main_loop_new_ok env) MainLoop s in
  if negb (fst s MainLoop) then fail NoMainLoop s else
  let s := acquire (pw_context_new_ok env) Context s in
  if negb (fst s Context) then fail NoContext s else
  let s := acquire (pw_context_connect_ok env) Core s in
  if negb (fst s Core) then fail NoConnection s else
  let s := acquire (new_aubio_tempo_ok env) Tempo s in
  if negb (fst s Tempo) then fail NoTempo s else
  let s := acquire (new_fvec_input_ok env) InputBuffer s in
  let s := acquire (new_fvec_output_ok env) OutputBuffer s in
  if negb (fst s InputBuffer) || negb (fst s OutputBuffer) then fail NoBuffers s else
  let s := acquire (new_aubio_onset_ok env) Onset s in
  if negb (fst s Onset) then fail NoOnset s else
  if enable_pitch_detection_ cfg then
    let s := acquire (new_aubio_pitch_ok env) Pitch s in
    let s := acquire (new_fvec_pitch_ok env) PitchBuffer s in
    if negb (fst s Pitch) || negb (fst s PitchBuffer) then fail NoPitch s
    else setup_stream env s
  else setup_stream env s.

(** [run]: nothing without a main loop; the result of [initialize] plays
    no part. *)
Definition run (s : Handles * list Event) : Handles * list Event :=
  if negb (fst s MainLoop) then s
  else (fst s, snd s ++ [StartupInfo; MainLoopRun]).

(** A member that is released if it holds an object, and cleared. *)
Definition release (r : Resource) (s : Handles * list Event) : Handles * list Event :=
  if fst s r then (drop_handle r (fst s), snd s ++ [Released r]) else s.

Definition cleanup (s : Handles * list Event) : Handles * list Event :=
  let s := release LogFile s in
  let s := release Stream s in
  let s := release Core s in
  let s := release Context s in
  let s := release MainLoop s in
  let s := release Tempo s in
  let s := release InputBuffer s in
  let s := release OutputBuffer s in
  let s := release Onset s in
  let s := release Pitch s in
  let s := release PitchBuffer s in
  (fst s, snd s ++ [PwDeinit; CleanupComplete]).

(** The destructor: the final statistics, then [cleanup]. *)
Definition destroy (cfg : Config) (s : Handles * list Event) : Handles * list Event :=
  cleanup (fst s,
           snd s ++ (if enable_performance_stats_ cfg then [FinalStats] else [])).

(** The life of the detector in [main]: construction (the result of
    [initialize] is dropped), [run], destruction; then [return 0]. *)
Definition detector_life (cfg : Config) (env : Env) : Handles * list Event * Z :=
  let '(s, _) := initialize cfg env in
  (destroy cfg (run s), 0).

(** What happened during that life, the members at its end, and the value
    [main] returns. *)
Definition events (cfg : Config) (env : Env) : list Event :=
  snd (fst (detector_life cfg env)).

Definition handles_after (cfg : Config) (env : Env) : Handles :=
  fst (fst (detector_life cfg env)).

Definition exit_code (cfg : Config) (env : Env) : Z :=
  snd (detector_life cfg env).

(** The number of occurrences of an event. *)
Definition count_event (ev : Event) (t : list Event) : nat :=
  length (List.filter (fun ev' => bool_decide (ev' = ev)) t).

(** The releases of a trace, in order. *)
Definition releases (t : list Event) : list Resource :=
  omap (fun ev => match ev with Released r => Some r | _ => None end) t.

(** The order in which [cleanup] goes through the members. *)
Definition cleanup_order : list Resource :=
  [LogFile; Stream; Core; Context; MainLoop;
   Tempo; InputBuffer; OutputBuffer; Onset; Pitch; PitchBuffer].

(** Every step of [initialize] and [setup_stream] succeeds. *)
Definition all_ok (cfg : Config) (env : Env) : bool :=
  pw_main_loop_new_ok env && pw_context_new_ok env && pw_context_connect_ok env
  && new_aubio_tempo_ok env && new_fvec_input_ok env && new_fvec_output_ok env
  && new_aubio_onset_ok env
  && (negb (enable_pitch_detection_ cfg)
      || (new_aubio_pitch_ok env && new_fvec_pitch_ok env))
  && pw_stream_new_simple_ok env && pw_stream_connect_ok env.

End Lifecycle.

(** ** Status lines and log lines *)

(** The status lines among what the callback wrote to standard output. *)
Definition is_status_output (o : Output) : bool :=
  match o with
  | OutSilence _ _ | OutDebug _ _ _ _ _ => true
  | _ => false
  end.

(** A log line as the acceptance branch writes it under settings [cfg]: a
    confidence above the threshold, an amplitude that passed the silence
    gate, and no pitch unless pitch detection is enabled. *)
Definition confident_beat_line (cfg : Config) (l : LogLine) : Prop :=
  F32.gtb (log_confidence l) CONFIDENCE_THRESHOLD = true /\
  F32.ltb (log_amplitude l) SILENCE_THRESHOLD = false /\
  (enable_pitch_detection_ cfg = false -> log_pitch l = F32.zero).

(** ** The beat bar of [generate_beat_visual] *)

(** [static_cast<int>(x)] of a [float]: truncation toward zero; the
    behaviour is undefined ([None]) for a NaN, an infinity and a value
    outside the range of [int]. *)
Definition float_to_int (x : float) : option Z :=
  match x with
  | S754_zero _ => Some 0
  | S754_finite s m e =>
      let magnitude := Z.shiftl (Zpos m) e in
      let v := if s then - magnitude else magnitude in
      if (- 2 ^ 31 <=? v) && (v <? 2 ^ 31) then Some v else None
  | _ => None
  end.

(** What [generate_beat_visual] returns: the empty string, or the beat
    line with its bar of full and empty cells. *)
Inductive Visual :=
| NoText
| BeatBar (full_cells empty_cells : nat) (bpm conf avg : float).

Definition generate_beat_visual `{Aubio} (d : Detector _) (bpm confidence : float)
    (is_beat : bool) : option Visual :=
  if negb (enable_visual_feedback_ (config d)) then Some NoText
  else if is_beat then
    match float_to_int (F32.min (bpm / F32.of_Z 20)%f32 (F32.of_Z 10)) with
    | Some intensity =>
        Some (BeatBar (Z.to_nat intensity) (Z.to_nat (10 - intensity))
                      bpm confidence (get_average_bpm d))
    | None => None
    end
  else Some NoText.

(** ** Names for stating what a beat carries *)

(** The smoothed BPM of the beat lines on standard output, in order. *)
Definition beat_bpms (out : list Output) : list float :=
  omap (fun o => match o with
                 | OutVisual bpm _ _ | OutBeat bpm _ _ => Some bpm
                 | _ => None
                 end) out.

(** The variance and the stability flag of the frames accepted as beats,
    in order. *)
Definition beat_variances (rs : list FrameReport) : list (float * bool) :=
  omap (fun r => match fr_analysis r with Some a => an_beat a | None => None end) rs.

(** The stability window after each of the insertions [xs] in turn: the
    [k]-th one is the window right after the [k]-th value was pushed. *)
Definition windows_of (xs : list float) : list (list float) :=
  map (fun k => fold_left (push_bounded STABILITY_WINDOW) (take (S k) xs) [])
      (seq 0 (length xs)).

(** What the acceptance branch computes from a window. *)
Definition variance_and_flag (w : list float) : float * bool :=
  (get_bpm_variance_of w, F32.ltb (get_bpm_variance_of w) BPM_VARIANCE_LIMIT).

(** A tempo outside the band, [215.72972] (bit pattern [0x4357BACF]), and
    an engine that reports it five times with confidence 0.8 and an onset. *)
Definition bpm_215 : float := S754_finite false 14138063 (-16).

Definition script_215 : list (float * float * float) :=
  replicate 5 (bpm_215, F32.lit 8 10, F32.of_Z 1).

(** * Properties *)

(** ** The literals of the source, as mantissa and exponent

    [0.01f] is [0x3C23D70A], [0.5f] is [0x3F000000], [0.7f] is
    [0x3F333333], [0.3f] is [0x3E99999A], [0.15f] is [0x3E19999A]. *)

Lemma literal_values :
  SILENCE_THRESHOLD = S754_finite false 10737418 (-30) /\
  CONFIDENCE_THRESHOLD = S754_finite false 8388608 (-24) /\
  F32.lit 7 10 = S754_finite false 11744051 (-24) /\
  F32.lit 3 10 = S754_finite false 10066330 (-25) /\
  F32.lit 15 100 = S754_finite false 10066330 (-26) /\
  BPM_MIN = S754_finite false 15728640 (-18) /\
  BPM_MAX = S754_finite false 13107200 (-16) /\
  F32.of_Z 999 = S754_finite false 16367616 (-14).
Proof. vm_compute. repeat split; reflexivity. Qed.

(** ** Comparisons of binary32 values *)

Lemma SFcompare_antisym (a b : float) :
  SFcompare b a = option_map CompOpp (SFcompare a b).
Proof.
  destruct a as [sa|sa| |sa ma ea], b as [sb|sb| |sb mb eb]; simpl;
    try reflexivity;
    try (destruct sa; reflexivity); try (destruct sb; reflexivity);
    try (destruct sa, sb; reflexivity).
  destruct sa, sb; simpl; try reflexivity;
    rewrite (Z.compare_antisym ea eb);
    destruct (ea ?= eb); simpl; try reflexivity;
    rewrite (Pos.compare_cont_antisym ma mb Eq); simpl;
    try rewrite CompOpp_involutive; reflexivity.
Qed.

Lemma eqb_true_gtb_false (a b : float) :
  F32.eqb a b = true -> F32.gtb a b = false.
Proof.
  unfold F32.eqb, F32.gtb, SFeqb, SFltb.
  rewrite (SFcompare_antisym a b).
  destruct (SFcompare a b) as [[ | | ]|]; simpl; congruence.
Qed.

Lemma ltb_zero_silence : F32.ltb F32.zero SILENCE_THRESHOLD = true.
Proof. reflexivity. Qed.

(** The running maximum of the amplitude loop does not depend on the sum of
    squares computed next to it. *)
Lemma amplitude_loop_fst (frame : list float) (m r : float) :
  fst (fold_left
         (fun '(max_amplitude, rms_energy) x =>
            (F32.max max_amplitude (F32.abs x), rms_energy + x * x)%f32)
         frame (m, r))
  = fold_left (fun m x => F32.max m (F32.abs x)) frame m.
Proof.
  revert m r. induction frame as [|x frame IH]; intros m r; simpl.
  - reflexivity.
  - apply IH.
Qed.

Lemma max_amplitude_of_fold (frame : list float) :
  max_amplitude_of frame = fold_left (fun m x => F32.max m (F32.abs x)) frame F32.zero.
Proof. apply amplitude_loop_fst. Qed.

(** If every sample is below a bound in absolute value, so is the running
    maximum, from any start below the bound. *)
Lemma running_max_below (bound : float) (frame : list float) (m : float) :
  F32.ltb m bound = true ->
  Forall (fun x => F32.ltb (F32.abs x) bound = true) frame ->
  F32.ltb (fold_left (fun m x => F32.max m (F32.abs x)) frame m) bound = true.
Proof.
  intros Hm Hall. revert m Hm.
  induction Hall as [|x frame Hx _ IH]; intros m Hm; simpl.
  - exact Hm.
  - apply IH. unfold F32.max. destruct (F32.ltb m (F32.abs x)); assumption.
Qed.

Lemma quiet_frame_below_threshold (frame : list float) :
  Forall (fun x => F32.ltb (F32.abs x) SILENCE_THRESHOLD = true) frame ->
  F32.ltb (max_amplitude_of frame) SILENCE_THRESHOLD = true.
Proof.
  intros Hall. rewrite max_amplitude_of_fold.
  apply running_max_below; [apply ltb_zero_silence | exact Hall].
Qed.

Section FrameProperties.

Context `{Aubio}.

Lemma process_frame_report (d : Detector _) :
  fr_frame (snd (process_frame d)) = frame_of d /\
  fr_max_amplitude (snd (process_frame d)) = max_amplitude_of (frame_of d) /\
  fr_rms_energy (snd (process_frame d))
  = rms_energy_of (buf_size_ (config d)) (frame_of d).
Proof.
  unfold process_frame, frame_of.
  repeat match goal with
         | |- context [if ?c then _ else _] => destruct c
         | |- context [let '(_, _) := ?p in _] => destruct p
         end; simpl; auto.
Qed.

Lemma process_frame_silent (d : Detector _) :
  is_silent d = true ->
  process_frame d =
    ({| config := config d;
        should_quit_ := should_quit_ d;
        log_is_open := log_is_open d;
        aubio_ := aubio_ d;
        total_beats_ := total_beats_ d;
        total_onsets_ := total_onsets_ d;
        recent_bpms_ := recent_bpms_ d;
        bpm_stability_ := bpm_stability_ d;
        smoothed_bpm_ := smoothed_bpm_ d;
        sample_accumulator_ := sample_accumulator_ d;
        accumulated_samples_ := 0;
        frame_count_ := wrap64 (frame_count_ d + 1);
        stdout_ := stdout_ d ++
                   every_200 (wrap64 (frame_count_ d + 1))
                     (OutSilence (wrap64 (frame_count_ d + 1))
                                 (max_amplitude_of (frame_of d)));
        log_file_ := log_file_ d |},
     mkFrameReport (frame_of d) (max_amplitude_of (frame_of d))
       (rms_energy_of (buf_size_ (config d)) (frame_of d)) None).
Proof.
  unfold is_silent, frame_of, process_frame. intros ->. reflexivity.
Qed.

(** The analysis of a frame that passes the gate, in terms of the engine
    calls. *)
Lemma process_frame_analysed (d : Detector _) :
  is_silent d = false ->
  exists a,
    fr_analysis (snd (process_frame d)) = Some a /\
    an_threshold a
    = adaptive_threshold (rms_energy_of (buf_size_ (config d)) (frame_of d)) /\
    an_bpm a = aubio_tempo_get_bpm (engine_after_tempo d) /\
    an_confidence a = aubio_tempo_get_confidence (engine_after_tempo d) /\
    an_is_onset a
    = F32.neqb (snd (aubio_onset_do (engine_after_tempo d) (frame_of d))) F32.zero /\
    an_is_beat a
    = an_is_onset a && F32.gtb (an_confidence a) CONFIDENCE_THRESHOLD /\
    smoothed_bpm_ (fst (process_frame d)) = smooth_bpm (smoothed_bpm_ d) (an_bpm a) /\
    total_beats_ (fst (process_frame d))
    = (if an_is_beat a then wrap64 (total_beats_ d + 1) else total_beats_ d) /\
    total_onsets_ (fst (process_frame d)) = wrap64 (total_onsets_ d + 1) /\
    frame_count_ (fst (process_frame d)) = wrap64 (frame_count_ d + 1) /\
    recent_bpms_ (fst (process_frame d))
    = (if an_is_beat a
       then push_bounded BPM_HISTORY_SIZE (recent_bpms_ d)
              (smooth_bpm (smoothed_bpm_ d) (an_bpm a))
       else recent_bpms_ d) /\
    bpm_stability_ (fst (process_frame d))
    = (if an_is_beat a
       then push_bounded STABILITY_WINDOW (bpm_stability_ d)
              (smooth_bpm (smoothed_bpm_ d) (an_bpm a))
       else bpm_stability_ d) /\
    an_beat a
    = (if an_is_beat a
       then Some (get_bpm_variance_of (bpm_stability_ (fst (process_frame d))),
                  F32.ltb (get_bpm_variance_of (bpm_stability_ (fst (process_frame d))))
                          BPM_VARIANCE_LIMIT)
       else None) /\
    log_file_ (fst (process_frame d))
    = log_file_ d ++
      (if an_is_beat a && (enable_logging_ (config d) && log_is_open d)
       then [mkLogLine (smoothed_bpm_ (fst (process_frame d))) (an_confidence a)
                       (an_pitch_hz a) (max_amplitude_of (frame_of d))
                       (get_bpm_variance_of (bpm_stability_ (fst (process_frame d))))]
       else []).
Proof.
  unfold is_silent, engine_after_tempo, frame_of, process_frame. intros ->.
  destruct (aubio_onset_do _ _) as [e3 onset_out] eqn:Honset.
  destruct (if enable_pitch_detection_ (config d) then _ else _) as [e4 pitch_hz].
  destruct (F32.neqb onset_out F32.zero && _) eqn:Hbeat; simpl;
    eexists; (split; [reflexivity|]); simpl; rewrite ?Hbeat;
    repeat split; try reflexivity.
  symmetry. apply app_nil_r.
Qed.

(** The fields a pass over a frame never touches, and the reset of the
    write offset. *)
Lemma process_frame_fixed (d : Detector _) :
  config (fst (process_frame d)) = config d /\
  should_quit_ (fst (process_frame d)) = should_quit_ d /\
  log_is_open (fst (process_frame d)) = log_is_open d /\
  sample_accumulator_ (fst (process_frame d)) = sample_accumulator_ d /\
  accumulated_samples_ (fst (process_frame d)) = 0.
Proof.
  unfold process_frame.
  repeat match goal with
         | |- context [if ?c then _ else _] => destruct c
         | |- context [let '(_, _) := ?p in _] => destruct p
         end; simpl; auto.
Qed.

End FrameProperties.

Section FrameClaims.

Context `{Aubio}.

Lemma analysed_not_silent (d : Detector _) (a : Analysis) :
  fr_analysis (snd (process_frame d)) = Some a -> is_silent d = false.
Proof.
  destruct (is_silent d) eqn:Hs; [|reflexivity].
  rewrite (process_frame_silent d Hs). simpl. discriminate.
Qed.

Lemma analysis_of_frame (d : Detector _) (a : Analysis) :
  fr_analysis (snd (process_frame d)) = Some a ->
  an_threshold a
  = adaptive_threshold (rms_energy_of (buf_size_ (config d)) (frame_of d)) /\
  an_bpm a = aubio_tempo_get_bpm (engine_after_tempo d) /\
  an_confidence a = aubio_tempo_get_confidence (engine_after_tempo d) /\
  an_is_onset a
  = F32.neqb (snd (aubio_onset_do (engine_after_tempo d) (frame_of d))) F32.zero /\
  an_is_beat a = an_is_onset a && F32.gtb (an_confidence a) CONFIDENCE_THRESHOLD /\
  smoothed_bpm_ (fst (process_frame d)) = smooth_bpm (smoothed_bpm_ d) (an_bpm a) /\
  total_beats_ (fst (process_frame d))
  = (if an_is_beat a then wrap64 (total_beats_ d + 1) else total_beats_ d).
Proof.
  intros Ha.
  destruct (process_frame_analysed d (analysed_not_silent d a Ha))
    as (a' & Ha' & H1 & H2 & H3 & H4 & H5 & H6 & H7 & _).
  rewrite Ha in Ha'. injection Ha' as <-. repeat split; assumption.
Qed.

(** C1.  On every frame that reaches the engine, the beat flag is true
    exactly when the engine reported an onset and the tempo confidence is
    strictly greater than 0.5: it is false when the confidence equals 0.5,
    false without an onset whatever the confidence, and false without
    enough confidence whatever the onset.  The beat counter moves exactly
    when the flag is set. *)
Theorem beat_iff_onset_and_confident (d : Detector _) (a : Analysis) :
  fr_analysis (snd (process_frame d)) = Some a ->
  an_confidence a = aubio_tempo_get_confidence (engine_after_tempo d) /\
  an_is_onset a
  = F32.neqb (snd (aubio_onset_do (engine_after_tempo d) (frame_of d))) F32.zero /\
  (an_is_beat a = true <->
   an_is_onset a = true /\ F32.gtb (an_confidence a) CONFIDENCE_THRESHOLD = true) /\
  (F32.eqb (an_confidence a) CONFIDENCE_THRESHOLD = true -> an_is_beat a = false) /\
  (an_is_onset a = false -> an_is_beat a = false) /\
  (F32.gtb (an_confidence a) CONFIDENCE_THRESHOLD = false -> an_is_beat a = false) /\
  total_beats_ (fst (process_frame d))
  = (if an_is_beat a then wrap64 (total_beats_ d + 1) else total_beats_ d).
Proof.
  intros Ha.
  destruct (analysis_of_frame d a Ha) as (_ & _ & Hc & Ho & Hb & _ & Ht).
  split; [exact Hc|]. split; [exact Ho|].
  split; [rewrite Hb; apply andb_true_iff|].
  split.
  { intros Heq. rewrite Hb, (eqb_true_gtb_false _ _ Heq). apply andb_false_r. }
  split; [intros Hf; rewrite Hb, Hf; reflexivity|].
  split; [intros Hf; rewrite Hb, Hf; apply andb_false_r|].
  exact Ht.
Qed.

(** C2.  On every frame that reaches the engine, with [bpm] the engine's
    tempo estimate: if [60 < bpm < 200] the new smoothed BPM is
    [0.7 * smoothed + 0.3 * bpm]; otherwise, if the smoothed BPM is zero it
    becomes [bpm], in range or not; otherwise it is unchanged.  A smoothed
    BPM of 120 with 130 incoming gives exactly 123, and a smoothed BPM of 0
    with 45 incoming gives 45. *)
Theorem smoothing_rule (d : Detector _) (a : Analysis) :
  fr_analysis (snd (process_frame d)) = Some a ->
  an_bpm a = aubio_tempo_get_bpm (engine_after_tempo d) /\
  (F32.gtb (an_bpm a) BPM_MIN = true -> F32.ltb (an_bpm a) BPM_MAX = true ->
   smoothed_bpm_ (fst (process_frame d))
   = (F32.lit 7 10 * smoothed_bpm_ d + F32.lit 3 10 * an_bpm a)%f32) /\
  (F32.gtb (an_bpm a) BPM_MIN && F32.ltb (an_bpm a) BPM_MAX = false ->
   F32.eqb (smoothed_bpm_ d) F32.zero = true ->
   smoothed_bpm_ (fst (process_frame d)) = an_bpm a) /\
  (F32.gtb (an_bpm a) BPM_MIN && F32.ltb (an_bpm a) BPM_MAX = false ->
   F32.eqb (smoothed_bpm_ d) F32.zero = false ->
   smoothed_bpm_ (fst (process_frame d)) = smoothed_bpm_ d) /\
  smooth_bpm (F32.of_Z 120) (F32.of_Z 130) = F32.of_Z 123 /\
  smooth_bpm F32.zero (F32.of_Z 45) = F32.of_Z 45.
Proof.
  intros Ha.
  destruct (analysis_of_frame d a Ha) as (_ & Hbpm & _ & _ & _ & Hs & _).
  split; [exact Hbpm|]. rewrite Hs. unfold smooth_bpm.
  split; [intros -> ->; reflexivity|].
  split; [intros -> ->; reflexivity|].
  split; [intros -> ->; reflexivity|].
  split; vm_compute; reflexivity.
Qed.

(** C3.  A full frame in which every sample is below 0.01 in absolute
    value (its peak is below the silence floor) is skipped: no engine call
    is made, so the engine is left as it was, and the smoothed BPM, the BPM
    history and the stability window are unchanged, as are the beat and
    onset counters and the log. *)
Theorem silent_frame_skipped (d : Detector _) :
  Forall (fun x => F32.ltb (F32.abs x) SILENCE_THRESHOLD = true) (frame_of d) ->
  F32.ltb (fr_max_amplitude (snd (process_frame d))) SILENCE_THRESHOLD = true /\
  fr_analysis (snd (process_frame d)) = None /\
  aubio_ (fst (process_frame d)) = aubio_ d /\
  smoothed_bpm_ (fst (process_frame d)) = smoothed_bpm_ d /\
  recent_bpms_ (fst (process_frame d)) = recent_bpms_ d /\
  bpm_stability_ (fst (process_frame d)) = bpm_stability_ d /\
  total_beats_ (fst (process_frame d)) = total_beats_ d /\
  total_onsets_ (fst (process_frame d)) = total_onsets_ d /\
  log_file_ (fst (process_frame d)) = log_file_ d.
Proof.
  intros Hq. apply quiet_frame_below_threshold in Hq.
  rewrite (process_frame_silent d Hq). simpl. repeat split. exact Hq.
Qed.

(** C7, as the code has it.  Every full frame, skipped by the silence
    gate or not, increments the frame counter exactly once.  The onset
    counter is incremented exactly once on every frame that passes the
    gate, whether or not the frame is accepted as a beat, and is left
    alone on a skipped frame.  Storing a sample moves neither counter. *)
Theorem counters_per_frame (d : Detector _) (x : float) :
  frame_count_ (fst (process_frame d)) = wrap64 (frame_count_ d + 1) /\
  total_onsets_ (fst (process_frame d))
  = (if is_silent d then total_onsets_ d else wrap64 (total_onsets_ d + 1)) /\
  (fr_analysis (snd (process_frame d)) = None <-> is_silent d = true) /\
  frame_count_ (store_sample d x) = frame_count_ d /\
  total_onsets_ (store_sample d x) = total_onsets_ d.
Proof.
  destruct (is_silent d) eqn:Hs.
  - rewrite (process_frame_silent d Hs). simpl. repeat split; reflexivity.
  - destruct (process_frame_analysed d Hs)
      as (a & Ha & _ & _ & _ & _ & _ & _ & _ & Ho & Hf & _).
    rewrite Ha. repeat split; try assumption; try reflexivity; discriminate.
Qed.

End FrameClaims.

Lemma beat_iff_onset_and_confident_witness :
  fr_analysis (snd (process_frame (full_detector loud64 F32.zero [onset_128])))
  = Some analysis_128 /\
  (an_is_beat analysis_128 = true <->
   an_is_onset analysis_128 = true /\
   F32.gtb (an_confidence analysis_128) CONFIDENCE_THRESHOLD = true).
Proof.
  split; [vm_compute; reflexivity|].
  apply (beat_iff_onset_and_confident
           (full_detector loud64 F32.zero [onset_128]) analysis_128).
  vm_compute. reflexivity.
Defined.

Lemma smoothing_rule_witness :
  fr_analysis (snd (process_frame (full_detector loud64 F32.zero [onset_128])))
  = Some analysis_128 /\
  F32.gtb (an_bpm analysis_128) BPM_MIN = true /\
  F32.ltb (an_bpm analysis_128) BPM_MAX = true /\
  smoothed_bpm_ (fst (process_frame (full_detector loud64 F32.zero [onset_128])))
  = (F32.lit 7 10 * F32.zero + F32.lit 3 10 * an_bpm analysis_128)%f32.
Proof.
  split; [vm_compute; reflexivity|].
  split; [vm_compute; reflexivity|].
  split; [vm_compute; reflexivity|].
  refine (proj1 (proj2 (smoothing_rule
           (full_detector loud64 F32.zero [onset_128]) analysis_128 _)) _ _);
    vm_compute; reflexivity.
Defined.

Lemma silent_frame_skipped_witness :
  Forall (fun x => F32.ltb (F32.abs x) SILENCE_THRESHOLD = true)
         (frame_of (full_detector quiet64 (F32.of_Z 120) [onset_128])) /\
  fr_analysis (snd (process_frame (full_detector quiet64 (F32.of_Z 120) [onset_128])))
  = None.
Proof.
  assert (Hq : Forall (fun x => F32.ltb (F32.abs x) SILENCE_THRESHOLD = true)
                      (frame_of (full_detector quiet64 (F32.of_Z 120) [onset_128]))).
  { unfold frame_of, quiet64. simpl.
    repeat (apply List.Forall_cons; [vm_compute; reflexivity|]). apply List.Forall_nil. }
  split; [exact Hq|].
  exact (proj1 (proj2 (silent_frame_skipped
           (full_detector quiet64 (F32.of_Z 120) [onset_128]) Hq))).
Defined.

(** C7, as stated, fails: the silence gate skips a quiet frame, and the
    frame counter has moved from 0 to 1 all the same. *)
Lemma skipped_frame_is_counted :
  map fr_analysis
      (snd (process_audio (new_detector cfg64 true [onset_128]) (Samples quiet64)))
  = [None] /\
  frame_count_ (new_detector cfg64 true [onset_128]) = 0 /\
  frame_count_
    (fst (process_audio (new_detector cfg64 true [onset_128]) (Samples quiet64))) = 1.
Proof. vm_compute. repeat split; reflexivity. Qed.

(** ** Bounded histories *)

Lemma push_bounded_length (cap : nat) (v : list float) (x : float) :
  (length v <= cap)%nat -> (length (push_bounded cap v x) <= cap)%nat.
Proof.
  intros Hv. unfold push_bounded.
  destruct (Nat.ltb_spec cap (length (v ++ [x]))) as [Hlt|Hle].
  - destruct v as [|y v]; simpl in *; [lia|].
    rewrite length_app. simpl. lia.
  - exact Hle.
Qed.

(** An insertion into a history below capacity keeps everything; an
    insertion into a full history drops the oldest entry and nothing else. *)
Lemma push_bounded_fifo (cap : nat) (v : list float) (x : float) :
  (0 < cap)%nat -> (length v <= cap)%nat ->
  push_bounded cap v x = (if (length v =? cap)%nat then tail v else v) ++ [x].
Proof.
  intros Hcap Hv. unfold push_bounded. rewrite length_app. simpl.
  destruct (Nat.eqb_spec (length v) cap) as [Heq|Hne].
  - destruct (Nat.ltb_spec cap (length v + 1)) as [_|Hle]; [|lia].
    destruct v as [|y v]; simpl in *; [lia|reflexivity].
  - destruct (Nat.ltb_spec cap (length v + 1)) as [Hlt|_]; [lia|reflexivity].
Qed.

Lemma push_bounded_last (cap : nat) (v : list float) (x : float) :
  (0 < cap)%nat ->
  (1 <= length (push_bounded cap v x))%nat /\ last (push_bounded cap v x) = Some x.
Proof.
  intros Hcap. unfold push_bounded. rewrite length_app. simpl.
  destruct (Nat.ltb_spec cap (length v + 1)) as [Hlt|Hle].
  - destruct v as [|y v]; simpl in *; [lia|].
    rewrite length_app, last_snoc. simpl. split; [lia|reflexivity].
  - rewrite length_app, last_snoc. simpl. split; [lia|reflexivity].
Qed.

(** After any sequence of insertions into an empty history, the history is
    the last [cap] inserted values, in insertion order. *)
Lemma push_bounded_run (cap : nat) (xs : list float) :
  fold_left (push_bounded cap) xs [] = drop (length xs - cap) xs.
Proof.
  induction xs as [|x xs IH] using rev_ind; [reflexivity|].
  rewrite fold_left_app. simpl. rewrite IH, length_app. simpl.
  unfold push_bounded.
  rewrite <- (drop_app_le xs [x] (length xs - cap)) by lia.
  rewrite length_drop, length_app. simpl.
  destruct (Nat.ltb_spec cap (length xs + 1 - (length xs - cap))) as [Hlt|Hle].
  - replace (tail (drop (length xs - cap) (xs ++ [x])))
      with (drop 1 (drop (length xs - cap) (xs ++ [x])))
      by (destruct (drop (length xs - cap) (xs ++ [x])); reflexivity).
    rewrite drop_drop. f_equal. lia.
  - f_equal. lia.
Qed.

Section RunInvariants.

Context `{Aubio}.

Variable P : Detector _ -> Prop.
Variable Q : FrameReport -> Prop.

Hypothesis store_sample_preserves : forall d x, P d -> P (store_sample d x).
Hypothesis process_frame_preserves :
  forall d, P d -> P (fst (process_frame d)) /\ Q (snd (process_frame d)).

Lemma accumulate_preserves (s : Detector _ * list FrameReport) (x : float) :
  P (fst s) -> Forall Q (snd s) ->
  P (fst (accumulate s x)) /\ Forall Q (snd (accumulate s x)).
Proof.
  intros HP HQ. unfold accumulate.
  destruct (buf_size_ _ <=? accumulated_samples_ _).
  - destruct (process_frame_preserves _ (store_sample_preserves _ x HP)) as [HP' HQ'].
    destruct (process_frame (store_sample (fst s) x)) as [d' r]. simpl in *.
    split; [exact HP'|]. apply Forall_app. split; [exact HQ|]. repeat constructor.
    exact HQ'.
  - simpl. split; [apply store_sample_preserves; exact HP|exact HQ].
Qed.

Lemma samples_preserve (l : list float) (s : Detector _ * list FrameReport) :
  P (fst s) -> Forall Q (snd s) ->
  P (fst (fold_left accumulate l s)) /\ Forall Q (snd (fold_left accumulate l s)).
Proof.
  revert s. induction l as [|x l IH]; intros s HP HQ; simpl.
  - split; assumption.
  - destruct (accumulate_preserves s x HP HQ) as [HP' HQ']. apply IH; assumption.
Qed.

Lemma process_audio_preserves (d : Detector _) (b : PwBuffer) :
  P d -> P (fst (process_audio d b)) /\ Forall Q (snd (process_audio d b)).
Proof.
  intros HP. unfold process_audio.
  destruct (should_quit_ d); [split; [exact HP|constructor]|].
  destruct b as [| |l]; try (split; [exact HP|constructor]).
  apply samples_preserve; [exact HP|constructor].
Qed.

Lemma process_stream_preserves (bs : list PwBuffer) (d : Detector _) :
  P d -> P (fst (process_stream d bs)) /\ Forall Q (snd (process_stream d bs)).
Proof.
  intros HP. unfold process_stream.
  assert (Hgen : forall s : Detector _ * list FrameReport,
             P (fst s) -> Forall Q (snd s) ->
             P (fst (fold_left
                       (fun s b => let '(d', rs) := process_audio (fst s) b in
                                   (d', snd s ++ rs)) bs s)) /\
             Forall Q (snd (fold_left
                       (fun s b => let '(d', rs) := process_audio (fst s) b in
                                   (d', snd s ++ rs)) bs s))).
  { induction bs as [|b bs IH]; intros s HPs HQs; simpl.
    - split; assumption.
    - apply IH.
      + destruct (process_audio_preserves (fst s) b HPs) as [HP' _].
        destruct (process_audio (fst s) b); exact HP'.
      + destruct (process_audio_preserves (fst s) b HPs) as [_ HQ'].
        destruct (process_audio (fst s) b). simpl in *.
        apply Forall_app. split; assumption. }
  apply Hgen; [exact HP|constructor].
Qed.

End RunInvariants.

(** ** The variance query *)

Lemma fold_left_add_map (f : float -> float) (l : list float) (acc : float) :
  fold_left F32.add (map f l) acc = fold_left (fun acc x => (acc + f x)%f32) l acc.
Proof.
  revert acc. induction l as [|x l IH]; intros acc; simpl; [reflexivity|apply IH].
Qed.

(** On a non-empty window the two loops of [get_bpm_variance] compute the
    population standard deviation. *)
Lemma get_bpm_variance_of_nonempty (w : list float) :
  w <> [] -> get_bpm_variance_of w = population_std_dev w.
Proof.
  intros Hw. destruct w as [|x w]; [congruence|].
  unfold get_bpm_variance_of, population_std_dev, mean_of, sum_floats.
  rewrite fold_left_add_map, length_map. reflexivity.
Qed.

(** The second window of the specification: the mean of
    [{95, 100, 105, 100, 100}] is 100, the squared deviations sum to 50, and
    the query returns the binary32 square root of 10. *)
Example variance_of_spread_window :
  get_bpm_variance_of
    [F32.of_Z 95; F32.of_Z 100; F32.of_Z 105; F32.of_Z 100; F32.of_Z 100]
  = F32.sqrt (F32.of_Z 10).
Proof. vm_compute. reflexivity. Qed.

Section RunClaims.

Context `{Aubio}.

Lemma histories_after_frame (d : Detector _) :
  (recent_bpms_ (fst (process_frame d)) = recent_bpms_ d /\
   bpm_stability_ (fst (process_frame d)) = bpm_stability_ d) \/
  (recent_bpms_ (fst (process_frame d))
   = push_bounded BPM_HISTORY_SIZE (recent_bpms_ d) (smoothed_bpm_ (fst (process_frame d))) /\
   bpm_stability_ (fst (process_frame d))
   = push_bounded STABILITY_WINDOW (bpm_stability_ d)
       (smoothed_bpm_ (fst (process_frame d)))).
Proof.
  destruct (is_silent d) eqn:Hs.
  - rewrite (process_frame_silent d Hs). left. split; reflexivity.
  - destruct (process_frame_analysed d Hs)
      as (a & _ & _ & _ & _ & _ & _ & Hsm & _ & _ & _ & Hr & Hst & _).
    rewrite Hr, Hst, Hsm. destruct (an_is_beat a); [right|left]; split; reflexivity.
Qed.

Lemma histories_bounded_after (cfg : Config) (log_open : bool) (e : engine)
    (bs : list PwBuffer) :
  (length (recent_bpms_ (detector_after cfg log_open e bs)) <= BPM_HISTORY_SIZE)%nat /\
  (length (bpm_stability_ (detector_after cfg log_open e bs)) <= STABILITY_WINDOW)%nat.
Proof.
  unfold detector_after.
  refine (proj1 (process_stream_preserves
            (fun d => (length (recent_bpms_ d) <= BPM_HISTORY_SIZE)%nat /\
                      (length (bpm_stability_ d) <= STABILITY_WINDOW)%nat)
            (fun _ => True) _ _ bs _ _)).
  - intros d x Hd. exact Hd.
  - intros d [Hr Hs]. split; [|exact I].
    destruct (histories_after_frame d) as [[-> ->]|[-> ->]].
    + split; assumption.
    + split; apply push_bounded_length; assumption.
  - simpl. unfold BPM_HISTORY_SIZE, STABILITY_WINDOW. lia.
Qed.

(** C5.  After any run of the callback, hence after any number of
    insertions, the BPM history holds at most 20 values and the stability
    window at most 5.  A frame either leaves both alone or makes one
    insertion into each; an insertion into a full history drops exactly the
    oldest value and appends the new one, an insertion below capacity drops
    nothing; so after the insertions [xs] a history is the last 20 (or 5)
    values of [xs] in order. *)
Theorem bounded_fifo_histories (cfg : Config) (log_open : bool) (e : engine)
    (bs : list PwBuffer) (x : float) (xs : list float) :
  (length (recent_bpms_ (detector_after cfg log_open e bs)) <= 20)%nat /\
  (length (bpm_stability_ (detector_after cfg log_open e bs)) <= 5)%nat /\
  push_bounded BPM_HISTORY_SIZE (recent_bpms_ (detector_after cfg log_open e bs)) x
  = (if (length (recent_bpms_ (detector_after cfg log_open e bs)) =? 20)%nat
     then tail (recent_bpms_ (detector_after cfg log_open e bs))
     else recent_bpms_ (detector_after cfg log_open e bs)) ++ [x] /\
  push_bounded STABILITY_WINDOW (bpm_stability_ (detector_after cfg log_open e bs)) x
  = (if (length (bpm_stability_ (detector_after cfg log_open e bs)) =? 5)%nat
     then tail (bpm_stability_ (detector_after cfg log_open e bs))
     else bpm_stability_ (detector_after cfg log_open e bs)) ++ [x] /\
  ((recent_bpms_ (fst (process_frame (detector_after cfg log_open e bs)))
    = recent_bpms_ (detector_after cfg log_open e bs) /\
    bpm_stability_ (fst (process_frame (detector_after cfg log_open e bs)))
    = bpm_stability_ (detector_after cfg log_open e bs)) \/
   (recent_bpms_ (fst (process_frame (detector_after cfg log_open e bs)))
    = push_bounded BPM_HISTORY_SIZE (recent_bpms_ (detector_after cfg log_open e bs))
        (smoothed_bpm_ (fst (process_frame (detector_after cfg log_open e bs)))) /\
    bpm_stability_ (fst (process_frame (detector_after cfg log_open e bs)))
    = push_bounded STABILITY_WINDOW (bpm_stability_ (detector_after cfg log_open e bs))
        (smoothed_bpm_ (fst (process_frame (detector_after cfg log_open e bs)))))) /\
  fold_left (push_bounded BPM_HISTORY_SIZE) xs [] = drop (length xs - 20) xs /\
  fold_left (push_bounded STABILITY_WINDOW) xs [] = drop (length xs - 5) xs.
Proof.
  destruct (histories_bounded_after cfg log_open e bs) as [Hr Hs].
  split; [exact Hr|]. split; [exact Hs|].
  split; [apply (push_bounded_fifo BPM_HISTORY_SIZE); [unfold BPM_HISTORY_SIZE; lia|exact Hr]|].
  split; [apply (push_bounded_fifo STABILITY_WINDOW); [unfold STABILITY_WINDOW; lia|exact Hs]|].
  split; [apply histories_after_frame|].
  split; apply push_bounded_run.
Qed.

End RunClaims.

(** The end-to-end scenario of the specification on four frames, quiet and
    loud in turn, the engine reporting 128 BPM with confidence 0.8 and an
    onset on every frame it sees: no beat on the quiet frames, one beat per
    loud frame, all four frames counted, two of them analysed, and a
    smoothed BPM that moves from 0 to 38.4 and then to 65.28. *)
Example alternating_quiet_and_loud :
  map (fun r => match fr_analysis r with Some a => Some (an_is_beat a) | None => None end)
      (reports_after cfg64 true [onset_128; onset_128]
         [Samples quiet64; Samples loud64; Samples quiet64; Samples loud64])
  = [None; Some true; None; Some true] /\
  frame_count_ (detector_after cfg64 true [onset_128; onset_128]
                  [Samples quiet64; Samples loud64; Samples quiet64; Samples loud64]) = 4 /\
  total_onsets_ (detector_after cfg64 true [onset_128; onset_128]
                   [Samples quiet64; Samples loud64; Samples quiet64; Samples loud64]) = 2 /\
  total_beats_ (detector_after cfg64 true [onset_128; onset_128]
                  [Samples quiet64; Samples loud64; Samples quiet64; Samples loud64]) = 2 /\
  bpm_stability_ (detector_after cfg64 true [onset_128; onset_128]
                    [Samples quiet64; Samples loud64; Samples quiet64; Samples loud64])
  = [F32.lit 384 10; F32.lit 6528 100].
Proof. vm_compute. repeat split; reflexivity. Qed.

(** C10, as stated, fails in its last clause: the number 999 does appear
    as the variance of a beat.  The engine first reports 6760 BPM, which
    bootstraps the smoothed BPM, then 100 BPM, which moves it to 4762; the
    window [[6760; 4762]] has two elements and its standard deviation is
    exactly 999, the value the query returns for an empty window. *)
Lemma variance_999_over_two_beats :
  bpm_stability_ (detector_after cfg64 true script_6760_100
                    [Samples loud64; Samples loud64])
  = [F32.of_Z 6760; F32.of_Z 4762] /\
  map log_variance
      (log_file_ (detector_after cfg64 true script_6760_100
                    [Samples loud64; Samples loud64]))
  = [F32.zero; F32.of_Z 999] /\
  map (fun r => match fr_analysis r with Some a => an_beat a | None => None end)
      (reports_after cfg64 true script_6760_100 [Samples loud64; Samples loud64])
  = [Some (F32.zero, true); Some (F32.of_Z 999, false)] /\
  get_bpm_variance_of [] = F32.of_Z 999.
Proof. vm_compute. repeat split; reflexivity. Qed.

(** ** Frame accumulation *)

Lemma concat_frames_length (n : nat) (frames : list (list float)) :
  Forall (fun f => length f = n) frames ->
  length (concat frames) = (length frames * n)%nat.
Proof.
  induction 1 as [|f frames Hf _ IH]; simpl; [reflexivity|].
  rewrite length_app, IH, Hf. reflexivity.
Qed.

(** Frames of equal length are the consecutive slices of their
    concatenation. *)
Lemma frames_are_slices (n : nat) (frames : list (list float)) :
  Forall (fun f => length f = n) frames ->
  frames = map (slice n (concat frames)) (seq 0 (length frames)).
Proof.
  induction 1 as [|f frames Hf _ IH]; simpl; [reflexivity|].
  f_equal.
  - unfold slice. simpl. rewrite drop_0. symmetry. apply take_app_length'.
    symmetry. exact Hf.
  - rewrite <- seq_shift, map_map. rewrite IH at 1.
    apply map_ext. intros i. unfold slice. f_equal.
    replace (S i * n)%nat with (length f + i * n)%nat by (rewrite Hf; lia).
    rewrite <- drop_drop. rewrite drop_app_length. reflexivity.
Qed.

Section Accumulation.

Context `{Aubio}.

Lemma new_detector_accumulator_ok (cfg : Config) (log_open : bool) (e : engine) :
  0 < buf_size_ cfg < 2 ^ 32 -> accumulator_ok (new_detector cfg log_open e).
Proof.
  intros Hn. unfold accumulator_ok. simpl. rewrite length_replicate. lia.
Qed.

Lemma store_sample_pending (d : Detector _) (x : float) :
  accumulator_ok d ->
  accumulated_samples_ (store_sample d x) = accumulated_samples_ d + 1 /\
  pending (store_sample d x) = pending d ++ [x].
Proof.
  intros (Hn & Hlen & Hk). unfold pending. simpl.
  assert (Hw : wrap32 (accumulated_samples_ d + 1) = accumulated_samples_ d + 1).
  { unfold wrap32. apply Z.mod_small. lia. }
  rewrite Hw. split; [reflexivity|].
  replace (Z.to_nat (accumulated_samples_ d + 1))
    with (S (Z.to_nat (accumulated_samples_ d))) by lia.
  rewrite (take_S_r _ _ x) by (apply list_lookup_insert_eq; lia).
  rewrite take_insert_ge by lia. reflexivity.
Qed.

(** One sample: either it is held, or it completes a frame made of the
    held samples followed by it. *)
Lemma accumulate_frames (s : Detector _ * list FrameReport) (x : float) :
  accumulator_ok (fst s) ->
  accumulator_ok (fst (accumulate s x)) /\
  config (fst (accumulate s x)) = config (fst s) /\
  should_quit_ (fst (accumulate s x)) = should_quit_ (fst s) /\
  exists new : list (list float),
    map fr_frame (snd (accumulate s x)) = map fr_frame (snd s) ++ new /\
    Forall (fun f => length f = Z.to_nat (buf_size_ (config (fst s)))) new /\
    concat new ++ pending (fst (accumulate s x)) = pending (fst s) ++ [x].
Proof.
  intros Hok. destruct (store_sample_pending (fst s) x Hok) as [Hk' Hp'].
  destruct Hok as (Hn & Hlen & Hk). unfold accumulate.
  change (config (store_sample (fst s) x)) with (config (fst s)).
  destruct (Z.leb_spec (buf_size_ (config (fst s)))
                       (accumulated_samples_ (store_sample (fst s) x))) as [Hfull|Hpart].
  - pose proof (process_frame_fixed (store_sample (fst s) x)) as (Hc & Hq & _ & Ha & Hz).
    pose proof (process_frame_report (store_sample (fst s) x)) as (Hf & _).
    destruct (process_frame (store_sample (fst s) x)) as [d' r]. simpl in *.
    assert (Hframe : frame_of (store_sample (fst s) x) = pending (fst s) ++ [x]).
    { rewrite <- Hp'. unfold frame_of, pending. simpl. f_equal. lia. }
    split.
    { unfold accumulator_ok. simpl. rewrite Hc, Ha, Hz. simpl.
      rewrite length_insert. lia. }
    split; [exact Hc|]. split; [exact Hq|].
    exists [pending (fst s) ++ [x]].
    split; [rewrite map_app; simpl; rewrite Hf, Hframe; reflexivity|].
    split.
    + repeat constructor. rewrite <- Hframe. unfold frame_of. simpl.
      rewrite length_take, length_insert. lia.
    + assert (Hnone : pending d' = []) by (unfold pending; rewrite Hz; reflexivity).
      simpl. rewrite Hnone, !app_nil_r. reflexivity.
  - simpl. split.
    { unfold accumulator_ok. simpl. rewrite length_insert.
      simpl in Hk', Hpart. lia. }
    split; [reflexivity|]. split; [reflexivity|].
    exists []. rewrite app_nil_r. split; [reflexivity|]. split; [constructor|].
    simpl. exact Hp'.
Qed.

Lemma samples_frames (l : list float) (s : Detector _ * list FrameReport) :
  accumulator_ok (fst s) ->
  accumulator_ok (fst (fold_left accumulate l s)) /\
  config (fst (fold_left accumulate l s)) = config (fst s) /\
  should_quit_ (fst (fold_left accumulate l s)) = should_quit_ (fst s) /\
  exists new : list (list float),
    map fr_frame (snd (fold_left accumulate l s)) = map fr_frame (snd s) ++ new /\
    Forall (fun f => length f = Z.to_nat (buf_size_ (config (fst s)))) new /\
    concat new ++ pending (fst (fold_left accumulate l s)) = pending (fst s) ++ l.
Proof.
  revert s. induction l as [|x l IH]; intros s Hok; simpl.
  - split; [exact Hok|]. split; [reflexivity|]. split; [reflexivity|].
    exists []. rewrite !app_nil_r. repeat split. constructor.
  - destruct (accumulate_frames s x Hok) as (Hok1 & Hc1 & Hq1 & new1 & Hm1 & Hf1 & Hp1).
    destruct (IH (accumulate s x) Hok1) as (Hok2 & Hc2 & Hq2 & new2 & Hm2 & Hf2 & Hp2).
    split; [exact Hok2|]. split; [congruence|]. split; [congruence|].
    exists (new1 ++ new2).
    split; [rewrite Hm2, Hm1, app_assoc; reflexivity|].
    split; [apply Forall_app; split; [exact Hf1|rewrite <- Hc1; exact Hf2]|].
    rewrite concat_app, <- app_assoc, Hp2, app_assoc, Hp1, <- app_assoc. reflexivity.
Qed.

Lemma process_stream_frames (bs : list PwBuffer) (d : Detector _) :
  accumulator_ok d -> should_quit_ d = false ->
  accumulator_ok (fst (process_stream d bs)) /\
  config (fst (process_stream d bs)) = config d /\
  Forall (fun f => length f = Z.to_nat (buf_size_ (config d)))
         (map fr_frame (snd (process_stream d bs))) /\
  concat (map fr_frame (snd (process_stream d bs))) ++ pending (fst (process_stream d bs))
  = pending d ++ samples_of bs.
Proof.
  intros Hok Hq. unfold process_stream.
  assert (Hgen : forall s : Detector _ * list FrameReport,
    accumulator_ok (fst s) -> should_quit_ (fst s) = false ->
    let s' := fold_left
                (fun s b => let '(d', rs) := process_audio (fst s) b in (d', snd s ++ rs))
                bs s in
    accumulator_ok (fst s') /\ config (fst s') = config (fst s) /\
    exists new : list (list float),
      map fr_frame (snd s') = map fr_frame (snd s) ++ new /\
      Forall (fun f => length f = Z.to_nat (buf_size_ (config (fst s)))) new /\
      concat new ++ pending (fst s') = pending (fst s) ++ samples_of bs).
  { induction bs as [|b bs IH]; intros s Hs Hqs; simpl.
    - split; [exact Hs|]. split; [reflexivity|]. exists [].
      unfold samples_of. simpl. rewrite !app_nil_r. repeat split. constructor.
    - assert (Hstep :
        accumulator_ok (fst (process_audio (fst s) b)) /\
        config (fst (process_audio (fst s) b)) = config (fst s) /\
        should_quit_ (fst (process_audio (fst s) b)) = false /\
        exists new : list (list float),
          map fr_frame (snd (process_audio (fst s) b)) = new /\
          Forall (fun f => length f = Z.to_nat (buf_size_ (config (fst s)))) new /\
          concat new ++ pending (fst (process_audio (fst s) b))
          = pending (fst s) ++ match b with Samples l => l | _ => [] end).
      { unfold process_audio. rewrite Hqs.
        destruct b as [| |l];
          try (split; [exact Hs|]; split; [reflexivity|]; split; [exact Hqs|];
               exists []; rewrite app_nil_r; repeat split; constructor).
        destruct (samples_frames l (fst s, []) Hs) as (H1 & H2 & H3 & new & H4 & H5 & H6).
        split; [exact H1|]. split; [exact H2|]. split; [rewrite H3; exact Hqs|].
        exists new. repeat split; assumption. }
      destruct Hstep as (H1 & H2 & H3 & new1 & H4 & H5 & H6).
      destruct (process_audio (fst s) b) as [d1 rs1]. simpl in *.
      destruct (IH (d1, snd s ++ rs1) H1 H3) as (G1 & G2 & new2 & G3 & G4 & G5).
      simpl in *. split; [exact G1|]. split; [congruence|].
      exists (new1 ++ new2).
      split; [rewrite G3, map_app, H4, app_assoc; reflexivity|].
      split; [apply Forall_app; split; [exact H5|rewrite <- H2; exact G4]|].
      unfold samples_of. simpl. fold (samples_of bs).
      rewrite concat_app, <- app_assoc, G5, app_assoc, H6, <- app_assoc. reflexivity. }
  destruct (Hgen (d, []) Hok Hq) as (G1 & G2 & new & G3 & G4 & G5). simpl in *.
  split; [exact G1|]. split; [exact G2|]. rewrite G3. split; assumption.
Qed.

End Accumulation.

Section AccumulationClaim.

Context `{Aubio}.

Lemma pending_length (d : Detector _) :
  accumulator_ok d -> Z.of_nat (length (pending d)) = accumulated_samples_ d.
Proof.
  intros (Hn & Hlen & Hk). unfold pending. rewrite length_take. lia.
Qed.

Lemma run_frames (cfg : Config) (log_open : bool) (e : engine) (bs : list PwBuffer) :
  0 < buf_size_ cfg < 2 ^ 32 ->
  Forall (fun f => length f = Z.to_nat (buf_size_ cfg)) (frames_after cfg log_open e bs) /\
  concat (frames_after cfg log_open e bs) ++ pending (detector_after cfg log_open e bs)
  = samples_of bs /\
  0 <= Z.of_nat (length (pending (detector_after cfg log_open e bs))) < buf_size_ cfg.
Proof.
  intros Hn. unfold frames_after, reports_after, detector_after.
  destruct (process_stream_frames bs (new_detector cfg log_open e)
              (new_detector_accumulator_ok cfg log_open e Hn) eq_refl)
    as (Hok & Hc & Hf & Hp).
  split; [exact Hf|]. split; [exact Hp|].
  rewrite (pending_length _ Hok). destruct Hok as (_ & _ & Hk).
  rewrite Hc in Hk. exact Hk.
Qed.

(** C4.  Let the chunks delivered to the callback be [bs1] followed by
    [bs2], with a total number of samples that is a multiple of the frame
    size.  After the chunks [bs1], the frames produced so far followed by
    the samples held in the accumulator are exactly the samples received so
    far, and fewer than a frame's worth are held.  After all chunks, the
    number of frames is the number of samples divided by the frame size,
    nothing is held, and the frames are the consecutive runs of [buf_size_]
    samples of the input, in order: nothing is dropped, duplicated or
    reordered. *)
Theorem frames_partition_input (cfg : Config) (log_open : bool) (e : engine)
    (bs1 bs2 : list PwBuffer) :
  0 < buf_size_ cfg < 2 ^ 32 ->
  Z.of_nat (length (samples_of (bs1 ++ bs2))) mod buf_size_ cfg = 0 ->
  concat (frames_after cfg log_open e bs1) ++ pending (detector_after cfg log_open e bs1)
  = samples_of bs1 /\
  Z.of_nat (length (pending (detector_after cfg log_open e bs1))) < buf_size_ cfg /\
  Z.of_nat (length (frames_after cfg log_open e (bs1 ++ bs2)))
  = Z.of_nat (length (samples_of (bs1 ++ bs2))) / buf_size_ cfg /\
  Forall (fun f => length f = Z.to_nat (buf_size_ cfg))
         (frames_after cfg log_open e (bs1 ++ bs2)) /\
  concat (frames_after cfg log_open e (bs1 ++ bs2)) = samples_of (bs1 ++ bs2) /\
  frames_after cfg log_open e (bs1 ++ bs2)
  = map (slice (Z.to_nat (buf_size_ cfg)) (samples_of (bs1 ++ bs2)))
        (seq 0 (length (frames_after cfg log_open e (bs1 ++ bs2)))) /\
  pending (detector_after cfg log_open e (bs1 ++ bs2)) = [].
Proof.
  intros Hn Hmod.
  destruct (run_frames cfg log_open e bs1 Hn) as (_ & Hp1 & Hl1).
  destruct (run_frames cfg log_open e (bs1 ++ bs2) Hn) as (Hf & Hp & Hl).
  split; [exact Hp1|]. split; [lia|].
  pose proof (concat_frames_length _ _ Hf) as Hcl.
  assert (Hlen : Z.of_nat (length (samples_of (bs1 ++ bs2)))
                 = Z.of_nat (length (pending (detector_after cfg log_open e (bs1 ++ bs2))))
                   + Z.of_nat (length (frames_after cfg log_open e (bs1 ++ bs2)))
                     * buf_size_ cfg).
  { rewrite <- Hp at 1. rewrite length_app, Hcl. lia. }
  assert (Hzero : Z.of_nat (length (pending (detector_after cfg log_open e (bs1 ++ bs2)))) = 0).
  { rewrite Hlen, Z.mod_add, Z.mod_small in Hmod by lia. exact Hmod. }
  assert (Hnil : pending (detector_after cfg log_open e (bs1 ++ bs2)) = []).
  { apply length_zero_iff_nil. lia. }
  rewrite Hnil, app_nil_r in Hp.
  split; [rewrite Hlen, Hzero, Z.add_0_l, Z.div_mul by lia; reflexivity|].
  split; [exact Hf|]. split; [exact Hp|].
  split; [rewrite <- Hp; apply frames_are_slices; exact Hf|exact Hnil].
Qed.

End AccumulationClaim.

Lemma frames_partition_input_witness :
  0 < buf_size_ cfg64 < 2 ^ 32 /\
  Z.of_nat (length (samples_of ([Samples (replicate 100 (F32.lit 1 2)); NoBuffer]
                                ++ [Samples (replicate 28 (F32.lit 1 4))])))
    mod buf_size_ cfg64 = 0 /\
  Z.of_nat (length (frames_after cfg64 true [onset_128]
                      ([Samples (replicate 100 (F32.lit 1 2)); NoBuffer]
                       ++ [Samples (replicate 28 (F32.lit 1 4))])))
  = Z.of_nat (length (samples_of ([Samples (replicate 100 (F32.lit 1 2)); NoBuffer]
                                  ++ [Samples (replicate 28 (F32.lit 1 4))])))
    / buf_size_ cfg64.
Proof.
  assert (Hn : 0 < buf_size_ cfg64 < 2 ^ 32) by (simpl; lia).
  assert (Hm : Z.of_nat (length (samples_of
                 ([Samples (replicate 100 (F32.lit 1 2)); NoBuffer]
                  ++ [Samples (replicate 28 (F32.lit 1 4))])))
               mod buf_size_ cfg64 = 0) by (vm_compute; reflexivity).
  split; [exact Hn|]. split; [exact Hm|].
  exact (proj1 (proj2 (proj2 (frames_partition_input cfg64 true [onset_128]
           [Samples (replicate 100 (F32.lit 1 2)); NoBuffer]
           [Samples (replicate 28 (F32.lit 1 4))] Hn Hm)))).
Defined.

(** ** The argument loop of [main] *)

Lemma positional_not_flag (arg : string) :
  is_positional arg = true ->
  is_help arg = false /\
  (arg =? "--no-log")%string = false /\ (arg =? "--no-stats")%string = false /\
  (arg =? "--pitch")%string = false /\ (arg =? "--no-visual")%string = false.
Proof.
  destruct arg as [|c s]; [repeat split; reflexivity|].
  unfold is_positional, is_help. intros Hc. apply negb_true_iff in Hc.
  simpl. rewrite Hc. repeat split; reflexivity.
Qed.

(** The loop walks through accepted arguments without returning. *)
Lemma parse_args_accepted (pre : list string) :
  forallb accepted pre = true ->
  forall cfg, exists cfg', forall rest,
    parse_args (pre ++ rest) cfg = parse_args rest cfg'.
Proof.
  induction pre as [|a pre IH]; intros Hall cfg.
  - exists cfg. reflexivity.
  - simpl in Hall. apply andb_true_iff in Hall as [Ha Hpre].
    specialize (IH Hpre). unfold accepted in Ha.
    apply andb_true_iff in Ha as [Hh Ha]. apply negb_true_iff in Hh.
    simpl. rewrite Hh.
    destruct (a =? "--no-log")%string eqn:E1; [apply IH|].
    destruct (a =? "--no-stats")%string eqn:E2; [apply IH|].
    destruct (a =? "--pitch")%string eqn:E3; [apply IH|].
    destruct (a =? "--no-visual")%string eqn:E4; [apply IH|].
    unfold is_switch in Ha. rewrite E1, E2, E3, E4 in Ha. simpl in Ha.
    apply andb_true_iff in Ha as [Hp Hv]. rewrite Hp.
    destruct (stoul a) as [v| |]; try discriminate.
    apply andb_true_iff in Hv as [Hlo Hhi].
    apply Z.leb_le in Hlo. apply Z.leb_le in Hhi.
    destruct (Z.ltb_spec (wrap32 v) 64); [lia|].
    destruct (Z.ltb_spec 8192 (wrap32 v)); [lia|]. simpl. apply IH.
Qed.

(** C9, as the code has it.  The arguments are examined from left to
    right, and the first one that is not accepted decides: [--help] or [-h]
    prints the usage text and returns 0; an argument that starts with [-]
    and is no known flag prints an error and the usage text and returns 1; a
    positional argument whose value (below [2^32]) is outside [64, 8192]
    prints a range error, without the usage text, and returns 1; a
    positional argument that is no number prints an error, without the usage
    text, and returns 1. *)
Theorem main_exit_codes (argv0 : string) (pre : list string) (arg : string)
    (post : list string) (v : Z) :
  forallb accepted pre = true ->
  (is_help arg = true ->
   main (argv0 :: pre ++ arg :: post) = (Exit 0, [PrintUsage])) /\
  (is_help arg = false -> is_switch arg = false -> is_positional arg = false ->
   main (argv0 :: pre ++ arg :: post) = (Exit 1, [ErrUnknownOption arg; PrintUsage])) /\
  (is_positional arg = true -> stoul arg = Parsed v -> 0 <= v < 2 ^ 32 ->
   v < 64 \/ 8192 < v ->
   main (argv0 :: pre ++ arg :: post) = (Exit 1, [ErrBufferRange])) /\
  (is_positional arg = true -> (forall w, stoul arg <> Parsed w) ->
   main (argv0 :: pre ++ arg :: post) = (Exit 1, [ErrInvalidBufferSize arg])).
Proof.
  intros Hpre. unfold main. simpl.
  destruct (parse_args_accepted pre Hpre (mkConfig 128 true true false true))
    as [cfg' Hwalk].
  rewrite Hwalk. simpl. repeat split.
  - intros ->. reflexivity.
  - intros Hh Hs Hp. rewrite Hh, Hp. unfold is_switch in Hs.
    apply orb_false_iff in Hs as [Hs E4]. apply orb_false_iff in Hs as [Hs E3].
    apply orb_false_iff in Hs as [E1 E2]. rewrite E1, E2, E3, E4. reflexivity.
  - intros Hp Hv Hrange Hout.
    destruct (positional_not_flag arg Hp) as (Hh & E1 & E2 & E3 & E4).
    rewrite Hh, E1, E2, E3, E4, Hp, Hv.
    assert (Hw : wrap32 v = v) by (unfold wrap32; apply Z.mod_small; lia).
    rewrite Hw.
    destruct (Z.ltb_spec v 64); [reflexivity|].
    destruct (Z.ltb_spec 8192 v); [reflexivity|lia].
  - intros Hp Hnone.
    destruct (positional_not_flag arg Hp) as (Hh & E1 & E2 & E3 & E4).
    rewrite Hh, E1, E2, E3, E4, Hp.
    destruct (stoul arg) as [w| |]; [destruct (Hnone w); reflexivity| |]; reflexivity.
Qed.

Lemma main_exit_codes_witness :
  forallb accepted ["--pitch"; "256"]%string = true /\
  main ("beat_detector" :: ["--pitch"; "256"] ++ "32" :: ["--help"])%string
  = (Exit 1, [ErrBufferRange]).
Proof.
  assert (Hpre : forallb accepted ["--pitch"; "256"]%string = true)
    by (vm_compute; reflexivity).
  split; [exact Hpre|].
  refine (proj1 (proj2 (proj2 (main_exit_codes "beat_detector"
            ["--pitch"; "256"]%string "32" ["--help"]%string 32 Hpre))) _ _ _ _).
  - reflexivity.
  - reflexivity.
  - lia.
  - left. lia.
Defined.

(** C9, as stated, fails: a buffer size of 32 is outside [64, 8192] and
    [main] returns 1, but the usage text is not printed. *)
Lemma small_buffer_size_prints_no_usage :
  main ["beat_detector"; "32"]%string = (Exit 1, [ErrBufferRange]) /\
  ~ In PrintUsage (snd (main ["beat_detector"; "32"]%string)).
Proof.
  split; [reflexivity|]. simpl. intros [Hu|[]]. discriminate Hu.
Qed.

(** ** Monotonicity of binary32 rounding

    A positive value [p * 2^e] is rounded by [binary_round_aux] to the
    value whose rank is [round_ord p e]; ranks grow with values, so products
    and sums with a positive constant are monotone. *)

Lemma digits2_pos_bounds (m : positive) :
  2 ^ (Zpos (digits2_pos m) - 1) <= Zpos m < 2 ^ Zpos (digits2_pos m).
Proof.
  induction m as [m IH|m IH|]; simpl digits2_pos.
  - rewrite Pos2Z.inj_succ. change (Zpos m~1) with (2 * Zpos m + 1).
    replace (Z.succ (Zpos (digits2_pos m)) - 1) with (Z.succ (Zpos (digits2_pos m) - 1)) by lia.
    rewrite !Z.pow_succ_r by lia.
    revert IH. generalize (2 ^ (Zpos (digits2_pos m) - 1)) (2 ^ Zpos (digits2_pos m)).
    intros a b IH. lia.
  - rewrite Pos2Z.inj_succ. change (Zpos m~0) with (2 * Zpos m).
    replace (Z.succ (Zpos (digits2_pos m)) - 1) with (Z.succ (Zpos (digits2_pos m) - 1)) by lia.
    rewrite !Z.pow_succ_r by lia.
    revert IH. generalize (2 ^ (Zpos (digits2_pos m) - 1)) (2 ^ Zpos (digits2_pos m)).
    intros a b IH. lia.
  - simpl. lia.
Qed.

Lemma iter_pos_nat {A : Type} (f : A -> A) (p : positive) (x : A) :
  SpecFloat.iter_pos f p x = Nat.iter (Pos.to_nat p) f x.
Proof.
  revert x. induction p as [p IH|p IH|]; intros x.
  - change (SpecFloat.iter_pos f p~1 x) with (SpecFloat.iter_pos f p (SpecFloat.iter_pos f p (f x))).
    rewrite !IH.
    replace (Pos.to_nat p~1) with (Pos.to_nat p + Pos.to_nat p + 1)%nat by lia.
    rewrite !Nat.iter_add. reflexivity.
  - change (SpecFloat.iter_pos f p~0 x) with (SpecFloat.iter_pos f p (SpecFloat.iter_pos f p x)).
    rewrite !IH.
    replace (Pos.to_nat p~0) with (Pos.to_nat p + Pos.to_nat p)%nat by lia.
    rewrite Nat.iter_add. reflexivity.
  - reflexivity.
Qed.

Lemma shr_1_nonneg (m : Z) (r s : bool) :
  0 <= m ->
  shr_1 (Build_shr_record m r s) = Build_shr_record (m / 2) (Z.odd m) (r || s).
Proof.
  intros Hm. rewrite <- Z.div2_div.
  destruct m as [|[p|p|]|p]; simpl; try reflexivity; lia.
Qed.

(** After [k + 1] shifts of [m]: the quotient by [2^(k+1)], whether the
    remainder reaches one half, and whether it differs from zero or one half. *)
Lemma shr_iter (m : Z) (k : nat) :
  0 <= m ->
  Nat.iter (S k) shr_1 (Build_shr_record m false false)
  = Build_shr_record
      (m / 2 ^ Z.of_nat (S k))
      (2 ^ Z.of_nat k <=? m mod 2 ^ Z.of_nat (S k))
      (negb (m mod 2 ^ Z.of_nat (S k)
             =? (if 2 ^ Z.of_nat k <=? m mod 2 ^ Z.of_nat (S k)
                 then 2 ^ Z.of_nat k else 0))).
Proof.
  intros Hm. induction k as [|k IH].
  - change (Nat.iter 1 shr_1 (Build_shr_record m false false))
      with (shr_1 (Build_shr_record m false false)).
    rewrite shr_1_nonneg by exact Hm.
    change (2 ^ Z.of_nat 1) with 2. change (2 ^ Z.of_nat 0) with 1.
    rewrite Zodd_mod. pose proof (Z.mod_pos_bound m 2 ltac:(lia)) as Hb.
    f_equal.
    + destruct (Z.eqb_spec (m mod 2) 1), (Z.leb_spec 1 (m mod 2)); try reflexivity; lia.
    + destruct (Z.leb_spec 1 (m mod 2)); simpl.
      * destruct (Z.eqb_spec (m mod 2) 1); [reflexivity|lia].
      * destruct (Z.eqb_spec (m mod 2) 0); [reflexivity|lia].
  - change (Nat.iter (S (S k)) shr_1 (Build_shr_record m false false))
      with (shr_1 (Nat.iter (S k) shr_1 (Build_shr_record m false false))).
    rewrite IH. clear IH.
    assert (Hp : 0 < 2 ^ Z.of_nat k) by (apply Z.pow_pos_nonneg; lia).
    assert (Hs : 2 ^ Z.of_nat (S k) = 2 * 2 ^ Z.of_nat k).
    { rewrite Nat2Z.inj_succ, Z.pow_succ_r by lia. reflexivity. }
    assert (Hss : 2 ^ Z.of_nat (S (S k)) = 2 ^ Z.of_nat (S k) * 2).
    { rewrite (Nat2Z.inj_succ (S k)), Z.pow_succ_r by lia. lia. }
    rewrite shr_1_nonneg by (apply Z.div_pos; lia).
    pose proof (Z.mod_pos_bound m (2 ^ Z.of_nat (S k)) ltac:(lia)) as Hb.
    assert (Hrem : m mod 2 ^ Z.of_nat (S (S k))
                   = m mod 2 ^ Z.of_nat (S k)
                     + 2 ^ Z.of_nat (S k) * ((m / 2 ^ Z.of_nat (S k)) mod 2)).
    { rewrite Hss. apply Z.rem_mul_r; lia. }
    pose proof (Z.mod_pos_bound (m / 2 ^ Z.of_nat (S k)) 2 ltac:(lia)) as Hb2.
    rewrite Zodd_mod, Hrem.
    replace (m / 2 ^ Z.of_nat (S k) / 2) with (m / 2 ^ Z.of_nat (S (S k)))
      by (rewrite Hss, Z.div_div by lia; reflexivity).
    set (q := m / 2 ^ Z.of_nat (S (S k))).
    set (B := (m / 2 ^ Z.of_nat (S k)) mod 2) in *.
    set (A := m mod 2 ^ Z.of_nat (S k)) in *.
    set (Q := 2 ^ Z.of_nat (S k)) in *.
    set (P := 2 ^ Z.of_nat k) in *.
    clearbody q B A Q P. clear Hss Hrem.
    assert (HB' : B = 0 \/ B = 1) by lia.
    destruct HB' as [HB' | HB']; rewrite HB'; rewrite ?Z.mul_0_r, ?Z.mul_1_r, ?Z.add_0_r.
    + change (0 =? 1) with false.
      destruct (Z.leb_spec Q A); [lia|].
      destruct (Z.leb_spec P A).
      * replace (A =? 0) with false by (symmetry; apply Z.eqb_neq; lia).
        reflexivity.
      * reflexivity.
    + change (1 =? 1) with true.
      destruct (Z.leb_spec Q (A + Q)); [|lia].
      destruct (Z.leb_spec P A).
      * replace (A + Q =? Q) with false by (symmetry; apply Z.eqb_neq; lia).
        reflexivity.
      * cbn [orb]. f_equal.
        destruct (Z.eqb_spec A 0), (Z.eqb_spec (A + Q) Q); try reflexivity; lia.
Qed.

Lemma fexp32 (x : Z) : fexp 24 128 x = Z.max (x - 24) (-149).
Proof. reflexivity. Qed.

Lemma shr_round (p : positive) (e n : Z) :
  0 <= n ->
  round_nearest_even
    (shr_m (fst (shr (shr_record_of_loc (Zpos p) loc_Exact) e n)))
    (loc_of_shr_record (fst (shr (shr_record_of_loc (Zpos p) loc_Exact) e n)))
  = rne (Zpos p) n /\
  snd (shr (shr_record_of_loc (Zpos p) loc_Exact) e n) = e + n.
Proof.
  intros Hn. destruct n as [|k|k]; [| |lia].
  - simpl. unfold rne. rewrite Z.pow_0_r, Z.mod_1_r, Z.div_1_r. simpl.
    split; [reflexivity|lia].
  - unfold shr, shr_record_of_loc. cbn [fst snd]. split; [|reflexivity].
    rewrite iter_pos_nat.
    destruct (Pos2Nat.is_succ k) as [k' Hk']. rewrite Hk'.
    rewrite shr_iter by lia.
    assert (Hz : Z.of_nat (S k') = Zpos k) by lia.
    rewrite Hz. unfold rne.
    assert (Hpow : 2 ^ Zpos k = 2 * 2 ^ Z.of_nat k').
    { rewrite <- Hz, Nat2Z.inj_succ, Z.pow_succ_r by lia. reflexivity. }
    assert (Hh : 0 < 2 ^ Z.of_nat k') by (apply Z.pow_pos_nonneg; lia).
    pose proof (Z.mod_pos_bound (Zpos p) (2 ^ Zpos k) ltac:(lia)) as Hb.
    set (q := Zpos p / 2 ^ Zpos k).
    set (A := Zpos p mod 2 ^ Zpos k) in *.
    set (Q := 2 ^ Zpos k) in *.
    set (P := 2 ^ Z.of_nat k') in *.
    clearbody q A Q P. cbn [shr_m].
    destruct (Z.leb_spec P A) as [Hr|Hr].
    + destruct (Z.eqb_spec A P) as [Heq|Hne]; cbn [negb loc_of_shr_record round_nearest_even].
      * replace (2 * A ?= Q) with Eq by (symmetry; apply Z.compare_eq_iff; lia).
        reflexivity.
      * replace (2 * A ?= Q) with Gt by (symmetry; apply Z.compare_gt_iff; lia).
        reflexivity.
    + replace (2 * A ?= Q) with Lt by (symmetry; apply Z.compare_lt_iff; lia).
      destruct (Z.eqb_spec A 0); reflexivity.
Qed.

Lemma rne_bounds (m n : Z) : m / 2 ^ n <= rne m n <= m / 2 ^ n + 1.
Proof.
  unfold rne. destruct (2 * (m mod 2 ^ n) ?= 2 ^ n); [|lia|lia].
  destruct (Z.even (m / 2 ^ n)); lia.
Qed.

Lemma digits2_pos_unique (p : positive) (k : Z) :
  2 ^ (k - 1) <= Zpos p < 2 ^ k -> Zpos (digits2_pos p) = k.
Proof.
  intros [Hlo Hhi]. pose proof (digits2_pos_bounds p) as [Dlo Dhi].
  assert (0 < k).
  { destruct (Z.ltb_spec 0 k); [assumption|]. exfalso.
    destruct (Z.eq_dec k 0) as [->|Hk]; [simpl in Hhi; lia|].
    rewrite Z.pow_neg_r in Hhi by lia. lia. }
  assert (Zpos (digits2_pos p) - 1 < k).
  { apply (Z.pow_lt_mono_r_iff 2); lia. }
  assert (k - 1 < Zpos (digits2_pos p)).
  { apply (Z.pow_lt_mono_r_iff 2); lia. }
  lia.
Qed.

Lemma rne_range (p : positive) (e : Z) :
  e <= trunc_exp p e ->
  0 <= rne (Zpos p) (trunc_exp p e - e) <= 2 ^ 24 /\
  (-149 < trunc_exp p e -> 2 ^ 23 <= rne (Zpos p) (trunc_exp p e - e)).
Proof.
  unfold trunc_exp. intros Ht.
  pose proof (digits2_pos_bounds p) as [Dlo Dhi].
  pose proof (rne_bounds (Zpos p)
                (Z.max (Zpos (digits2_pos p) + e - 24) (-149) - e)) as [Rlo Rhi].
  set (n := Z.max (Zpos (digits2_pos p) + e - 24) (-149) - e) in *.
  assert (Hn : 0 <= n) by lia.
  assert (Hpn : 0 < 2 ^ n) by (apply Z.pow_pos_nonneg; lia).
  assert (Hq : 0 <= Zpos p / 2 ^ n < 2 ^ 24).
  { split; [apply Z.div_pos; lia|].
    apply Z.div_lt_upper_bound; [lia|].
    rewrite <- Z.pow_add_r by lia.
    apply Z.lt_le_trans with (1 := Dhi). apply Z.pow_le_mono_r; lia. }
  split; [lia|]. intros Hnorm.
  assert (Hn' : n = Zpos (digits2_pos p) - 24) by lia.
  apply Z.le_trans with (2 := Rlo).
  apply Z.div_le_lower_bound; [lia|].
  rewrite <- Z.pow_add_r by lia.
  replace (n + 23) with (Zpos (digits2_pos p) - 1) by lia. exact Dlo.
Qed.

Lemma binary_round_aux_encode (p : positive) (e : Z) :
  e <= trunc_exp p e ->
  binary_round_aux 24 128 false (Zpos p) e loc_Exact
  = encode (trunc_exp p e) (rne (Zpos p) (trunc_exp p e - e)).
Proof.
  intros Ht. destruct (rne_range p e Ht) as [[Rlo Rhi] Rnorm].
  unfold binary_round_aux, shr_fexp.
  change (Zdigits2 (Zpos p)) with (Zpos (digits2_pos p)).
  rewrite fexp32.
  replace (Z.max (Zpos (digits2_pos p) + e - 24) (-149)) with (trunc_exp p e)
    by reflexivity.
  assert (Hge : -149 <= trunc_exp p e) by (unfold trunc_exp; lia).
  destruct (shr_round p e (trunc_exp p e - e) ltac:(lia)) as [Hr He].
  destruct (shr (shr_record_of_loc (Zpos p) loc_Exact) e (trunc_exp p e - e))
    as [mrs' e'].
  cbn [fst snd] in Hr, He. rewrite Hr. subst e'.
  replace (e + (trunc_exp p e - e)) with (trunc_exp p e) by lia.
  set (t := trunc_exp p e) in *. set (m1 := rne (Zpos p) (t - e)) in *.
  clearbody t m1. clear Hr mrs' Ht.
  rewrite fexp32. unfold encode.
  destruct m1 as [|p1|p1]; [| |lia].
  - cbn [Zdigits2 Z.eqb]. unfold shr, shr_record_of_loc.
    destruct (Z.max (0 + t - 24) (-149) - t) eqn:En; try lia; reflexivity.
  - cbn [Zdigits2]. change (Zpos p1 =? 0) with false. cbv iota.
    pose proof (digits2_pos_bounds p1) as [Dlo Dhi].
    destruct (Z.ltb_spec (Zpos p1) (2 ^ 24)) as [Hlt|Hge'].
    + assert (Hd : Zpos (digits2_pos p1) <= 24).
      { assert (Zpos (digits2_pos p1) - 1 < 24); [|lia].
        apply (Z.pow_lt_mono_r_iff 2); lia. }
      assert (Hn2 : Z.max (Zpos (digits2_pos p1) + t - 24) (-149) - t = 0).
      { destruct (Z.eq_dec t (-149)) as [->|Hne]; [lia|].
        assert (Zpos (digits2_pos p1) = 24); [|lia].
        apply digits2_pos_unique. split; [apply Rnorm; lia|exact Hlt]. }
      rewrite Hn2. unfold shr, shr_record_of_loc. cbn [shr_m].
      change (128 - 24) with 104. rewrite Pos2Z.id. reflexivity.
    + assert (Hp1 : Zpos p1 = 2 ^ 24) by lia.
      assert (Hp1' : p1 = Z.to_pos (2 ^ 24)) by (rewrite <- Hp1; reflexivity).
      subst p1.
      assert (Hn2 : Z.max (Zpos (digits2_pos (Z.to_pos (2 ^ 24))) + t - 24) (-149) - t
                    = 1).
      { change (Zpos (digits2_pos (Z.to_pos (2 ^ 24)))) with 25. lia. }
      rewrite Hn2. unfold shr, shr_record_of_loc.
      change (128 - 24) with 104. reflexivity.
Qed.

Lemma valid_finite_bounds (s : bool) (m : positive) (e : Z) :
  valid_binary 24 128 (S754_finite s m e) = true ->
  -149 <= e <= 104 /\ 0 < Zpos m < 2 ^ 24 /\ (-149 < e -> 2 ^ 23 <= Zpos m) /\
  trunc_exp m e = e.
Proof.
  unfold valid_binary, bounded, canonical_mantissa. rewrite fexp32.
  intros Hv. apply andb_true_iff in Hv as [Hc Hb].
  apply Z.eqb_eq in Hc. apply Z.leb_le in Hb. change (128 - 24) with 104 in Hb.
  pose proof (digits2_pos_bounds m) as [Dlo Dhi].
  assert (Hd : Zpos (digits2_pos m) <= 24) by lia.
  split; [lia|]. split.
  - split; [lia|]. apply Z.lt_le_trans with (1 := Dhi). apply Z.pow_le_mono_r; lia.
  - split; [|exact Hc]. intros Hn.
    replace 23 with (Zpos (digits2_pos m) - 1) by lia. exact Dlo.
Qed.

Lemma nonneg32_cases (x : spec_float) :
  nonneg32 x = true ->
  (exists s, x = S754_zero s) \/ x = S754_infinity false \/
  (exists m e, x = S754_finite false m e /\ valid_binary 24 128 x = true).
Proof.
  unfold nonneg32. intros Hx. apply andb_true_iff in Hx as [Hv Hs].
  destruct x as [s|[|]| |[|] m e]; try discriminate Hs.
  - left. exists s. reflexivity.
  - right. left. reflexivity.
  - right. right. exists m, e. split; [reflexivity|exact Hv].
Qed.

Lemma ord32_nonneg (x : spec_float) :
  nonneg32 x = true -> 0 <= ord32 x <= 255 * 2 ^ 23.
Proof.
  intros Hx. destruct (nonneg32_cases x Hx) as [[s ->]|[->|(m & e & -> & Hv)]];
    simpl ord32; try lia.
  destruct (valid_finite_bounds _ _ _ Hv) as (He & Hm & _).
  change (2 ^ 23) with 8388608. change (2 ^ 24) with 16777216 in Hm. lia.
Qed.

(** On non-negative valid values the order of the comparison is the order
    of the ordinals. *)
Lemma compare_ord (x y : spec_float) :
  nonneg32 x = true -> nonneg32 y = true ->
  SFcompare x y = Some (ord32 x ?= ord32 y).
Proof.
  intros Hx Hy.
  destruct (nonneg32_cases x Hx) as [[sx ->]|[->|(mx & ex & -> & Vx)]];
    destruct (nonneg32_cases y Hy) as [[sy ->]|[->|(my & ey & -> & Vy)]];
    try reflexivity;
    try (destruct (valid_finite_bounds _ _ _ Vx) as (Hex & Hmx & Hnx & _));
    try (destruct (valid_finite_bounds _ _ _ Vy) as (Hey & Hmy & Hny & _));
    unfold SFcompare, ord32;
    change (2 ^ 23) with 8388608 in *; change (2 ^ 24) with 16777216 in *;
    f_equal; symmetry.
  - apply Z.compare_lt_iff. lia.
  - apply Z.compare_gt_iff. lia.
  - apply Z.compare_gt_iff. lia.
  - apply Z.compare_lt_iff. lia.
  - destruct (Z.compare_spec ex ey) as [Heq|Hlt|Hgt].
    + subst ey. change (Pos.compare_cont Eq mx my) with (mx ?= my)%positive.
      rewrite Pos2Z.inj_compare.
      destruct (Z.compare_spec (Zpos mx) (Zpos my));
        [apply Z.compare_eq_iff|apply Z.compare_lt_iff|apply Z.compare_gt_iff]; lia.
    + apply Z.compare_lt_iff. lia.
    + apply Z.compare_gt_iff. lia.
Qed.

Lemma leb_ord (x y : spec_float) :
  nonneg32 x = true -> nonneg32 y = true ->
  SFleb x y = (ord32 x <=? ord32 y).
Proof.
  intros Hx Hy. unfold SFleb. rewrite (compare_ord x y Hx Hy).
  unfold Z.leb. destruct (ord32 x ?= ord32 y); reflexivity.
Qed.

Lemma ltb_ord (x y : spec_float) :
  nonneg32 x = true -> nonneg32 y = true ->
  SFltb x y = (ord32 x <? ord32 y).
Proof.
  intros Hx Hy. unfold SFltb. rewrite (compare_ord x y Hx Hy).
  unfold Z.ltb. destruct (ord32 x ?= ord32 y); reflexivity.
Qed.

Lemma encode_ord (t k : Z) :
  -149 <= t -> 0 <= k <= 2 ^ 24 -> (-149 < t -> 2 ^ 23 <= k) ->
  nonneg32 (encode t k) = true /\
  ord32 (encode t k) = Z.min ((t + 149) * 2 ^ 23 + k) (255 * 2 ^ 23).
Proof.
  intros Ht Hk Hn. unfold encode.
  change (2 ^ 23) with 8388608 in *. change (2 ^ 24) with 16777216 in *.
  destruct (Z.eqb_spec k 0) as [->|Hk0].
  { split; [reflexivity|]. simpl ord32. lia. }
  destruct (Z.ltb_spec k 16777216) as [Hlt|Hge].
  - destruct (Z.leb_spec t 104) as [Hle|Hgt].
    + split.
      * unfold nonneg32, valid_binary, bounded, canonical_mantissa.
        rewrite fexp32. change (128 - 24) with 104.
        apply andb_true_iff. split; [|reflexivity].
        apply andb_true_iff. split; [|apply Z.leb_le; exact Hle].
        apply Z.eqb_eq.
        pose proof (digits2_pos_bounds (Z.to_pos k)) as [Dlo Dhi].
        rewrite Z2Pos.id in Dlo, Dhi by lia.
        destruct (Z.eq_dec t (-149)) as [->|Hne].
        -- assert (Zpos (digits2_pos (Z.to_pos k)) - 1 < 24); [|lia].
           apply (Z.pow_lt_mono_r_iff 2); [lia|lia|].
           change (2 ^ 24) with 16777216. lia.
        -- assert (Zpos (digits2_pos (Z.to_pos k)) = 24); [|lia].
           apply digits2_pos_unique. rewrite Z2Pos.id by lia.
           change (2 ^ (24 - 1)) with 8388608. change (2 ^ 24) with 16777216. lia.
      * simpl ord32. rewrite Z2Pos.id by lia. change (2 ^ 23) with 8388608. lia.
    + split; [reflexivity|]. simpl ord32. lia.
  - assert (k = 16777216) as -> by lia.
    destruct (Z.leb_spec (t + 1) 104) as [Hle|Hgt].
    + split.
      * unfold nonneg32, valid_binary, bounded, canonical_mantissa.
        rewrite fexp32. change (128 - 24) with 104.
        apply andb_true_iff. split; [|reflexivity].
        apply andb_true_iff. split; [|apply Z.leb_le; exact Hle].
        apply Z.eqb_eq. change (Zpos (digits2_pos (Z.to_pos 8388608))) with 24. lia.
      * simpl ord32. change (Zpos (Z.to_pos 8388608)) with 8388608.
        change (2 ^ 23) with 8388608. lia.
    + split; [reflexivity|]. simpl ord32. lia.
Qed.

Lemma round_nonneg_ord (p : positive) (e : Z) :
  e <= trunc_exp p e ->
  nonneg32 (binary_round_aux 24 128 false (Zpos p) e loc_Exact) = true /\
  ord32 (binary_round_aux 24 128 false (Zpos p) e loc_Exact)
  = Z.min (round_ord p e) (255 * 2 ^ 23).
Proof.
  intros Ht. rewrite (binary_round_aux_encode p e Ht).
  destruct (rne_range p e Ht) as [Hr Hn].
  apply encode_ord; [unfold trunc_exp; lia|exact Hr|exact Hn].
Qed.

Lemma rne_scale (m n k : Z) :
  0 <= n -> 0 <= k -> rne (m * 2 ^ k) (n + k) = rne m n.
Proof.
  intros Hn Hk. unfold rne.
  assert (Hpn : 0 < 2 ^ n) by (apply Z.pow_pos_nonneg; lia).
  assert (Hpk : 0 < 2 ^ k) by (apply Z.pow_pos_nonneg; lia).
  rewrite Z.pow_add_r by lia.
  rewrite Z.div_mul_cancel_r by lia.
  rewrite Z.mul_mod_distr_r by lia.
  replace (2 * (m mod 2 ^ n * 2 ^ k)) with (2 * (m mod 2 ^ n) * 2 ^ k) by ring.
  rewrite <- Zmult_compare_compat_r by lia. reflexivity.
Qed.

Lemma rne_mono (m1 m2 n : Z) :
  0 <= n -> 0 <= m1 <= m2 -> rne m1 n <= rne m2 n.
Proof.
  intros Hn Hm.
  assert (Hpn : 0 < 2 ^ n) by (apply Z.pow_pos_nonneg; lia).
  pose proof (Z.div_le_mono m1 m2 (2 ^ n) Hpn ltac:(lia)) as Hq.
  pose proof (rne_bounds m1 n) as [L1 U1]. pose proof (rne_bounds m2 n) as [L2 U2].
  destruct (Z.eq_dec (m1 / 2 ^ n) (m2 / 2 ^ n)) as [Heq|Hne]; [|lia].
  pose proof (Z.div_mod m1 (2 ^ n) ltac:(lia)) as D1.
  pose proof (Z.div_mod m2 (2 ^ n) ltac:(lia)) as D2.
  assert (Hrem : m1 mod 2 ^ n <= m2 mod 2 ^ n) by (rewrite Heq in D1; lia).
  unfold rne. rewrite Heq.
  destruct (Z.compare_spec (2 * (m1 mod 2 ^ n)) (2 ^ n)),
           (Z.compare_spec (2 * (m2 mod 2 ^ n)) (2 ^ n));
    destruct (Z.even (m2 / 2 ^ n)); lia.
Qed.

(** The ordinal of the rounded value grows with the value. *)
Lemma round_ord_mono (p1 p2 : positive) (e1 e2 e0 : Z) :
  e0 <= e1 -> e0 <= e2 ->
  e1 <= trunc_exp p1 e1 -> e2 <= trunc_exp p2 e2 ->
  Zpos p1 * 2 ^ (e1 - e0) <= Zpos p2 * 2 ^ (e2 - e0) ->
  round_ord p1 e1 <= round_ord p2 e2.
Proof.
  intros H1 H2 T1 T2 Hv.
  pose proof (digits2_pos_bounds p1) as [D1lo D1hi].
  pose proof (digits2_pos_bounds p2) as [D2lo D2hi].
  assert (Hg : Zpos (digits2_pos p1) + e1 <= Zpos (digits2_pos p2) + e2).
  { assert (Zpos (digits2_pos p1) - 1 + (e1 - e0) < Zpos (digits2_pos p2) + (e2 - e0));
      [|lia].
    apply (Z.pow_lt_mono_r_iff 2); [lia|lia|].
    rewrite !Z.pow_add_r by lia.
    assert (0 < 2 ^ (e1 - e0)) by (apply Z.pow_pos_nonneg; lia).
    assert (0 < 2 ^ (e2 - e0)) by (apply Z.pow_pos_nonneg; lia).
    apply Z.le_lt_trans with (Zpos p1 * 2 ^ (e1 - e0)); [nia|].
    apply Z.le_lt_trans with (1 := Hv). nia. }
  destruct (rne_range p1 e1 T1) as [[R1lo R1hi] _].
  destruct (rne_range p2 e2 T2) as [[R2lo R2hi] R2n].
  unfold round_ord.
  destruct (Z.eq_dec (trunc_exp p1 e1) (trunc_exp p2 e2)) as [Heq|Hne].
  - rewrite <- Heq.
    assert (rne (Zpos p1) (trunc_exp p1 e1 - e1) <= rne (Zpos p2) (trunc_exp p1 e1 - e2));
      [|lia].
    rewrite <- (rne_scale (Zpos p1) (trunc_exp p1 e1 - e1) (e1 - e0)) by lia.
    rewrite <- (rne_scale (Zpos p2) (trunc_exp p1 e1 - e2) (e2 - e0)) by lia.
    replace (trunc_exp p1 e1 - e1 + (e1 - e0)) with (trunc_exp p1 e1 - e0) by lia.
    replace (trunc_exp p1 e1 - e2 + (e2 - e0)) with (trunc_exp p1 e1 - e0) by lia.
    apply rne_mono; [lia|].
    split; [|exact Hv].
    apply Z.mul_nonneg_nonneg; [lia|]. apply Z.pow_nonneg. lia.
  - assert (Hlt : trunc_exp p1 e1 < trunc_exp p2 e2) by (unfold trunc_exp in *; lia).
    assert (Hn2 : -149 < trunc_exp p2 e2) by (unfold trunc_exp in *; lia).
    specialize (R2n Hn2).
    change (2 ^ 23) with 8388608 in *. change (2 ^ 24) with 16777216 in *. lia.
Qed.

(** For valid values the order of the ordinals is the order of the values. *)
Lemma ord_le_value (m1 m2 : positive) (e1 e2 e0 : Z) :
  valid_binary 24 128 (S754_finite false m1 e1) = true ->
  valid_binary 24 128 (S754_finite false m2 e2) = true ->
  ord32 (S754_finite false m1 e1) <= ord32 (S754_finite false m2 e2) ->
  e0 <= e1 -> e0 <= e2 ->
  Zpos m1 * 2 ^ (e1 - e0) <= Zpos m2 * 2 ^ (e2 - e0).
Proof.
  intros V1 V2 Ho H1 H2.
  destruct (valid_finite_bounds _ _ _ V1) as (He1 & Hm1 & Hn1 & _).
  destruct (valid_finite_bounds _ _ _ V2) as (He2 & Hm2 & Hn2 & _).
  unfold ord32 in Ho.
  change (2 ^ 23) with 8388608 in *. change (2 ^ 24) with 16777216 in *.
  assert (Hcase : e1 < e2 \/ (e1 = e2 /\ Zpos m1 <= Zpos m2)) by lia.
  destruct Hcase as [Hlt|[-> Hle]].
  - assert (Hp1 : 0 < 2 ^ (e1 - e0)) by (apply Z.pow_pos_nonneg; lia).
    replace (e2 - e0) with ((e2 - e1 - 1) + 1 + (e1 - e0)) by lia.
    rewrite !Z.pow_add_r by lia.
    assert (Hp2 : 0 < 2 ^ (e2 - e1 - 1)) by (apply Z.pow_pos_nonneg; lia).
    change (2 ^ 1) with 2. specialize (Hn2 ltac:(lia)).
    set (P := 2 ^ (e1 - e0)) in *. set (A := 2 ^ (e2 - e1 - 1)) in *.
    clearbody P A.
    apply Z.le_trans with (16777216 * P); [nia|].
    apply Z.le_trans with (Zpos m2 * 2 * P); [nia|].
    replace (Zpos m2 * (A * 2 * P)) with (Zpos m2 * 2 * P * A) by ring.
    assert (0 <= Zpos m2 * 2 * P) by nia. nia.
  - apply Z.mul_le_mono_nonneg_r; [apply Z.pow_nonneg; lia|exact Hle].
Qed.

Lemma digits2_pos_gt (p : positive) (k : Z) :
  0 <= k -> 2 ^ k <= Zpos p -> k < Zpos (digits2_pos p).
Proof.
  intros Hk Hp. pose proof (digits2_pos_bounds p) as [_ Dhi].
  apply (Z.pow_lt_mono_r_iff 2); lia.
Qed.

Lemma pos_iter_xO (m d : positive) :
  Zpos (Pos.iter xO m d) = Zpos m * 2 ^ Zpos d.
Proof.
  induction d as [|d IH] using Pos.peano_ind.
  - change (Pos.iter xO m 1) with (m~0)%positive. change (2 ^ 1) with 2. lia.
  - rewrite Pos.iter_succ, Pos2Z.inj_succ, Z.pow_succ_r by lia.
    change (Zpos (Pos.iter xO m d)~0) with (2 * Zpos (Pos.iter xO m d)).
    rewrite IH. ring.
Qed.

Lemma shl_align_value (mx : positive) (ex ez : Z) :
  ez <= ex -> Zpos (fst (shl_align mx ex ez)) = Zpos mx * 2 ^ (ex - ez).
Proof.
  intros Hle. unfold shl_align.
  destruct (ez - ex) as [|d|d] eqn:Hd; [| lia |].
  - replace (ex - ez) with 0 by lia. simpl. lia.
  - cbn [fst]. rewrite pos_iter_xO. f_equal. f_equal. lia.
Qed.

Lemma SFadd_finite_nonneg (mx my : positive) (ex ey : Z) (M : positive) :
  Zpos M = Zpos mx * 2 ^ (ex - Z.min ex ey) + Zpos my * 2 ^ (ey - Z.min ex ey) ->
  Z.min ex ey <= trunc_exp M (Z.min ex ey) ->
  SFadd 24 128 (S754_finite false mx ex) (S754_finite false my ey)
  = binary_round_aux 24 128 false (Zpos M) (Z.min ex ey) loc_Exact.
Proof.
  intros HM Ht. unfold SFadd, cond_Zopp.
  rewrite !shl_align_value by lia. rewrite <- HM.
  unfold binary_normalize, binary_round. rewrite fexp32.
  change (Z.max (Zpos (digits2_pos M) + Z.min ex ey - 24) (-149))
    with (trunc_exp M (Z.min ex ey)).
  unfold shl_align.
  destruct (trunc_exp M (Z.min ex ey) - Z.min ex ey) eqn:Hd; try reflexivity. lia.
Qed.

Lemma finite_ord_strict (m : positive) (e : Z) :
  valid_binary 24 128 (S754_finite false m e) = true ->
  0 < ord32 (S754_finite false m e) < 255 * 2 ^ 23.
Proof.
  intros Hv. destruct (valid_finite_bounds _ _ _ Hv) as (He & Hm & _).
  unfold ord32. change (2 ^ 23) with 8388608. change (2 ^ 24) with 16777216 in Hm.
  lia.
Qed.

Lemma valid_round_ord (m : positive) (e : Z) :
  valid_binary 24 128 (S754_finite false m e) = true ->
  round_ord m e = ord32 (S754_finite false m e).
Proof.
  intros Hv. destruct (valid_finite_bounds _ _ _ Hv) as (_ & _ & _ & Ht).
  unfold round_ord, ord32. rewrite Ht, Z.sub_diag.
  unfold rne. rewrite Z.pow_0_r, Z.mod_1_r, Z.div_1_r. reflexivity.
Qed.

Lemma mul_c015_finite (m : positive) (e : Z) :
  -26 + e <= trunc_exp (10066330 * m) (-26 + e) /\
  nonneg32 (SFmul 24 128 c015 (S754_finite false m e)) = true /\
  ord32 (SFmul 24 128 c015 (S754_finite false m e))
  = Z.min (round_ord (10066330 * m) (-26 + e)) (255 * 2 ^ 23).
Proof.
  assert (Ht : -26 + e <= trunc_exp (10066330 * m) (-26 + e)).
  { unfold trunc_exp.
    assert (23 < Zpos (digits2_pos (10066330 * m))); [|lia].
    apply digits2_pos_gt; [lia|]. rewrite Pos2Z.inj_mul.
    change (2 ^ 23) with 8388608. lia. }
  split; [exact Ht|].
  change (SFmul 24 128 c015 (S754_finite false m e))
    with (binary_round_aux 24 128 false (Zpos (10066330 * m)) (-26 + e) loc_Exact).
  apply round_nonneg_ord. exact Ht.
Qed.

Lemma mul_c015_nonneg (r : spec_float) :
  nonneg32 r = true -> nonneg32 (SFmul 24 128 c015 r) = true.
Proof.
  intros Hr. destruct (nonneg32_cases r Hr) as [[s ->]|[->|(m & e & -> & Hv)]].
  - destruct s; reflexivity.
  - reflexivity.
  - apply mul_c015_finite.
Qed.

Lemma mul_c015_mono (r1 r2 : spec_float) :
  nonneg32 r1 = true -> nonneg32 r2 = true -> ord32 r1 <= ord32 r2 ->
  ord32 (SFmul 24 128 c015 r1) <= ord32 (SFmul 24 128 c015 r2).
Proof.
  intros H1 H2 Ho.
  pose proof (ord32_nonneg _ (mul_c015_nonneg r1 H1)) as O1.
  pose proof (ord32_nonneg _ (mul_c015_nonneg r2 H2)) as O2.
  destruct (nonneg32_cases r1 H1) as [[s1 ->]|[->|(m1 & e1 & -> & V1)]].
  - destruct s1; simpl ord32 at 1; lia.
  - destruct (nonneg32_cases r2 H2) as [[s2 ->]|[->|(m2 & e2 & -> & V2)]].
    + unfold ord32 in Ho. change (2 ^ 23) with 8388608 in Ho. lia.
    + lia.
    + pose proof (finite_ord_strict _ _ V2). unfold ord32 at 1 in Ho. change (2 ^ 23) with 8388608 in *. lia.
  - destruct (nonneg32_cases r2 H2) as [[s2 ->]|[->|(m2 & e2 & -> & V2)]].
    + pose proof (finite_ord_strict _ _ V1). unfold ord32 at 2 in Ho. change (2 ^ 23) with 8388608 in *. lia.
    + change (ord32 (SFmul 24 128 c015 (S754_infinity false))) with (255 * 2 ^ 23).
      lia.
    + destruct (mul_c015_finite m1 e1) as (T1 & _ & ->).
      destruct (mul_c015_finite m2 e2) as (T2 & _ & ->).
      apply Z.min_le_compat_r.
      apply (round_ord_mono _ _ _ _ (-26 + Z.min e1 e2)); [lia|lia|exact T1|exact T2|].
      rewrite !Pos2Z.inj_mul.
      replace (-26 + e1 - (-26 + Z.min e1 e2)) with (e1 - Z.min e1 e2) by lia.
      replace (-26 + e2 - (-26 + Z.min e1 e2)) with (e2 - Z.min e1 e2) by lia.
      rewrite <- !Z.mul_assoc. apply Z.mul_le_mono_nonneg_l; [lia|].
      apply ord_le_value; try assumption; lia.
Qed.

(** The sum of [0.15f] and a valid positive value, as one rounding. *)
Lemma add_c015_finite (m : positive) (e : Z) :
  exists M : positive,
    Zpos M = 10066330 * 2 ^ (-26 - Z.min (-26) e) + Zpos m * 2 ^ (e - Z.min (-26) e) /\
    Z.min (-26) e <= trunc_exp M (Z.min (-26) e) /\
    nonneg32 (SFadd 24 128 c015 (S754_finite false m e)) = true /\
    ord32 (SFadd 24 128 c015 (S754_finite false m e))
    = Z.min (round_ord M (Z.min (-26) e)) (255 * 2 ^ 23).
Proof.
  assert (Hp1 : 0 < 2 ^ (-26 - Z.min (-26) e)) by (apply Z.pow_pos_nonneg; lia).
  assert (Hp2 : 0 < 2 ^ (e - Z.min (-26) e)) by (apply Z.pow_pos_nonneg; lia).
  exists (Z.to_pos (10066330 * 2 ^ (-26 - Z.min (-26) e)
                    + Zpos m * 2 ^ (e - Z.min (-26) e))).
  assert (HM : Zpos (Z.to_pos (10066330 * 2 ^ (-26 - Z.min (-26) e)
                               + Zpos m * 2 ^ (e - Z.min (-26) e)))
               = 10066330 * 2 ^ (-26 - Z.min (-26) e)
                 + Zpos m * 2 ^ (e - Z.min (-26) e)).
  { apply Z2Pos.id. nia. }
  split; [exact HM|].
  set (M := Z.to_pos (10066330 * 2 ^ (-26 - Z.min (-26) e)
                      + Zpos m * 2 ^ (e - Z.min (-26) e))) in *.
  assert (Ht : Z.min (-26) e <= trunc_exp M (Z.min (-26) e)).
  { unfold trunc_exp.
    assert (23 + (-26 - Z.min (-26) e) < Zpos (digits2_pos M)); [|lia].
    apply digits2_pos_gt; [lia|]. rewrite HM, Z.pow_add_r by lia.
    change (2 ^ 23) with 8388608. nia. }
  split; [exact Ht|].
  unfold c015. rewrite (SFadd_finite_nonneg _ _ _ _ M HM Ht).
  apply round_nonneg_ord. exact Ht.
Qed.

Lemma add_c015_nonneg (y : spec_float) :
  nonneg32 y = true -> nonneg32 (SFadd 24 128 c015 y) = true.
Proof.
  intros Hy. destruct (nonneg32_cases y Hy) as [[s ->]|[->|(m & e & -> & Hv)]].
  - reflexivity.
  - reflexivity.
  - destruct (add_c015_finite m e) as (M & _ & _ & Hn & _). exact Hn.
Qed.

Lemma add_c015_mono (y1 y2 : spec_float) :
  nonneg32 y1 = true -> nonneg32 y2 = true -> ord32 y1 <= ord32 y2 ->
  ord32 (SFadd 24 128 c015 y1) <= ord32 (SFadd 24 128 c015 y2).
Proof.
  intros H1 H2 Ho.
  pose proof (ord32_nonneg _ (add_c015_nonneg y1 H1)) as O1.
  pose proof (ord32_nonneg _ (add_c015_nonneg y2 H2)) as O2.
  assert (Vc : valid_binary 24 128 c015 = true) by reflexivity.
  destruct (nonneg32_cases y2 H2) as [[s2 ->]|[->|(m2 & e2 & -> & V2)]].
  - destruct (nonneg32_cases y1 H1) as [[s1 ->]|[->|(m1 & e1 & -> & V1)]].
    + apply Z.le_refl.
    + unfold ord32 in Ho. change (2 ^ 23) with 8388608 in Ho. lia.
    + pose proof (finite_ord_strict _ _ V1). unfold ord32 at 2 in Ho. change (2 ^ 23) with 8388608 in *. lia.
  - change (ord32 (SFadd 24 128 c015 (S754_infinity false))) with (255 * 2 ^ 23). lia.
  - destruct (add_c015_finite m2 e2) as (M2 & HM2 & T2 & _ & ->).
    assert (Hp2 : 0 < 2 ^ (e2 - Z.min (-26) e2)) by (apply Z.pow_pos_nonneg; lia).
    destruct (nonneg32_cases y1 H1) as [[s1 ->]|[->|(m1 & e1 & -> & V1)]].
    + change (SFadd 24 128 c015 (S754_zero s1)) with c015.
      apply Z.min_glb; [|pose proof (finite_ord_strict _ _ Vc); unfold c015; lia].
      unfold c015. rewrite <- (valid_round_ord _ _ Vc).
      apply (round_ord_mono _ _ _ _ (Z.min (-26) e2)); [lia|lia| |exact T2|].
      * destruct (valid_finite_bounds _ _ _ Vc) as (_ & _ & _ & Ht). lia.
      * rewrite HM2, Z.sub_diag, Z.pow_0_r. nia.
    + pose proof (finite_ord_strict _ _ V2). unfold ord32 at 1 in Ho. change (2 ^ 23) with 8388608 in *. lia.
    + destruct (add_c015_finite m1 e1) as (M1 & HM1 & T1 & _ & ->).
      apply Z.min_le_compat_r.
      set (e0 := Z.min (-26) (Z.min e1 e2)).
      apply (round_ord_mono _ _ _ _ e0); [lia|lia|exact T1|exact T2|].
      rewrite HM1, HM2, !Z.mul_add_distr_r, <- !Z.mul_assoc, <- !Z.pow_add_r by lia.
      replace (-26 - Z.min (-26) e1 + (Z.min (-26) e1 - e0)) with (-26 - e0) by lia.
      replace (-26 - Z.min (-26) e2 + (Z.min (-26) e2 - e0)) with (-26 - e0) by lia.
      replace (e1 - Z.min (-26) e1 + (Z.min (-26) e1 - e0)) with (e1 - e0) by lia.
      replace (e2 - Z.min (-26) e2 + (Z.min (-26) e2 - e0)) with (e2 - e0) by lia.
      apply Z.add_le_mono_l. apply ord_le_value; try assumption; lia.
Qed.

(** ** The adaptive onset threshold *)

Lemma lit_015 : F32.lit 15 100 = c015.
Proof. vm_compute. reflexivity. Qed.

Lemma lit_030 : F32.lit 3 10 = c030.
Proof. vm_compute. reflexivity. Qed.

Lemma min_c030 (s : float) :
  nonneg32 s = true ->
  nonneg32 (F32.min s c030) = true /\
  ord32 (F32.min s c030) = Z.min (ord32 s) (ord32 c030).
Proof.
  intros Hs. unfold F32.min, F32.ltb. rewrite (ltb_ord c030 s eq_refl Hs).
  destruct (Z.ltb_spec (ord32 c030) (ord32 s)); (split; [try reflexivity; assumption|lia]).
Qed.

(** A value above a non-negative one is non-negative. *)
Lemma leb_nonneg_right (r1 r2 : float) :
  nonneg32 r1 = true -> SFleb r1 r2 = true -> SFleb (S754_zero false) r2 = true.
Proof.
  intros H1 Hle.
  destruct (nonneg32_cases r1 H1) as [[s1 ->]|[->|(m1 & e1 & -> & _)]];
    destruct r2 as [[|]|[|]| |[|] m2 e2]; try reflexivity;
    unfold SFleb in Hle; simpl in Hle; discriminate Hle.
Qed.

Lemma adaptive_threshold_ord (r : float) :
  nonneg32 r = true ->
  nonneg32 (adaptive_threshold r) = true /\
  ord32 (adaptive_threshold r)
  = Z.min (ord32 (SFadd 24 128 c015 (SFmul 24 128 c015 r))) (ord32 c030).
Proof.
  intros Hr. unfold adaptive_threshold. rewrite lit_015, lit_030.
  apply min_c030. apply add_c015_nonneg, mul_c015_nonneg. exact Hr.
Qed.

Lemma adaptive_threshold_mono (r1 r2 : float) :
  nonneg32 r1 = true -> nonneg32 r2 = true -> SFleb r1 r2 = true ->
  SFleb (adaptive_threshold r1) (adaptive_threshold r2) = true /\
  SFleb (adaptive_threshold r1) c030 = true.
Proof.
  intros H1 H2 Hle. rewrite (leb_ord r1 r2 H1 H2) in Hle. apply Z.leb_le in Hle.
  pose proof (mul_c015_mono r1 r2 H1 H2 Hle) as Hm.
  pose proof (add_c015_mono _ _ (mul_c015_nonneg r1 H1) (mul_c015_nonneg r2 H2) Hm) as Ha.
  destruct (adaptive_threshold_ord r1 H1) as [N1 O1].
  destruct (adaptive_threshold_ord r2 H2) as [N2 O2].
  rewrite (leb_ord _ _ N1 N2), (leb_ord _ c030 N1 eq_refl), O1, O2.
  split; apply Z.leb_le; lia.
Qed.

(** C8.  On every frame that reaches the engine, the onset threshold set
    on the engine before the tempo and onset passes is
    [min(0.15 + 0.15 * rms_energy, 0.30)] of that frame's RMS energy.  As a
    function of a valid energy [r >= 0] this threshold never exceeds 0.30
    and is monotonically non-decreasing: [0 <= r1 <= r2] gives
    [threshold r1 <= threshold r2]. *)
Theorem adaptive_threshold_monotone_bounded `{Aubio} (d : Detector _) (a : Analysis)
    (r1 r2 : float) :
  fr_analysis (snd (process_frame d)) = Some a ->
  F32.valid r1 = true -> F32.valid r2 = true ->
  F32.leb F32.zero r1 = true -> F32.leb r1 r2 = true ->
  an_threshold a
  = F32.min (F32.lit 15 100 + F32.lit 15 100 * fr_rms_energy (snd (process_frame d)))%f32
            (F32.lit 3 10) /\
  an_is_onset a
  = F32.neqb
      (snd (aubio_onset_do
              (aubio_tempo_do (aubio_onset_set_threshold (aubio_ d) (an_threshold a))
                              (frame_of d))
              (frame_of d)))
      F32.zero /\
  adaptive_threshold r1
  = F32.min (F32.lit 15 100 + F32.lit 15 100 * r1)%f32 (F32.lit 3 10) /\
  F32.leb (adaptive_threshold r1) (adaptive_threshold r2) = true /\
  F32.leb (adaptive_threshold r1) (F32.lit 3 10) = true /\
  F32.leb (adaptive_threshold r2) (F32.lit 3 10) = true.
Proof.
  intros Ha V1 V2 Z1 Hle.
  assert (N1 : nonneg32 r1 = true).
  { unfold nonneg32. apply andb_true_iff. split; assumption. }
  assert (N2 : nonneg32 r2 = true).
  { unfold nonneg32. apply andb_true_iff. split; [exact V2|].
    exact (leb_nonneg_right r1 r2 N1 Hle). }
  destruct (analysis_of_frame d a Ha) as (Ht & _ & _ & Ho & _).
  destruct (process_frame_report d) as (_ & _ & Hrms).
  split; [rewrite Ht, Hrms; reflexivity|].
  split; [rewrite Ho, Ht; reflexivity|].
  split; [reflexivity|].
  destruct (adaptive_threshold_mono r1 r2 N1 N2 Hle) as [Hmono Hb1].
  destruct (adaptive_threshold_mono r2 r2 N2 N2) as [_ Hb2].
  { rewrite (leb_ord r2 r2 N2 N2). apply Z.leb_refl. }
  rewrite lit_030. repeat split; assumption.
Qed.

Lemma adaptive_threshold_monotone_bounded_witness :
  fr_analysis (snd (process_frame (full_detector loud64 F32.zero [onset_128])))
  = Some analysis_128 /\
  F32.valid (F32.lit 1 2) = true /\ F32.valid (F32.of_Z 2) = true /\
  F32.leb F32.zero (F32.lit 1 2) = true /\ F32.leb (F32.lit 1 2) (F32.of_Z 2) = true /\
  F32.leb (adaptive_threshold (F32.lit 1 2)) (adaptive_threshold (F32.of_Z 2)) = true.
Proof.
  assert (Ha : fr_analysis (snd (process_frame (full_detector loud64 F32.zero [onset_128])))
               = Some analysis_128) by (vm_compute; reflexivity).
  assert (V1 : F32.valid (F32.lit 1 2) = true) by (vm_compute; reflexivity).
  assert (V2 : F32.valid (F32.of_Z 2) = true) by (vm_compute; reflexivity).
  assert (Z1 : F32.leb F32.zero (F32.lit 1 2) = true) by (vm_compute; reflexivity).
  assert (L : F32.leb (F32.lit 1 2) (F32.of_Z 2) = true) by (vm_compute; reflexivity).
  repeat (split; [assumption|]).
  exact (proj1 (proj2 (proj2 (proj2
           (adaptive_threshold_monotone_bounded
              (full_detector loud64 F32.zero [onset_128]) analysis_128
              (F32.lit 1 2) (F32.of_Z 2) Ha V1 V2 Z1 L))))).
Defined.

(** * Further properties of the code *)

(** ** Runs of the callback *)

Section Runs.

Context `{Aubio}.

(** The reports already made are only extended by the sample loop. *)
Lemma accumulate_reports (s : Detector _ * list FrameReport) (x : float) :
  accumulate s x
  = (fst (accumulate (fst s, []) x), snd s ++ snd (accumulate (fst s, []) x)).
Proof.
  unfold accumulate. cbn [fst snd].
  destruct (buf_size_ _ <=? accumulated_samples_ _).
  - destruct (process_frame (store_sample (fst s) x)) as [d' r]. reflexivity.
  - cbn [fst snd]. rewrite app_nil_r. reflexivity.
Qed.

Lemma samples_reports (l : list float) (d : Detector _) (rs : list FrameReport) :
  fold_left accumulate l (d, rs)
  = (fst (fold_left accumulate l (d, [])), rs ++ snd (fold_left accumulate l (d, []))).
Proof.
  revert d rs. induction l as [|x l IH]; intros d rs; simpl.
  - rewrite app_nil_r. reflexivity.
  - rewrite (accumulate_reports (d, rs) x). cbn [fst snd].
    destruct (accumulate (d, []) x) as [d1 r1]. cbn [fst snd].
    rewrite (IH d1 (rs ++ r1)), (IH d1 r1). cbn [fst snd].
    rewrite app_assoc. reflexivity.
Qed.

Lemma samples_app (l1 l2 : list float) (d : Detector _) :
  fold_left accumulate (l1 ++ l2) (d, [])
  = (fst (fold_left accumulate l2 (fst (fold_left accumulate l1 (d, [])), [])),
     snd (fold_left accumulate l1 (d, []))
     ++ snd (fold_left accumulate l2 (fst (fold_left accumulate l1 (d, [])), []))).
Proof.
  rewrite fold_left_app.
  destruct (fold_left accumulate l1 (d, [])) as [d1 r1]. cbn [fst snd].
  apply samples_reports.
Qed.

Lemma accumulate_quit (s : Detector _ * list FrameReport) (x : float) :
  should_quit_ (fst (accumulate s x)) = should_quit_ (fst s).
Proof.
  unfold accumulate.
  destruct (buf_size_ _ <=? accumulated_samples_ _); [|reflexivity].
  pose proof (process_frame_fixed (store_sample (fst s) x)) as (_ & Hq & _).
  destruct (process_frame (store_sample (fst s) x)) as [d' r]. exact Hq.
Qed.

Lemma samples_quit (l : list float) (s : Detector _ * list FrameReport) :
  should_quit_ (fst (fold_left accumulate l s)) = should_quit_ (fst s).
Proof.
  revert s. induction l as [|x l IH]; intros s; simpl; [reflexivity|].
  rewrite IH. apply accumulate_quit.
Qed.

Lemma buffers_reports (bs : list PwBuffer) (d : Detector _) (rs : list FrameReport) :
  fold_left (fun s b => let '(d', rs') := process_audio (fst s) b in (d', snd s ++ rs'))
            bs (d, rs)
  = (fst (process_stream d bs), rs ++ snd (process_stream d bs)).
Proof.
  unfold process_stream. revert d rs. induction bs as [|b bs IH]; intros d rs.
  - simpl. rewrite app_nil_r. reflexivity.
  - simpl. destruct (process_audio d b) as [d2 r2].
    rewrite (IH d2 (rs ++ r2)), (IH d2 r2). cbn [fst snd].
    rewrite app_assoc. reflexivity.
Qed.

Lemma process_stream_cons (d : Detector _) (b : PwBuffer) (bs : list PwBuffer) :
  process_stream d (b :: bs)
  = (fst (process_stream (fst (process_audio d b)) bs),
     snd (process_audio d b) ++ snd (process_stream (fst (process_audio d b)) bs)).
Proof.
  unfold process_stream at 1. simpl.
  destruct (process_audio d b) as [d1 r1]. cbn [fst snd].
  apply buffers_reports.
Qed.

Lemma process_audio_samples (d : Detector _) (b : PwBuffer) :
  should_quit_ d = false ->
  process_audio d b
  = fold_left accumulate (match b with Samples l => l | _ => [] end) (d, []).
Proof.
  intros Hq. unfold process_audio. rewrite Hq. destruct b; reflexivity.
Qed.

(** A run over buffers, as one pass of the sample loop over all samples. *)
Lemma process_stream_flat (d : Detector _) (bs : list PwBuffer) :
  should_quit_ d = false ->
  process_stream d bs = process_audio d (Samples (samples_of bs)).
Proof.
  revert d. induction bs as [|b bs IH]; intros d Hq.
  - unfold process_audio, samples_of. rewrite Hq. reflexivity.
  - rewrite process_stream_cons.
    rewrite (process_audio_samples d b Hq).
    assert (Hq1 : should_quit_
                    (fst (fold_left accumulate
                            (match b with Samples l => l | _ => [] end) (d, [])))
                  = false) by (rewrite samples_quit; exact Hq).
    rewrite (IH _ Hq1).
    rewrite (process_audio_samples _ (Samples (samples_of bs)) Hq1).
    rewrite (process_audio_samples d (Samples (samples_of (b :: bs))) Hq).
    change (samples_of (b :: bs))
      with (match b with Samples l => l | _ => [] end ++ samples_of bs).
    rewrite samples_app. reflexivity.
Qed.

(** Once the quit flag is up, a run of the callback changes nothing. *)
Lemma process_stream_stopped (d : Detector _) (bs : list PwBuffer) :
  should_quit_ d = true -> process_stream d bs = (d, []).
Proof.
  intros Hq. induction bs as [|b bs IH]; [reflexivity|].
  rewrite process_stream_cons. unfold process_audio at 1 2 3. rewrite Hq.
  cbn [fst snd]. rewrite IH. reflexivity.
Qed.

(** X2.  After [stop], and after a stream error reported to
    [on_state_changed], the callback does nothing: a run over any buffers
    leaves the detector as it is and completes no frame.  Any other stream
    state leaves the detector running as before. *)
Theorem stopped_detector_ignores_audio (d : Detector _) (bs : list PwBuffer) :
  process_stream (stop d) bs = (stop d, []) /\
  process_stream (on_state_changed d PW_STREAM_STATE_ERROR) bs
  = (on_state_changed d PW_STREAM_STATE_ERROR, []) /\
  on_state_changed d PW_STREAM_STATE_UNCONNECTED = d /\
  on_state_changed d PW_STREAM_STATE_CONNECTING = d /\
  on_state_changed d PW_STREAM_STATE_PAUSED = d /\
  on_state_changed d PW_STREAM_STATE_STREAMING = d.
Proof.
  split; [apply process_stream_stopped; reflexivity|].
  split; [apply process_stream_stopped; reflexivity|].
  repeat split.
Qed.

End Runs.

Section RunFacts.

Context `{Aubio}.

(** A property of the detector and the reports made so far that every step
    of the sample loop keeps holds after every run from the constructor. *)
Lemma run_pair_invariant (I : Detector _ -> list FrameReport -> Prop) :
  (forall d rs x, I d rs -> I (store_sample d x) rs) ->
  (forall d rs, I d rs -> I (fst (process_frame d)) (rs ++ [snd (process_frame d)])) ->
  forall cfg log_open e bs,
    I (new_detector cfg log_open e) [] ->
    I (detector_after cfg log_open e bs) (reports_after cfg log_open e bs).
Proof.
  intros Hstore Hframe cfg log_open e bs H0.
  unfold detector_after, reports_after.
  rewrite (process_stream_flat (new_detector cfg log_open e) bs eq_refl).
  unfold process_audio. cbn [should_quit_ new_detector].
  generalize (samples_of bs) as l.
  assert (Hgen : forall (l : list float) (s : Detector _ * list FrameReport),
             I (fst s) (snd s) ->
             I (fst (fold_left accumulate l s)) (snd (fold_left accumulate l s))).
  { induction l as [|x l IH]; intros s Hs; [exact Hs|]. simpl. apply IH.
    unfold accumulate.
    destruct (buf_size_ _ <=? accumulated_samples_ _).
    - specialize (Hframe _ _ (Hstore _ _ x Hs)).
      destruct (process_frame (store_sample (fst s) x)) as [d' r]. exact Hframe.
    - cbn [fst snd]. apply Hstore. exact Hs. }
  intros l. apply (Hgen l (new_detector cfg log_open e, [])). exact H0.
Qed.

Lemma wrap64_succ (n : Z) : wrap64 (wrap64 n + 1) = wrap64 (n + 1).
Proof. unfold wrap64. apply Zplus_mod_idemp_l. Qed.

(** What one pass over a frame does to the counters, in terms of its
    report. *)
Lemma process_frame_counters (d : Detector _) :
  frame_count_ (fst (process_frame d)) = wrap64 (frame_count_ d + 1) /\
  total_onsets_ (fst (process_frame d))
  = (if is_analysed (snd (process_frame d)) then wrap64 (total_onsets_ d + 1)
     else total_onsets_ d) /\
  total_beats_ (fst (process_frame d))
  = (if is_beat_report (snd (process_frame d)) then wrap64 (total_beats_ d + 1)
     else total_beats_ d).
Proof.
  unfold is_analysed, is_beat_report. destruct (is_silent d) eqn:Hs.
  - rewrite (process_frame_silent d Hs). repeat split; reflexivity.
  - destruct (process_frame_analysed d Hs)
      as (a & Ha & _ & _ & _ & _ & _ & _ & Hb & Ho & Hf & _).
    rewrite Ha. repeat split; assumption.
Qed.

Lemma count_where_snoc {A : Type} (p : A -> bool) (l : list A) (x : A) :
  count_where p (l ++ [x]) = (count_where p l + (if p x then 1 else 0))%nat.
Proof.
  unfold count_where. rewrite List.filter_app, length_app. simpl.
  destruct (p x); reflexivity.
Qed.

Lemma count_where_le {A : Type} (p q : A -> bool) (l : list A) :
  (forall x, p x = true -> q x = true) ->
  (count_where p l <= count_where q l <= length l)%nat.
Proof.
  intros Hpq. unfold count_where.
  induction l as [|x l IH]; simpl; [lia|].
  specialize (Hpq x).
  destruct (p x), (q x); simpl; try lia; discriminate (Hpq eq_refl).
Qed.

(** X3.  After any run from the constructor the three counters count, modulo
    [2^64], the full frames seen, the frames that passed the silence gate,
    and the frames accepted as beats; and of these numbers each is at most
    the one before. *)
Theorem counters_count_frames (cfg : Config) (log_open : bool) (e : engine)
    (bs : list PwBuffer) :
  frame_count_ (detector_after cfg log_open e bs)
  = wrap64 (Z.of_nat (length (reports_after cfg log_open e bs))) /\
  total_onsets_ (detector_after cfg log_open e bs)
  = wrap64 (Z.of_nat (count_where is_analysed (reports_after cfg log_open e bs))) /\
  total_beats_ (detector_after cfg log_open e bs)
  = wrap64 (Z.of_nat (count_where is_beat_report (reports_after cfg log_open e bs))) /\
  (count_where is_beat_report (reports_after cfg log_open e bs)
   <= count_where is_analysed (reports_after cfg log_open e bs)
   <= length (reports_after cfg log_open e bs))%nat.
Proof.
  assert (Hle : (count_where is_beat_report (reports_after cfg log_open e bs)
                 <= count_where is_analysed (reports_after cfg log_open e bs)
                 <= length (reports_after cfg log_open e bs))%nat).
  { apply count_where_le. intros r. unfold is_beat_report, is_analysed.
    destruct (fr_analysis r); [reflexivity|discriminate]. }
  split; [|split; [|split; [|exact Hle]]]; clear Hle.
  - apply (run_pair_invariant
             (fun d rs => frame_count_ d = wrap64 (Z.of_nat (length rs)))).
    + intros d rs x Hd. exact Hd.
    + intros d rs Hd. destruct (process_frame_counters d) as (Hf & _).
      rewrite Hf, Hd, wrap64_succ, length_app. simpl. f_equal. lia.
    + reflexivity.
  - apply (run_pair_invariant
             (fun d rs => total_onsets_ d
                          = wrap64 (Z.of_nat (count_where is_analysed rs)))).
    + intros d rs x Hd. exact Hd.
    + intros d rs Hd. destruct (process_frame_counters d) as (_ & Ho & _).
      rewrite Ho, Hd, count_where_snoc.
      destruct (is_analysed (snd (process_frame d))).
      * rewrite wrap64_succ. f_equal. lia.
      * rewrite Nat.add_0_r. reflexivity.
    + reflexivity.
  - apply (run_pair_invariant
             (fun d rs => total_beats_ d
                          = wrap64 (Z.of_nat (count_where is_beat_report rs)))).
    + intros d rs x Hd. exact Hd.
    + intros d rs Hd. destruct (process_frame_counters d) as (_ & _ & Hb).
      rewrite Hb, Hd, count_where_snoc.
      destruct (is_beat_report (snd (process_frame d))).
      * rewrite wrap64_succ. f_equal. lia.
      * rewrite Nat.add_0_r. reflexivity.
    + reflexivity.
Qed.

End RunFacts.

Section Histories.

Context `{Aubio}.

Lemma count_where_app {A : Type} (p : A -> bool) (l1 l2 : list A) :
  count_where p (l1 ++ l2) = (count_where p l1 + count_where p l2)%nat.
Proof. unfold count_where. rewrite List.filter_app, length_app. reflexivity. Qed.

Lemma process_frame_stdout (d : Detector _) :
  count_where is_beat_output (stdout_ (fst (process_frame d)))
  = (count_where is_beat_output (stdout_ d)
     + (if is_beat_report (snd (process_frame d)) then 1 else 0))%nat.
Proof.
  destruct (process_frame d) as [d' r] eqn:E. unfold process_frame in E.
  destruct (F32.ltb _ _).
  { inversion E; subst; clear E. unfold is_beat_report, every_200.
    cbn [fst snd stdout_ fr_analysis].
    destruct (_ =? 0); rewrite ?count_where_app; cbn; lia. }
  destruct (aubio_onset_do _ _) as [e3 onset_out].
  destruct (if enable_pitch_detection_ _ then _ else _) as [e4 pitch_hz].
  destruct (_ && _); inversion E; subst; clear E;
    unfold is_beat_report, every_200;
    cbn [fst snd stdout_ fr_analysis an_is_beat];
    destruct (_ =? 0); try destruct (enable_visual_feedback_ _);
    rewrite ?count_where_app; cbn; lia.
Qed.

(** What one pass over a frame does to the histories and the log, in terms
    of its report. *)
Lemma process_frame_histories (d : Detector _) :
  recent_bpms_ (fst (process_frame d))
  = (if is_beat_report (snd (process_frame d))
     then push_bounded BPM_HISTORY_SIZE (recent_bpms_ d)
            (smoothed_bpm_ (fst (process_frame d)))
     else recent_bpms_ d) /\
  bpm_stability_ (fst (process_frame d))
  = (if is_beat_report (snd (process_frame d))
     then push_bounded STABILITY_WINDOW (bpm_stability_ d)
            (smoothed_bpm_ (fst (process_frame d)))
     else bpm_stability_ d) /\
  map log_bpm (log_file_ (fst (process_frame d)))
  = map log_bpm (log_file_ d)
    ++ (if is_beat_report (snd (process_frame d))
           && (enable_logging_ (config d) && log_is_open d)
        then [smoothed_bpm_ (fst (process_frame d))] else []).
Proof.
  unfold is_beat_report. destruct (is_silent d) eqn:Hs.
  - rewrite (process_frame_silent d Hs). cbn. rewrite app_nil_r. repeat split.
  - destruct (process_frame_analysed d Hs)
      as (a & Ha & _ & _ & _ & _ & _ & Hsm & _ & _ & _ & Hr & Hst & _ & Hl).
    rewrite Ha, Hr, Hst, Hl, Hsm, map_app.
    split; [reflexivity|]. split; [reflexivity|]. f_equal.
    destruct (an_is_beat a && _); reflexivity.
Qed.

(** The invariant behind the next theorems: both histories, the log and
    the beat lines are built from the same sequence of accepted smoothed
    BPMs, and the settings are those of the constructor. *)
Lemma histories_share_beats (cfg : Config) (log_open : bool) (e : engine)
    (bs : list PwBuffer) :
  config (detector_after cfg log_open e bs) = cfg /\
  log_is_open (detector_after cfg log_open e bs) = log_open /\
  exists xs : list float,
    length xs = count_where is_beat_report (reports_after cfg log_open e bs) /\
    recent_bpms_ (detector_after cfg log_open e bs)
    = fold_left (push_bounded BPM_HISTORY_SIZE) xs [] /\
    bpm_stability_ (detector_after cfg log_open e bs)
    = fold_left (push_bounded STABILITY_WINDOW) xs [] /\
    map log_bpm (log_file_ (detector_after cfg log_open e bs))
    = (if enable_logging_ cfg && log_open then xs else []) /\
    count_where is_beat_output (stdout_ (detector_after cfg log_open e bs))
    = length xs.
Proof.
  apply (run_pair_invariant
           (fun d rs =>
              config d = cfg /\ log_is_open d = log_open /\
              exists xs : list float,
                length xs = count_where is_beat_report rs /\
                recent_bpms_ d = fold_left (push_bounded BPM_HISTORY_SIZE) xs [] /\
                bpm_stability_ d = fold_left (push_bounded STABILITY_WINDOW) xs [] /\
                map log_bpm (log_file_ d)
                = (if enable_logging_ cfg && log_open then xs else []) /\
                count_where is_beat_output (stdout_ d) = length xs)
           ltac:(intros d rs x Hd; exact Hd)).
  - intros d rs (Hcfg & Hopen & xs & Hn & Hr & Hs & Hl & Ho).
    destruct (process_frame_histories d) as (Hr' & Hs' & Hl').
    pose proof (process_frame_stdout d) as Ho'.
    destruct (process_frame_fixed d) as (Hc & _ & Hlo & _).
    rewrite Hcfg, Hopen in Hl'.
    rewrite Hc, Hlo, Hr', Hs', Hl', Ho', count_where_snoc.
    split; [assumption|]. split; [assumption|].
    destruct (is_beat_report (snd (process_frame d))).
    + exists (xs ++ [smoothed_bpm_ (fst (process_frame d))]).
      rewrite !fold_left_app, length_app, <- Hr, <- Hs, Hl, Ho, Hn. cbn [fold_left].
      repeat split; try reflexivity.
      cbn [andb]. destruct (enable_logging_ cfg && log_open); reflexivity.
    + exists xs. rewrite Hl, app_nil_r, !Nat.add_0_r. repeat split; assumption.
  - split; [reflexivity|]. split; [reflexivity|].
    exists []. cbn. destruct (enable_logging_ cfg && log_open); repeat split.
Qed.

Lemma last_of_last (n k : nat) (xs : list float) :
  (k <= n)%nat ->
  drop (length xs - k) xs
  = drop (length (drop (length xs - n) xs) - k) (drop (length xs - n) xs).
Proof.
  intros Hkn. rewrite drop_drop, length_drop. f_equal. lia.
Qed.

(** X4.  After any run from the constructor, the stability window is the
    last five entries of the BPM history (all of it while it holds fewer),
    and the history has at most fifteen entries more. *)
Theorem stability_window_is_history_tail (cfg : Config) (log_open : bool)
    (e : engine) (bs : list PwBuffer) :
  bpm_stability_ (detector_after cfg log_open e bs)
  = drop (length (recent_bpms_ (detector_after cfg log_open e bs)) - 5)
         (recent_bpms_ (detector_after cfg log_open e bs)) /\
  length (bpm_stability_ (detector_after cfg log_open e bs))
  = Nat.min 5 (length (recent_bpms_ (detector_after cfg log_open e bs))).
Proof.
  destruct (histories_share_beats cfg log_open e bs) as (_ & _ & xs & _ & Hr & Hs & _).
  rewrite Hr, Hs, !push_bounded_run.
  split.
  - apply (last_of_last 20 5). unfold BPM_HISTORY_SIZE, STABILITY_WINDOW. lia.
  - rewrite !length_drop. unfold BPM_HISTORY_SIZE, STABILITY_WINDOW. lia.
Qed.

(** X5.  With logging enabled and the log file open, the log replays the
    histories: after any run from the constructor there is one log line per
    accepted beat, the BPM history is the BPM column of the last 20 log
    lines and the stability window that of the last 5.  There is always one
    beat line on standard output per accepted beat. *)
Theorem log_replays_histories (cfg : Config) (log_open : bool) (e : engine)
    (bs : list PwBuffer) :
  enable_logging_ cfg && log_open = true ->
  length (log_file_ (detector_after cfg log_open e bs))
  = count_where is_beat_report (reports_after cfg log_open e bs) /\
  recent_bpms_ (detector_after cfg log_open e bs)
  = drop (length (log_file_ (detector_after cfg log_open e bs)) - 20)
         (map log_bpm (log_file_ (detector_after cfg log_open e bs))) /\
  bpm_stability_ (detector_after cfg log_open e bs)
  = drop (length (log_file_ (detector_after cfg log_open e bs)) - 5)
         (map log_bpm (log_file_ (detector_after cfg log_open e bs))) /\
  count_where is_beat_output (stdout_ (detector_after cfg log_open e bs))
  = length (log_file_ (detector_after cfg log_open e bs)).
Proof.
  intros Hlog.
  destruct (histories_share_beats cfg log_open e bs)
    as (_ & _ & xs & Hn & Hr & Hs & Hl & Ho).
  rewrite Hlog in Hl.
  assert (Hlen : length (log_file_ (detector_after cfg log_open e bs)) = length xs).
  { rewrite <- (length_map log_bpm), Hl. reflexivity. }
  rewrite Hlen, Hl, Hr, Hs, Ho, !push_bounded_run. repeat split; try assumption.
Qed.

(** X6.  Without logging, or when the log file could not be opened, a run
    never writes a log line, however many beats it accepts. *)
Theorem no_log_without_logging (cfg : Config) (log_open : bool) (e : engine)
    (bs : list PwBuffer) :
  enable_logging_ cfg && log_open = false ->
  log_file_ (detector_after cfg log_open e bs) = [].
Proof.
  intros Hlog.
  destruct (histories_share_beats cfg log_open e bs)
    as (_ & _ & xs & _ & _ & _ & Hl & _).
  rewrite Hlog in Hl. destruct (log_file_ _); [reflexivity|discriminate].
Qed.

End Histories.

Lemma log_replays_histories_witness :
  enable_logging_ cfg64 && true = true /\
  length (log_file_ (detector_after cfg64 true [onset_128] [Samples loud64]))
  = count_where is_beat_report (reports_after cfg64 true [onset_128] [Samples loud64]).
Proof.
  split; [reflexivity|].
  exact (proj1 (log_replays_histories cfg64 true [onset_128] [Samples loud64] eq_refl)).
Defined.

Lemma no_log_without_logging_witness :
  enable_logging_ cfg64 && false = false /\
  log_file_ (detector_after cfg64 false [onset_128] [Samples loud64]) = [].
Proof.
  split; [reflexivity|].
  exact (no_log_without_logging cfg64 false [onset_128] [Samples loud64] eq_refl).
Defined.

(** ** The silence gate, exactly *)

Ltac compare_cases :=
  repeat match goal with
         | |- context [Pos.compare_cont Eq ?a ?b] =>
             change (Pos.compare_cont Eq a b) with (a ?= b)%positive
         | |- context [(?a ?= ?b)%positive] => destruct (Pos.compare_spec a b)
         | |- context [(?a ?= ?b)%Z] => destruct (Z.compare_spec a b)
         end.

(** One step of the running maximum against a positive finite bound: the
    maximum stays below the bound exactly when it was below and the new
    sample is a NaN or below the bound in absolute value. *)
Lemma max_step_below (mT : positive) (eT : Z) (m x : float) :
  is_magnitude m = true ->
  is_magnitude (F32.max m (F32.abs x)) = true /\
  F32.ltb (F32.max m (F32.abs x)) (S754_finite false mT eT)
  = F32.ltb m (S754_finite false mT eT)
    && (is_nan x || F32.ltb (F32.abs x) (S754_finite false mT eT)).
Proof.
  intros Hm.
  destruct m as [sm|[|]| |[|] mm em]; try discriminate Hm;
    destruct x as [sx|sx| |sx mx ex];
    unfold F32.max, F32.abs, F32.ltb, SFabs, SFltb, SFcompare, is_nan, is_magnitude;
    cbn [orb andb];
    compare_cases; subst; cbn [orb andb]; split; try reflexivity; try lia.
Qed.

Lemma running_max_exact (mT : positive) (eT : Z) (frame : list float) (m : float) :
  is_magnitude m = true ->
  F32.ltb (fold_left (fun m x => F32.max m (F32.abs x)) frame m)
          (S754_finite false mT eT)
  = F32.ltb m (S754_finite false mT eT)
    && forallb (fun x => is_nan x || F32.ltb (F32.abs x) (S754_finite false mT eT))
               frame.
Proof.
  revert m. induction frame as [|x frame IH]; intros m Hm; simpl.
  - rewrite andb_true_r. reflexivity.
  - destruct (max_step_below mT eT m x Hm) as [Hm' Hstep].
    rewrite (IH _ Hm'), Hstep, andb_assoc. reflexivity.
Qed.

Lemma silence_threshold_finite :
  SILENCE_THRESHOLD = S754_finite false 10737418 (-30).
Proof. vm_compute. reflexivity. Qed.

Lemma max_amplitude_quiet (frame : list float) :
  F32.ltb (max_amplitude_of frame) SILENCE_THRESHOLD = forallb quiet_or_nan frame.
Proof.
  rewrite max_amplitude_of_fold. unfold quiet_or_nan.
  rewrite silence_threshold_finite.
  rewrite (running_max_exact _ _ frame F32.zero eq_refl). reflexivity.
Qed.

Lemma running_max_skips_nan (frame : list float) (m : float) :
  fold_left (fun m x => F32.max m (F32.abs x)) frame m
  = fold_left (fun m x => F32.max m (F32.abs x))
      (List.filter (fun x => negb (is_nan x)) frame) m.
Proof.
  revert m. induction frame as [|x frame IH]; intros m; [reflexivity|].
  destruct x as [sx|sx| |sx mx ex]; cbn [List.filter is_nan negb fold_left];
    try apply IH.
  replace (F32.max m (F32.abs S754_nan)) with m; [apply IH|].
  unfold F32.max, F32.ltb, SFltb. destruct m as [?|?| |? ? ?]; reflexivity.
Qed.

Section Gate.

Context `{Aubio}.

(** X7.  The silence gate, exactly: a full frame is skipped if and only if
    every sample is a NaN or below 0.01 in absolute value.  A NaN sample
    never raises the peak: the peak of a frame is the peak of its samples
    that are numbers, so a frame of NaNs is skipped, while a single sample
    at or above 0.01 sends the frame to the engine. *)
Theorem silence_gate_exact (d : Detector _) :
  is_silent d = forallb quiet_or_nan (frame_of d) /\
  is_analysed (snd (process_frame d)) = negb (forallb quiet_or_nan (frame_of d)) /\
  fr_max_amplitude (snd (process_frame d))
  = max_amplitude_of (List.filter (fun x => negb (is_nan x)) (frame_of d)).
Proof.
  assert (Hs : is_silent d = forallb quiet_or_nan (frame_of d))
    by apply max_amplitude_quiet.
  split; [exact Hs|]. split.
  - rewrite <- Hs. unfold is_analysed. destruct (is_silent d) eqn:E.
    + rewrite (process_frame_silent d E). reflexivity.
    + destruct (process_frame_analysed d E) as (a & -> & _). reflexivity.
  - destruct (process_frame_report d) as (_ & -> & _).
    rewrite !max_amplitude_of_fold. apply running_max_skips_nan.
Qed.

End Gate.

(** ** A NaN sample in a frame that passes the gate *)

Lemma sum_squares_nan (frame : list float) (m r : float) :
  In S754_nan frame \/ r = S754_nan ->
  snd (fold_left
         (fun '(max_amplitude, rms_energy) x =>
            (F32.max max_amplitude (F32.abs x), rms_energy + x * x)%f32)
         frame (m, r)) = S754_nan.
Proof.
  revert m r. induction frame as [|x frame IH]; intros m r Hn.
  - destruct Hn as [[] | Hr]. exact Hr.
  - cbn [fold_left]. apply IH. destruct Hn as [[Hx | Hin] | Hr]; [subst x | | subst r].
    + right. destruct r as [?|?| |? ? ?]; reflexivity.
    + left. exact Hin.
    + right. reflexivity.
Qed.

Lemma rms_energy_nan (n : Z) (frame : list float) :
  In S754_nan frame -> rms_energy_of n frame = S754_nan.
Proof.
  intros Hin. unfold rms_energy_of, amplitude_loop.
  rewrite (sum_squares_nan frame F32.zero F32.zero (or_introl Hin)). reflexivity.
Qed.

Lemma adaptive_threshold_nan : adaptive_threshold S754_nan = S754_nan.
Proof. vm_compute. reflexivity. Qed.

(** X8.  One NaN sample in a frame that passes the silence gate makes the
    frame's RMS energy NaN, and the onset threshold handed to the engine
    for that frame is then NaN, not a value between 0.15 and 0.30. *)
Theorem nan_sample_gives_nan_threshold `{Aubio} (d : Detector _) (a : Analysis) :
  In S754_nan (frame_of d) ->
  fr_analysis (snd (process_frame d)) = Some a ->
  fr_rms_energy (snd (process_frame d)) = S754_nan /\
  an_threshold a = S754_nan /\
  engine_after_tempo d
  = aubio_tempo_do (aubio_onset_set_threshold (aubio_ d) S754_nan) (frame_of d).
Proof.
  intros Hin Ha.
  destruct (process_frame_report d) as (_ & _ & Hrms).
  pose proof (rms_energy_nan (buf_size_ (config d)) _ Hin) as Hnan.
  destruct (is_silent d) eqn:E.
  - rewrite (process_frame_silent d E) in Ha. discriminate Ha.
  - destruct (process_frame_analysed d E) as (a' & Ha' & Ht & _).
    rewrite Ha in Ha'. injection Ha' as <-.
    rewrite Hrms, Ht. unfold engine_after_tempo.
    rewrite Hnan, adaptive_threshold_nan. repeat split.
Qed.

Lemma nan_sample_gives_nan_threshold_witness :
  In S754_nan (frame_of (full_detector (S754_nan :: loud64) F32.zero [onset_128])) /\
  fr_rms_energy
    (snd (process_frame (full_detector (S754_nan :: loud64) F32.zero [onset_128])))
  = S754_nan.
Proof.
  assert (Hin : In S754_nan
                  (frame_of (full_detector (S754_nan :: loud64) F32.zero [onset_128])))
    by (left; reflexivity).
  split; [exact Hin|].
  refine (proj1 (nan_sample_gives_nan_threshold
                   (full_detector (S754_nan :: loud64) F32.zero [onset_128])
                   {| an_threshold := S754_nan;
                      an_bpm := F32.of_Z 128;
                      an_confidence := F32.lit 8 10;
                      an_is_onset := true;
                      an_pitch_hz := F32.zero;
                      an_is_beat := true;
                      an_beat := Some (F32.zero, true) |} Hin _)).
  vm_compute. reflexivity.
Defined.

(** ** A stream of silence *)

Section SilentStream.

Context `{Aubio}.

Lemma accumulate_quiet (s : Detector _ * list FrameReport) (x : float) :
  quiet_or_nan x = true ->
  Forall (fun y => quiet_or_nan y = true) (sample_accumulator_ (fst s)) ->
  Forall (fun r => fr_analysis r = None) (snd s) ->
  analysis_state (fst (accumulate s x)) = analysis_state (fst s) /\
  Forall (fun y => quiet_or_nan y = true) (sample_accumulator_ (fst (accumulate s x))) /\
  Forall (fun r => fr_analysis r = None) (snd (accumulate s x)).
Proof.
  intros Hx Hacc Hrs. unfold accumulate.
  assert (Hacc1 : Forall (fun y => quiet_or_nan y = true)
                         (sample_accumulator_ (store_sample (fst s) x))).
  { cbn [store_sample sample_accumulator_]. apply Forall_insert; assumption. }
  destruct (buf_size_ _ <=? accumulated_samples_ _); [|repeat split; assumption].
  assert (Hsil : is_silent (store_sample (fst s) x) = true).
  { unfold is_silent. rewrite max_amplitude_quiet. apply forallb_forall.
    intros y Hy. unfold frame_of in Hy.
    pose proof (Forall_take _ (Z.to_nat (buf_size_ (config (store_sample (fst s) x))))
                  _ Hacc1) as Htake.
    rewrite List.Forall_forall in Htake. apply Htake. exact Hy. }
  rewrite (process_frame_silent _ Hsil). cbn [fst snd]. split; [reflexivity|].
  split; [exact Hacc1|]. apply Forall_app. split; [exact Hrs|].
  repeat constructor.
Qed.

Lemma samples_quiet (l : list float) (s : Detector _ * list FrameReport) :
  forallb quiet_or_nan l = true ->
  Forall (fun y => quiet_or_nan y = true) (sample_accumulator_ (fst s)) ->
  Forall (fun r => fr_analysis r = None) (snd s) ->
  analysis_state (fst (fold_left accumulate l s)) = analysis_state (fst s) /\
  Forall (fun r => fr_analysis r = None) (snd (fold_left accumulate l s)).
Proof.
  revert s. induction l as [|x l IH]; intros s Hl Hacc Hrs; [split; [reflexivity|exact Hrs]|].
  cbn [forallb] in Hl. apply andb_true_iff in Hl as [Hx Hl].
  destruct (accumulate_quiet s x Hx Hacc Hrs) as (Hst & Hacc' & Hrs').
  cbn [fold_left]. destruct (IH _ Hl Hacc' Hrs') as [Hst' Hrs''].
  split; [rewrite Hst'; exact Hst|exact Hrs''].
Qed.

(** X9.  A stream in which every sample is below 0.01 in absolute value
    (or a NaN) never reaches the engine, however it is cut into buffers and
    whatever the buffer size: after the run the engine is as the constructor
    left it, the smoothed BPM is zero, no onset and no beat is counted, the
    histories and the log are empty, and every frame report is a skipped
    frame. *)
Theorem silent_stream_never_analysed (cfg : Config) (log_open : bool) (e : engine)
    (bs : list PwBuffer) :
  forallb quiet_or_nan (samples_of bs) = true ->
  analysis_state (detector_after cfg log_open e bs)
  = (e, F32.zero, [], [], 0, 0, []) /\
  Forall (fun r => fr_analysis r = None) (reports_after cfg log_open e bs).
Proof.
  intros Hq. unfold detector_after, reports_after.
  rewrite (process_stream_flat (new_detector cfg log_open e) bs eq_refl).
  unfold process_audio. cbn [should_quit_ new_detector].
  change (e, F32.zero, [], [], 0, 0, [])
    with (analysis_state (fst (new_detector cfg log_open e, @nil FrameReport))).
  apply samples_quiet; [exact Hq| |constructor].
  cbn [fst new_detector sample_accumulator_]. apply Forall_replicate. reflexivity.
Qed.

End SilentStream.

Lemma silent_stream_never_analysed_witness :
  forallb quiet_or_nan (samples_of [Samples quiet64; NoBuffer; Samples quiet64]) = true /\
  analysis_state
    (detector_after cfg64 true [onset_128] [Samples quiet64; NoBuffer; Samples quiet64])
  = ([onset_128], F32.zero, [], [], 0, 0, []).
Proof.
  assert (Hq : forallb quiet_or_nan
                 (samples_of [Samples quiet64; NoBuffer; Samples quiet64]) = true)
    by (vm_compute; reflexivity).
  split; [exact Hq|].
  exact (proj1 (silent_stream_never_analysed cfg64 true [onset_128]
                  [Samples quiet64; NoBuffer; Samples quiet64] Hq)).
Defined.

(** ** Status lines and log lines *)

Section Lines.

Context `{Aubio}.

Lemma process_frame_status (d : Detector _) :
  count_where is_status_output (stdout_ (fst (process_frame d)))
  = (count_where is_status_output (stdout_ d)
     + (if (wrap64 (frame_count_ d + 1) mod 200 =? 0)%Z then 1 else 0))%nat.
Proof.
  destruct (process_frame d) as [d' r] eqn:E. unfold process_frame in E.
  destruct (F32.ltb _ _).
  { inversion E; subst; clear E. unfold every_200. cbn [fst stdout_].
    destruct (_ =? 0); rewrite ?count_where_app; cbn; lia. }
  destruct (aubio_onset_do _ _) as [e3 onset_out].
  destruct (if enable_pitch_detection_ _ then _ else _) as [e4 pitch_hz].
  destruct (_ && _); inversion E; subst; clear E;
    unfold every_200; cbn [fst stdout_];
    destruct (_ =? 0); try destruct (enable_visual_feedback_ _);
    rewrite ?count_where_app; cbn; lia.
Qed.

Lemma div_200_succ (n : Z) :
  0 <= n -> (n + 1) / 200 = n / 200 + (if (n + 1) mod 200 =? 0 then 1 else 0).
Proof.
  intros Hn. destruct (Z.eqb_spec ((n + 1) mod 200) 0) as [Hz|Hz];
    Z.div_mod_to_equations; lia.
Qed.

(** X10.  One status line is written for every 200th full frame, a silence
    line or a debug line according to the gate: after a run of fewer than
    [2^64] frames the number of status lines on standard output is the
    number of frames divided by 200. *)
Theorem status_line_every_200_frames (cfg : Config) (log_open : bool) (e : engine)
    (bs : list PwBuffer) :
  Z.of_nat (length (reports_after cfg log_open e bs)) < 2 ^ 64 ->
  Z.of_nat (count_where is_status_output (stdout_ (detector_after cfg log_open e bs)))
  = Z.of_nat (length (reports_after cfg log_open e bs)) / 200.
Proof.
  intros Hlen.
  enough (Hinv : Z.of_nat (length (reports_after cfg log_open e bs)) < 2 ^ 64 ->
                 frame_count_ (detector_after cfg log_open e bs)
                 = Z.of_nat (length (reports_after cfg log_open e bs)) /\
                 Z.of_nat (count_where is_status_output
                             (stdout_ (detector_after cfg log_open e bs)))
                 = Z.of_nat (length (reports_after cfg log_open e bs)) / 200)
    by (apply Hinv; exact Hlen).
  clear Hlen.
  apply (run_pair_invariant
           (fun d rs =>
              Z.of_nat (length rs) < 2 ^ 64 ->
              frame_count_ d = Z.of_nat (length rs) /\
              Z.of_nat (count_where is_status_output (stdout_ d))
              = Z.of_nat (length rs) / 200)).
  - intros d rs x Hd. exact Hd.
  - intros d rs Hd Hlen. rewrite length_app in Hlen |- *. cbn [length] in Hlen |- *.
    destruct (Hd ltac:(lia)) as [Hf Hc].
    destruct (process_frame_counters d) as (Hf' & _).
    pose proof (process_frame_status d) as Hs.
    assert (Hw : wrap64 (frame_count_ d + 1) = Z.of_nat (length rs) + 1).
    { unfold wrap64. rewrite Hf. apply Z.mod_small. lia. }
    rewrite Hw in Hf', Hs. split; [rewrite Hf'; lia|].
    rewrite Hs, Nat2Z.inj_add, Hc.
    replace (Z.of_nat (length rs + 1)) with (Z.of_nat (length rs) + 1) by lia.
    rewrite (div_200_succ (Z.of_nat (length rs))) by lia.
    destruct (_ =? 0); reflexivity.
  - intros _. split; reflexivity.
Qed.

Lemma process_frame_pitch (d : Detector _) (a : Analysis) :
  fr_analysis (snd (process_frame d)) = Some a ->
  enable_pitch_detection_ (config d) = false ->
  an_pitch_hz a = F32.zero /\
  aubio_ (fst (process_frame d))
  = fst (aubio_onset_do (engine_after_tempo d) (frame_of d)).
Proof.
  unfold engine_after_tempo, frame_of.
  destruct (process_frame d) as [d' r] eqn:E. unfold process_frame in E.
  intros Ha Hp. rewrite Hp in E.
  destruct (F32.ltb _ _); [inversion E; subst; discriminate Ha|].
  destruct (aubio_onset_do _ _) as [e3 onset_out].
  destruct (_ && _); inversion E; subst; clear E; cbn in Ha |- *;
    injection Ha as <-; split; reflexivity.
Qed.

Lemma process_frame_log_lines (d : Detector _) :
  Forall (confident_beat_line (config d)) (log_file_ d) ->
  Forall (confident_beat_line (config d)) (log_file_ (fst (process_frame d))).
Proof.
  intros Hlog. destruct (is_silent d) eqn:E.
  - rewrite (process_frame_silent d E). exact Hlog.
  - destruct (process_frame_analysed d E)
      as (a & Ha & _ & _ & _ & _ & Hb & _ & _ & _ & _ & _ & _ & _ & Hl).
    rewrite Hl. apply Forall_app. split; [exact Hlog|].
    destruct (an_is_beat a) eqn:Hbeat; [|constructor].
    destruct (enable_logging_ (config d) && log_is_open d); [|constructor].
    repeat constructor; cbn [log_confidence log_amplitude log_pitch].
    + symmetry in Hb. apply andb_true_iff in Hb as [_ Hc]. exact Hc.
    + exact E.
    + intros Hp. apply (process_frame_pitch d a Ha Hp).
Qed.

(** X11.  Every line of the log comes from a confident, audible beat: after
    any run from the constructor, each log line has a confidence above 0.5
    and an amplitude that is not below 0.01, and its pitch is zero unless
    pitch detection was enabled. *)
Theorem log_lines_are_confident_beats (cfg : Config) (log_open : bool) (e : engine)
    (bs : list PwBuffer) :
  Forall (confident_beat_line cfg) (log_file_ (detector_after cfg log_open e bs)).
Proof.
  enough (Hinv : config (detector_after cfg log_open e bs) = cfg /\
                 Forall (confident_beat_line cfg)
                        (log_file_ (detector_after cfg log_open e bs)))
    by (destruct Hinv as [_ Hl]; exact Hl).
  apply (run_pair_invariant
           (fun d rs => config d = cfg /\ Forall (confident_beat_line cfg) (log_file_ d))).
  - intros d rs x Hd. exact Hd.
  - intros d rs [Hc Hl]. destruct (process_frame_fixed d) as (Hc' & _).
    split; [rewrite Hc'; exact Hc|].
    rewrite <- Hc in Hl |- *. apply process_frame_log_lines. exact Hl.
  - split; [reflexivity|constructor].
Qed.

End Lines.

Lemma status_line_every_200_frames_witness :
  Z.of_nat (count_where is_status_output
              (stdout_ (detector_after cfg64 true [onset_128]
                          (replicate 200 (Samples quiet64)))))
  = 1.
Proof.
  refine (status_line_every_200_frames cfg64 true [onset_128]
            (replicate 200 (Samples quiet64)) _).
  vm_compute. reflexivity.
Defined.

(** ** The range of the adaptive threshold *)

(** Two non-negative valid values of the same positive rank are equal. *)
Lemma ord32_inj (x y : spec_float) :
  nonneg32 x = true -> nonneg32 y = true ->
  0 < ord32 x -> ord32 x = ord32 y -> x = y.
Proof.
  intros Hx Hy Hpos Heq.
  destruct (nonneg32_cases x Hx) as [[sx ->]|[->|(mx & ex & -> & Vx)]];
    destruct (nonneg32_cases y Hy) as [[sy ->]|[->|(my & ey & -> & Vy)]];
    try (pose proof (finite_ord_strict _ _ Vx));
    try (pose proof (finite_ord_strict _ _ Vy));
    try reflexivity;
    try (cbn [ord32] in Hpos, Heq; change (2 ^ 23) with 8388608 in *; lia).
  - unfold ord32 at 1 in Heq. change (2 ^ 23) with 8388608 in *. lia.
  - unfold ord32 at 2 in Heq. change (2 ^ 23) with 8388608 in *. lia.
  - destruct (valid_finite_bounds _ _ _ Vx) as (Hex & Hmx & Hnx & _).
    destruct (valid_finite_bounds _ _ _ Vy) as (Hey & Hmy & Hny & _).
    unfold ord32 in Heq.
    change (2 ^ 23) with 8388608 in *. change (2 ^ 24) with 16777216 in *.
    assert (ex = ey) by lia. subst ey.
    assert (Zpos mx = Zpos my) by lia. congruence.
Qed.

Lemma nonneg32_intro (r : float) :
  F32.valid r = true -> F32.leb F32.zero r = true -> nonneg32 r = true.
Proof. intros V Z. unfold nonneg32. apply andb_true_iff. split; assumption. Qed.

Lemma adaptive_threshold_at_zero : adaptive_threshold F32.zero = F32.lit 15 100.
Proof. vm_compute. reflexivity. Qed.

Lemma adaptive_threshold_at_one : adaptive_threshold (F32.of_Z 1) = F32.lit 3 10.
Proof. vm_compute. reflexivity. Qed.

(** X12.  For every valid energy [r >= 0] the onset threshold is at least
    0.15, the value it takes at [r = 0], and it is exactly 0.30 as soon as
    [r >= 1]: beyond full-scale energy the threshold no longer adapts. *)
Theorem adaptive_threshold_range (r : float) :
  F32.valid r = true -> F32.leb F32.zero r = true ->
  adaptive_threshold F32.zero = F32.lit 15 100 /\
  F32.leb (F32.lit 15 100) (adaptive_threshold r) = true /\
  (F32.leb (F32.of_Z 1) r = true -> adaptive_threshold r = F32.lit 3 10).
Proof.
  intros V Z. pose proof (nonneg32_intro r V Z) as N.
  split; [exact adaptive_threshold_at_zero|]. split.
  - rewrite <- adaptive_threshold_at_zero.
    apply (adaptive_threshold_mono F32.zero r eq_refl N Z).
  - intros H1.
    assert (N1 : nonneg32 (F32.of_Z 1) = true) by reflexivity.
    destruct (adaptive_threshold_mono (F32.of_Z 1) r N1 N H1) as [Hlo _].
    destruct (adaptive_threshold_mono r r N N) as [_ Hhi].
    { rewrite (leb_ord r r N N). apply Z.leb_refl. }
    destruct (adaptive_threshold_ord r N) as [Nt _].
    rewrite adaptive_threshold_at_one, lit_030 in Hlo.
    assert (Nc : nonneg32 c030 = true) by reflexivity.
    rewrite (leb_ord _ _ Nc Nt) in Hlo. rewrite (leb_ord _ _ Nt Nc) in Hhi.
    apply Z.leb_le in Hlo. apply Z.leb_le in Hhi.
    rewrite lit_030. apply ord32_inj; [exact Nt|exact Nc| |lia].
    apply Z.lt_le_trans with (2 := Hlo). reflexivity.
Qed.

Lemma adaptive_threshold_range_witness :
  F32.valid (F32.of_Z 2) = true /\ F32.leb F32.zero (F32.of_Z 2) = true /\
  F32.leb (F32.lit 15 100) (adaptive_threshold (F32.of_Z 2)) = true.
Proof.
  split; [reflexivity|]. split; [reflexivity|].
  exact (proj1 (proj2 (adaptive_threshold_range (F32.of_Z 2) eq_refl eq_refl))).
Defined.

(** ** Division by one, and the variance of a window of one value *)

Lemma digits2_pos_shift (m : positive) (k : Z) (p : positive) :
  0 <= k -> Zpos p = Zpos m * 2 ^ k ->
  Zpos (digits2_pos p) = Zpos (digits2_pos m) + k.
Proof.
  intros Hk Hp. apply digits2_pos_unique. rewrite Hp.
  pose proof (digits2_pos_bounds m) as [Dlo Dhi].
  replace (Zpos (digits2_pos m) + k - 1) with (Zpos (digits2_pos m) - 1 + k) by lia.
  rewrite !Z.pow_add_r by lia.
  assert (0 < 2 ^ k) by (apply Z.pow_pos_nonneg; lia). nia.
Qed.

Lemma rne_exact (m k : Z) : 0 <= k -> rne (m * 2 ^ k) k = m.
Proof.
  intros Hk. replace k with (0 + k) at 2 by lia.
  rewrite rne_scale by lia.
  unfold rne. rewrite Z.pow_0_r, Z.mod_1_r, Z.div_1_r. reflexivity.
Qed.

(** A valid positive value written with a longer mantissa rounds to itself. *)
Lemma round_exact (m : positive) (e f : Z) (p : positive) :
  valid_binary 24 128 (S754_finite false m e) = true ->
  f <= e -> Zpos p = Zpos m * 2 ^ (e - f) ->
  binary_round_aux 24 128 false (Zpos p) f loc_Exact = S754_finite false m e.
Proof.
  intros V Hf Hp.
  destruct (valid_finite_bounds _ _ _ V) as (He & Hm & _ & Ht).
  assert (Hte : trunc_exp p f = e).
  { unfold trunc_exp in *. rewrite (digits2_pos_shift m (e - f) p) by lia.
    replace (Zpos (digits2_pos m) + (e - f) + f - 24)
      with (Zpos (digits2_pos m) + e - 24) by lia. exact Ht. }
  rewrite binary_round_aux_encode by lia.
  rewrite Hte, Hp, rne_exact by lia.
  unfold encode. change (2 ^ 24) with 16777216 in *.
  destruct (Z.eqb_spec (Zpos m) 0); [lia|].
  destruct (Z.ltb_spec (Zpos m) 16777216); [|lia].
  destruct (Z.leb_spec e 104); [|lia].
  rewrite Pos2Z.id. reflexivity.
Qed.

Lemma div_one (m : positive) (e : Z) :
  valid_binary 24 128 (S754_finite false m e) = true ->
  SFdiv 24 128 (S754_finite false m e) (F32.of_Z 1) = S754_finite false m e.
Proof.
  intros V. destruct (valid_finite_bounds _ _ _ V) as (He & Hm & _ & Ht).
  change (F32.of_Z 1) with (S754_finite false 8388608 (-23)).
  unfold SFdiv, SFdiv_core_binary.
  change (Zdigits2 (Zpos m)) with (Zpos (digits2_pos m)).
  change (Zdigits2 8388608) with 24.
  rewrite fexp32. unfold trunc_exp in Ht.
  set (f := Z.max (Zpos (digits2_pos m) + e - (24 + -23) - 24) (-149)).
  assert (Hf : f <= e) by lia.
  change (IntDef.Z.min f (e - -23)) with (Z.min f (e - -23)).
  replace (Z.min f (e - -23)) with f by lia.
  destruct (e - -23 - f) as [|s|s] eqn:Hs; [lia| |lia].
  change (IntDef.Z.shiftl (Zpos m) (Zpos s)) with (Z.shiftl (Zpos m) (Zpos s)).
  rewrite Z.shiftl_mul_pow2 by lia.
  assert (Hsplit : Zpos m * 2 ^ Zpos s = (Zpos m * 2 ^ (e - f)) * 8388608).
  { replace (Zpos s) with ((e - f) + 23) by lia.
    rewrite Z.pow_add_r by lia. change (2 ^ 23) with 8388608. ring. }
  assert (Hpos : 0 < Zpos m * 2 ^ (e - f)).
  { assert (0 < 2 ^ (e - f)) by (apply Z.pow_pos_nonneg; lia). nia. }
  change (IntDef.Z.div_eucl (Zpos m * 2 ^ Zpos s) 8388608)
    with (Z.div_eucl (Zpos m * 2 ^ Zpos s) 8388608).
  pose proof (Z.div_eucl_eq (Zpos m * 2 ^ Zpos s) 8388608 ltac:(lia)) as Hdiv.
  pose proof (Z.mod_pos_bound (Zpos m * 2 ^ Zpos s) 8388608 ltac:(lia)) as Hmod.
  unfold Z.modulo in Hmod.
  destruct (Z.div_eucl (Zpos m * 2 ^ Zpos s) 8388608) as [q r].
  cbn [snd] in Hmod.
  assert (r = 0 /\ q = Zpos m * 2 ^ (e - f)) as [-> ->] by lia.
  change (new_location 8388608 0) with loc_Exact. cbn [xorb].
  destruct (Zpos m * 2 ^ (e - f)) as [|p|p] eqn:Hp; [lia| |lia].
  apply (round_exact m e f p V Hf). symmetry. exact Hp.
Qed.

Lemma sub_self (s : bool) (m : positive) (e : Z) :
  SFsub 24 128 (S754_finite s m e) (S754_finite s m e) = S754_zero false.
Proof.
  unfold SFsub. rewrite Z.sub_diag. reflexivity.
Qed.

(** The average and the standard deviation of a window that holds one
    positive number: the number itself, and zero. *)
Lemma window_of_one (x : float) :
  F32.valid x = true -> F32.ltb F32.zero x = true -> is_number x = true ->
  get_average_bpm_of [x] = x /\ get_bpm_variance_of [x] = F32.zero.
Proof.
  intros V P N.
  destruct x as [s|s| |[|] m e]; try discriminate N; try discriminate P.
  unfold get_average_bpm_of, get_bpm_variance_of, sum_floats.
  cbn [fold_left length]. change (Z.of_nat 1) with 1.
  change (F32.add F32.zero (S754_finite false m e)) with (S754_finite false m e).
  unfold F32.div, F32.sub. change F32.prec with 24. change F32.emax with 128.
  rewrite (div_one m e V), sub_self. split; reflexivity.
Qed.

(** X13.  The first beat accepted after the stability window was empty is
    always reported stable, with a variance of exactly zero, whatever the
    tempo: the window then holds one value.  If the BPM history was empty
    too, the average BPM is the smoothed BPM itself. *)
Theorem first_beat_is_stable `{Aubio} (d : Detector _) (a : Analysis) :
  bpm_stability_ d = [] ->
  fr_analysis (snd (process_frame d)) = Some a -> an_is_beat a = true ->
  F32.valid (smoothed_bpm_ (fst (process_frame d))) = true ->
  F32.ltb F32.zero (smoothed_bpm_ (fst (process_frame d))) = true ->
  is_number (smoothed_bpm_ (fst (process_frame d))) = true ->
  bpm_stability_ (fst (process_frame d)) = [smoothed_bpm_ (fst (process_frame d))] /\
  an_beat a = Some (F32.zero, true) /\
  (recent_bpms_ d = [] ->
   get_average_bpm (fst (process_frame d)) = smoothed_bpm_ (fst (process_frame d))).
Proof.
  intros Hempty Ha Hbeat V P N.
  destruct (window_of_one _ V P N) as [Havg Hvar].
  destruct (is_silent d) eqn:E.
  { rewrite (process_frame_silent d E) in Ha. discriminate Ha. }
  destruct (process_frame_analysed d E)
    as (a' & Ha' & _ & _ & _ & _ & _ & Hsm & _ & _ & _ & Hr & Hst & Hb & _).
  rewrite Ha in Ha'. injection Ha' as <-.
  rewrite Hbeat in Hr, Hst, Hb. rewrite <- Hsm in Hr, Hst.
  rewrite Hempty in Hst. change (push_bounded STABILITY_WINDOW [] ?x) with [x] in Hst.
  split; [exact Hst|]. split.
  - rewrite Hb, Hst, Hvar. reflexivity.
  - intros Hrec. unfold get_average_bpm. rewrite Hr, Hrec.
    change (push_bounded BPM_HISTORY_SIZE [] ?x) with [x]. exact Havg.
Qed.

Lemma first_beat_is_stable_witness :
  bpm_stability_ (full_detector loud64 F32.zero [onset_128]) = [] /\
  fr_analysis (snd (process_frame (full_detector loud64 F32.zero [onset_128])))
  = Some analysis_128 /\
  an_beat analysis_128 = Some (F32.zero, true).
Proof.
  split; [reflexivity|].
  assert (Ha : fr_analysis (snd (process_frame (full_detector loud64 F32.zero [onset_128])))
               = Some analysis_128) by (vm_compute; reflexivity).
  split; [exact Ha|].
  refine (proj1 (proj2 (first_beat_is_stable
                          (full_detector loud64 F32.zero [onset_128]) analysis_128
                          eq_refl Ha eq_refl _ _ _)));
    vm_compute; reflexivity.
Defined.

(** ** Products with a constant and sums of positive values *)

Section MulConst.

Variable mk : positive.
Variable ek : Z.
Hypothesis mk_normal : 2 ^ 23 <= Zpos mk.

Lemma mul_const_finite (m : positive) (e : Z) :
  ek + e <= trunc_exp (mk * m) (ek + e) /\
  nonneg32 (SFmul 24 128 (S754_finite false mk ek) (S754_finite false m e)) = true /\
  ord32 (SFmul 24 128 (S754_finite false mk ek) (S754_finite false m e))
  = Z.min (round_ord (mk * m) (ek + e)) (255 * 2 ^ 23).
Proof.
  assert (Ht : ek + e <= trunc_exp (mk * m) (ek + e)).
  { unfold trunc_exp.
    assert (23 < Zpos (digits2_pos (mk * m))); [|lia].
    apply digits2_pos_gt; [lia|]. rewrite Pos2Z.inj_mul.
    change (2 ^ 23) with 8388608 in *. nia. }
  split; [exact Ht|].
  change (SFmul 24 128 (S754_finite false mk ek) (S754_finite false m e))
    with (binary_round_aux 24 128 false (Zpos (mk * m)) (ek + e) loc_Exact).
  apply round_nonneg_ord. exact Ht.
Qed.

Lemma mul_const_nonneg (r : spec_float) :
  nonneg32 r = true -> nonneg32 (SFmul 24 128 (S754_finite false mk ek) r) = true.
Proof.
  intros Hr. destruct (nonneg32_cases r Hr) as [[s ->]|[->|(m & e & -> & Hv)]].
  - destruct s; reflexivity.
  - reflexivity.
  - apply mul_const_finite.
Qed.

Lemma mul_const_mono (r1 r2 : spec_float) :
  nonneg32 r1 = true -> nonneg32 r2 = true -> ord32 r1 <= ord32 r2 ->
  ord32 (SFmul 24 128 (S754_finite false mk ek) r1)
  <= ord32 (SFmul 24 128 (S754_finite false mk ek) r2).
Proof.
  intros H1 H2 Ho.
  pose proof (ord32_nonneg _ (mul_const_nonneg r1 H1)) as O1.
  pose proof (ord32_nonneg _ (mul_const_nonneg r2 H2)) as O2.
  destruct (nonneg32_cases r1 H1) as [[s1 ->]|[->|(m1 & e1 & -> & V1)]].
  - destruct s1; simpl ord32 at 1; lia.
  - destruct (nonneg32_cases r2 H2) as [[s2 ->]|[->|(m2 & e2 & -> & V2)]].
    + unfold ord32 in Ho. change (2 ^ 23) with 8388608 in Ho. lia.
    + lia.
    + pose proof (finite_ord_strict _ _ V2). unfold ord32 at 1 in Ho.
      change (2 ^ 23) with 8388608 in *. lia.
  - destruct (nonneg32_cases r2 H2) as [[s2 ->]|[->|(m2 & e2 & -> & V2)]].
    + pose proof (finite_ord_strict _ _ V1). unfold ord32 at 2 in Ho.
      change (2 ^ 23) with 8388608 in *. lia.
    + change (ord32 (SFmul 24 128 (S754_finite false mk ek) (S754_infinity false)))
        with (255 * 2 ^ 23).
      lia.
    + destruct (mul_const_finite m1 e1) as (T1 & _ & ->).
      destruct (mul_const_finite m2 e2) as (T2 & _ & ->).
      apply Z.min_le_compat_r.
      apply (round_ord_mono _ _ _ _ (ek + Z.min e1 e2)); [lia|lia|exact T1|exact T2|].
      rewrite !Pos2Z.inj_mul.
      replace (ek + e1 - (ek + Z.min e1 e2)) with (e1 - Z.min e1 e2) by lia.
      replace (ek + e2 - (ek + Z.min e1 e2)) with (e2 - Z.min e1 e2) by lia.
      rewrite <- !Z.mul_assoc. apply Z.mul_le_mono_nonneg_l; [lia|].
      apply ord_le_value; try assumption; lia.
Qed.

End MulConst.



(** A non-negative valid value strictly between zero and infinity in rank
    is a valid positive finite value. *)
Lemma ord_finite (x : spec_float) :
  nonneg32 x = true -> 0 < ord32 x < 255 * 2 ^ 23 ->
  exists m e, x = S754_finite false m e /\
              valid_binary 24 128 (S754_finite false m e) = true.
Proof.
  intros Hx Ho.
  destruct (nonneg32_cases x Hx) as [[s ->]|[->|(m & e & -> & Hv)]].
  - simpl in Ho. lia.
  - simpl in Ho. lia.
  - exists m, e. split; [reflexivity|exact Hv].
Qed.

(** ** The smoothed BPM *)

Lemma ltb_nonneg_right (r1 r2 : float) :
  nonneg32 r1 = true -> SFltb r1 r2 = true -> SFleb (S754_zero false) r2 = true.
Proof.
  intros H1 Hlt.
  destruct (nonneg32_cases r1 H1) as [[s1 ->]|[->|(m1 & e1 & -> & _)]];
    destruct r2 as [[|]|[|]| |[|] m2 e2]; try reflexivity;
    unfold SFltb in Hlt; simpl in Hlt; discriminate Hlt.
Qed.

Lemma smoothing_constants :
  F32.lit 7 10 = S754_finite false 11744051 (-24) /\
  F32.lit 3 10 = S754_finite false 10066330 (-25) /\
  BPM_MIN = S754_finite false 15728640 (-18) /\
  BPM_MAX = S754_finite false 13107200 (-16).
Proof. repeat split; vm_compute; reflexivity. Qed.





(** X15.  From the initial smoothed BPM of zero, a first reading [c] inside
    the band (60, 200) is not taken over as it is: the smoothed BPM becomes
    [0.3f * c], a value below 60.  Only a reading outside the band
    replaces a zero smoothed BPM as it is. *)
Theorem first_reading_is_scaled (c : float) :
  F32.valid c = true ->
  F32.gtb c BPM_MIN = true -> F32.ltb c BPM_MAX = true ->
  smooth_bpm F32.zero c = (F32.lit 3 10 * c)%f32 /\
  F32.ltb (smooth_bpm F32.zero c) BPM_MIN = true /\
  F32.leb (F32.of_Z 18) (smooth_bpm F32.zero c) = true.
Proof.
  intros Vc Hc1 Hc2.
  assert (Nmin : nonneg32 BPM_MIN = true) by reflexivity.
  assert (Nmax : nonneg32 BPM_MAX = true) by reflexivity.
  assert (Nc : nonneg32 c = true).
  { apply nonneg32_intro; [exact Vc|]. exact (ltb_nonneg_right BPM_MIN c Nmin Hc1). }
  unfold smooth_bpm. rewrite Hc1, Hc2. cbn [andb].
  unfold F32.gtb, F32.ltb in Hc1, Hc2.
  rewrite (ltb_ord _ _ Nmin Nc) in Hc1. rewrite (ltb_ord _ _ Nc Nmax) in Hc2.
  apply Z.ltb_lt in Hc1. apply Z.ltb_lt in Hc2.
  destruct smoothing_constants as (-> & -> & _ & _).
  assert (K3 : 2 ^ 23 <= Zpos 10066330) by (change (2 ^ 23) with 8388608; lia).
  set (below := S754_finite false 13107199 (-16)).
  assert (Nb : nonneg32 below = true) by reflexivity.
  assert (Hb : ord32 c <= ord32 below).
  { change (ord32 below) with (ord32 BPM_MAX - 1). lia. }
  pose proof (mul_const_mono _ (-25) K3 _ _ Nmin Nc ltac:(lia)) as Lo.
  pose proof (mul_const_mono _ (-25) K3 _ _ Nc Nb Hb) as Hi.
  pose proof (mul_const_nonneg _ (-25) K3 _ Nc) as Np.
  change (F32.mul ?a c) with (SFmul 24 128 a c).
  set (p := SFmul 24 128 (S754_finite false 10066330 (-25)) c) in *.
  assert (Lo' : ord32 (F32.of_Z 18) <= ord32 p).
  { apply Z.le_trans with (2 := Lo). vm_compute. discriminate. }
  assert (Hi' : ord32 p < ord32 BPM_MIN).
  { apply Z.le_lt_trans with (1 := Hi). vm_compute. reflexivity. }
  assert (P18 : 0 < ord32 (F32.of_Z 18)) by (vm_compute; reflexivity).
  assert (Pmin : ord32 BPM_MIN < 255 * 2 ^ 23) by (vm_compute; reflexivity).
  destruct (ord_finite p Np ltac:(lia)) as (m & e & Ep & Vp).
  assert (Hsum : F32.add (F32.mul (S754_finite false 11744051 (-24)) F32.zero) p = p).
  { rewrite Ep. reflexivity. }
  rewrite Hsum. split; [reflexivity|]. split.
  - unfold F32.ltb. rewrite (ltb_ord _ _ Np Nmin). apply Z.ltb_lt. exact Hi'.
  - assert (N18 : nonneg32 (F32.of_Z 18) = true) by reflexivity.
    unfold F32.leb. rewrite (leb_ord _ _ N18 Np). apply Z.leb_le. exact Lo'.
Qed.

Lemma first_reading_is_scaled_witness :
  F32.ltb (smooth_bpm F32.zero (F32.of_Z 128)) BPM_MIN = true.
Proof.
  refine (proj1 (proj2 (first_reading_is_scaled (F32.of_Z 128) _ _ _)));
    vm_compute; reflexivity.
Defined.

(** ** The argument loop of [main], when it ends *)

Lemma settings_of_nil (cfg : Config) : settings_of [] cfg = cfg.
Proof.
  destruct cfg as [b l s p v]. unfold settings_of. cbn.
  rewrite !andb_true_r, orb_false_r. reflexivity.
Qed.

Lemma buffer_size_of_range (args : list string) (size : Z) :
  forallb accepted args = true -> 64 <= size <= 8192 ->
  64 <= buffer_size_of args size <= 8192.
Proof.
  revert size. induction args as [|a args IH]; intros size Hall Hs; [exact Hs|].
  cbn [forallb] in Hall. apply andb_true_iff in Hall as [Ha Hall].
  unfold buffer_size_of. cbn [fold_left]. apply (IH _ Hall).
  destruct (is_positional a) eqn:Hp; [|exact Hs].
  unfold accepted in Ha. rewrite Hp in Ha.
  destruct (positional_not_flag a Hp) as (Hh & E1 & E2 & E3 & E4).
  unfold is_switch in Ha. rewrite Hh, E1, E2, E3, E4 in Ha. cbn in Ha.
  destruct (stoul a) as [v| |]; try discriminate Ha.
  apply andb_true_iff in Ha as [Hlo Hhi]. lia.
Qed.

Ltac settle_flags :=
  unfold settings_of, has_flag, buffer_size_of;
  cbn [existsb fold_left is_positional Ascii.eqb Bool.eqb negb
       buf_size_ enable_logging_ enable_performance_stats_
       enable_pitch_detection_ enable_visual_feedback_ String.eqb];
  rewrite ?andb_false_r, ?orb_true_r; try reflexivity.

(** The loop, argument by argument: it ends with the settings of
    [settings_of] when every argument is accepted, and with an exit code
    and a message otherwise. *)
Lemma parse_args_outcome (args : list string) (cfg : Config) :
  if forallb accepted args
  then parse_args args cfg = (RunDetector (settings_of args cfg), [])
  else exists code out,
         parse_args args cfg = (Exit code, out) /\ (code = 0 \/ code = 1) /\ out <> [].
Proof.
  revert cfg. induction args as [|a args IH]; intros cfg.
  - cbn. rewrite settings_of_nil. reflexivity.
  - cbn [forallb parse_args]. unfold accepted at 1, is_switch.
    destruct (is_help a) eqn:Hh.
    { cbn. exists 0, [PrintUsage]. repeat split; [left; reflexivity|discriminate]. }
    assert (Hstep : forall cfg',
               settings_of args cfg' = settings_of (a :: args) cfg ->
               if forallb accepted args
               then parse_args args cfg' = (RunDetector (settings_of (a :: args) cfg), [])
               else exists code out,
                   parse_args args cfg' = (Exit code, out) /\
                   (code = 0 \/ code = 1) /\ out <> []).
    { intros cfg' Heq. specialize (IH cfg').
      destruct (forallb accepted args); [rewrite IH, Heq; reflexivity|exact IH]. }
    destruct (a =? "--no-log")%string eqn:E1.
    { apply String.eqb_eq in E1. subst a. cbn [negb andb orb]. apply Hstep. settle_flags. }
    destruct (a =? "--no-stats")%string eqn:E2.
    { apply String.eqb_eq in E2. subst a. cbn [negb andb orb]. apply Hstep. settle_flags. }
    destruct (a =? "--pitch")%string eqn:E3.
    { apply String.eqb_eq in E3. subst a. cbn [negb andb orb]. apply Hstep. settle_flags. }
    destruct (a =? "--no-visual")%string eqn:E4.
    { apply String.eqb_eq in E4. subst a. cbn [negb andb orb]. apply Hstep. settle_flags. }
    cbn [negb andb orb].
    destruct (is_positional a) eqn:Hp.
    + destruct (stoul a) as [v| |] eqn:Hv.
      * destruct (Z.ltb_spec (wrap32 v) 64) as [Hlo|Hlo].
        { replace (64 <=? wrap32 v) with false by (symmetry; apply Z.leb_gt; lia).
          cbn. exists 1, [ErrBufferRange].
          repeat split; [right; reflexivity|discriminate]. }
        destruct (Z.ltb_spec 8192 (wrap32 v)) as [Hhi|Hhi].
        { replace (wrap32 v <=? 8192) with false by (symmetry; apply Z.leb_gt; lia).
          rewrite andb_false_r. cbn. exists 1, [ErrBufferRange].
          repeat split; [right; reflexivity|discriminate]. }
        replace (64 <=? wrap32 v) with true by (symmetry; apply Z.leb_le; lia).
        replace (wrap32 v <=? 8192) with true by (symmetry; apply Z.leb_le; lia).
        cbn [negb andb orb]. apply Hstep.
        unfold settings_of, has_flag, buffer_size_of. cbn [existsb fold_left].
        rewrite Hp, Hv, E1, E2, E3, E4. reflexivity.
      * cbn. exists 1, [ErrInvalidBufferSize a].
        repeat split; [right; reflexivity|discriminate].
      * cbn. exists 1, [ErrInvalidBufferSize a].
        repeat split; [right; reflexivity|discriminate].
    + cbn. exists 1, [ErrUnknownOption a; PrintUsage].
      repeat split; [right; reflexivity|discriminate].
Qed.

(** X16.  [main] constructs the detector exactly when every argument is
    accepted.  The detector then gets: logging, statistics and visual
    feedback unless the matching [--no-...] switch occurs anywhere among the
    arguments, pitch detection exactly when [--pitch] occurs, and as buffer
    size the last positional argument, read modulo [2^32] and always between
    64 and 8192, or 128 when there is none; nothing is printed by the loop.
    Otherwise [main] returns 0 or 1 after printing a message. *)
Theorem main_constructs_detector (argv0 : string) (args : list string) :
  if forallb accepted args
  then main (argv0 :: args)
       = (RunDetector
            (mkConfig (buffer_size_of args 128)
                      (negb (has_flag "--no-log" args))
                      (negb (has_flag "--no-stats" args))
                      (has_flag "--pitch" args)
                      (negb (has_flag "--no-visual" args))), []) /\
       64 <= buffer_size_of args 128 <= 8192
  else exists code out,
         main (argv0 :: args) = (Exit code, out) /\ (code = 0 \/ code = 1) /\ out <> [].
Proof.
  unfold main. cbn [tail].
  pose proof (parse_args_outcome args (mkConfig 128 true true false true)) as Hout.
  destruct (forallb accepted args) eqn:Hall; [|exact Hout].
  split; [exact Hout|]. apply buffer_size_of_range; [exact Hall|lia].
Qed.

(** ** Text after the digits of a buffer size *)

Lemma read_digits_stops (ds : string) (c : ascii) (t : string) (acc : option Z) :
  all_digits ds = true -> digit_of c = None ->
  read_digits (String.append ds (String c t)) acc = read_digits ds acc.
Proof.
  intros Hds Hc. revert acc. induction ds as [|x ds IH]; intros acc.
  - cbn. rewrite Hc. reflexivity.
  - cbn in Hds |- *. destruct (digit_of x); [apply IH; exact Hds|discriminate Hds].
Qed.

(** A digit is no white space and no sign. *)
Lemma digit_first (x : ascii) (s : string) (dgt : Z) :
  digit_of x = Some dgt ->
  skip_spaces (String x s) = String x s /\
  is_positional (String x s) = true /\
  stoul (String x s)
  = match read_digits (String x s) None with
    | None => InvalidArgument
    | Some v => if ULONG_MAX <? v then OutOfRange else Parsed v
    end.
Proof.
  destruct x as [[|] [|] [|] [|] [|] [|] [|] [|]]; intros Hd;
    try discriminate Hd; repeat split; reflexivity.
Qed.

(** X17.  [main] does not check where [std::stoul] stopped reading: a
    positional argument made of digits followed by any other text is
    treated exactly like the digits alone, so [256abc] sets the buffer size
    to 256. *)
Theorem trailing_text_ignored (x : ascii) (ds : string) (c : ascii) (t : string)
    (rest : list string) (cfg : Config) (v : Z) :
  all_digits (String x ds) = true -> digit_of c = None ->
  stoul (String x ds) = Parsed v ->
  stoul (String.append (String x ds) (String c t)) = Parsed v /\
  accepted (String.append (String x ds) (String c t)) = accepted (String x ds) /\
  parse_args ((String.append (String x ds) (String c t)) :: rest) cfg
  = parse_args (String x ds :: rest) cfg.
Proof.
  intros Hds Hc Hv.
  assert (Hx : exists dgt, digit_of x = Some dgt).
  { cbn in Hds. destruct (digit_of x) as [dgt|]; [exists dgt; reflexivity|discriminate]. }
  destruct Hx as [dgt Hx].
  change (String.append (String x ds) (String c t)) with (String x (String.append ds (String c t))).
  destruct (digit_first x ds dgt Hx) as (_ & Hp1 & Hs1).
  destruct (digit_first x (String.append ds (String c t)) dgt Hx) as (_ & Hp2 & Hs2).
  change (String x (String.append ds (String c t))) with (String.append (String x ds) (String c t)) in Hs2.
  rewrite (read_digits_stops _ c t None Hds Hc), <- Hs1, Hv in Hs2.
  change (String.append (String x ds) (String c t)) with (String x (String.append ds (String c t))) in Hs2.
  split; [exact Hs2|].
  destruct (positional_not_flag _ Hp1) as (Hh1 & A1 & A2 & A3 & A4).
  destruct (positional_not_flag _ Hp2) as (Hh2 & B1 & B2 & B3 & B4).
  split.
  - unfold accepted, is_switch.
    rewrite Hh1, Hh2, A1, A2, A3, A4, B1, B2, B3, B4, Hp1, Hp2, Hs2, Hv. reflexivity.
  - cbn [parse_args].
    rewrite Hh1, Hh2, A1, A2, A3, A4, B1, B2, B3, B4, Hp1, Hp2, Hs2, Hv. reflexivity.
Qed.

Lemma trailing_text_ignored_witness :
  all_digits "256" = true /\ digit_of "a" = None /\
  parse_args ["256abc"; "--pitch"]%string (mkConfig 128 true true false true)
  = parse_args ["256"; "--pitch"]%string (mkConfig 128 true true false true).
Proof.
  split; [reflexivity|]. split; [reflexivity|].
  exact (proj2 (proj2 (trailing_text_ignored "2" "56" "a" "bc" ["--pitch"%string]
                         (mkConfig 128 true true false true) 256
                         eq_refl eq_refl eq_refl))).
Defined.

(** ** Processing times and the final statistics *)

(** A positive integer converts to a positive binary32 number or to
    positive infinity, never to zero. *)
Lemma of_Z_positive (p : positive) :
  (exists m e, F32.of_Z (Zpos p) = S754_finite false m e) \/
  F32.of_Z (Zpos p) = S754_infinity false.
Proof.
  unfold F32.of_Z, binary_normalize, binary_round.
  change F32.prec with 24. change F32.emax with 128.
  rewrite fexp32.
  pose proof (digits2_pos_bounds p) as [Dlo Dhi].
  assert (Hd : 0 < Zpos (digits2_pos p)) by lia.
  set (f := Z.max (Zpos (digits2_pos p) + 0 - 24) (-149)).
  assert (Hf : f = Zpos (digits2_pos p) - 24) by lia.
  assert (Hshape : forall q e, e <= trunc_exp q e -> -149 < trunc_exp q e ->
             (exists m e', binary_round_aux 24 128 false (Zpos q) e loc_Exact
                           = S754_finite false m e') \/
             binary_round_aux 24 128 false (Zpos q) e loc_Exact = S754_infinity false).
  { intros q e Ht Hn. rewrite (binary_round_aux_encode q e Ht).
    destruct (rne_range q e Ht) as [[Rlo Rhi] Rn]. specialize (Rn Hn).
    unfold encode. change (2 ^ 23) with 8388608 in *. change (2 ^ 24) with 16777216 in *.
    destruct (Z.eqb_spec (rne (Zpos q) (trunc_exp q e - e)) 0); [lia|].
    destruct (_ <? 16777216); destruct (_ <=? 104); eauto. }
  destruct (shl_align p 0 f) as [mz ez] eqn:Hal.
  destruct (Z.le_gt_cases f 0) as [Hle|Hgt].
  - pose proof (shl_align_value p 0 f Hle) as Hval. rewrite Hal in Hval. cbn [fst] in Hval.
    assert (Hez : ez = f).
    { unfold shl_align in Hal. destruct (f - 0) eqn:E; inversion Hal; lia. }
    subst ez.
    assert (Hdz : Zpos (digits2_pos mz) = Zpos (digits2_pos p) + (0 - f))
      by (apply digits2_pos_shift; [lia|exact Hval]).
    apply Hshape; unfold trunc_exp; lia.
  - assert (Heq : (mz, ez) = (p, 0)).
    { unfold shl_align in Hal. destruct (f - 0) eqn:E; inversion Hal; try reflexivity. lia. }
    inversion Heq; subst. apply Hshape; unfold trunc_exp; lia.
Qed.

Section Telemetry.

Context `{Aubio}.

Lemma process_audio_settings (d : Detector _) (b : PwBuffer) :
  should_quit_ (fst (process_audio d b)) = should_quit_ d /\
  config (fst (process_audio d b)) = config d.
Proof.
  apply (process_audio_preserves
           (fun d' => should_quit_ d' = should_quit_ d /\ config d' = config d)
           (fun _ => True)).
  - intros d' x Hd'. exact Hd'.
  - intros d' [Hq Hc]. destruct (process_frame_fixed d') as (Hc' & Hq' & _).
    rewrite Hc', Hq'. repeat split; assumption.
  - split; reflexivity.
Qed.

Lemma timed_stream_detector (bs : list (PwBuffer * F64.float)) (d : Detector _)
    (ts : list F64.float) (rs : list FrameReport) :
  fst (fold_left
         (fun '(d, process_times) '(b, process_time) =>
            (fst (process_audio d b), track_performance d b process_times process_time))
         bs (d, ts))
  = fst (fold_left
           (fun s b => let '(d', rs) := process_audio (fst s) b in (d', snd s ++ rs))
           (map fst bs) (d, rs)).
Proof.
  revert d ts rs. induction bs as [|[b t] bs IH]; intros d ts rs; [reflexivity|].
  cbn [fold_left map fst snd].
  destruct (process_audio d b) as [d' rs'] eqn:E. cbn [fst]. apply IH.
Qed.

Lemma timed_stream_times (bs : list (PwBuffer * F64.float)) (d : Detector _)
    (ts : list F64.float) :
  should_quit_ d = false -> (length ts <= 1000)%nat ->
  snd (fold_left
         (fun '(d, process_times) '(b, process_time) =>
            (fst (process_audio d b), track_performance d b process_times process_time))
         bs (d, ts))
  = if enable_performance_stats_ (config d)
    then take 1000 (ts ++ sample_times bs) else ts.
Proof.
  revert d ts. induction bs as [|[b t] bs IH]; intros d ts Hq Hlen.
  - cbn. rewrite app_nil_r, take_ge by lia. destruct (enable_performance_stats_ _); reflexivity.
  - cbn [fold_left].
    destruct (process_audio_settings d b) as [Hq' Hc'].
    rewrite IH; [|rewrite Hq'; exact Hq|].
    + rewrite Hc'. unfold track_performance. rewrite Hq.
      destruct (enable_performance_stats_ (config d)) eqn:Hs.
      * destruct b as [| |l]; cbn [sample_times omap]; try reflexivity.
        destruct (Nat.ltb_spec (length ts) 1000) as [Hlt|Hge].
        -- rewrite <- app_assoc. reflexivity.
        -- rewrite !take_app_le by lia. reflexivity.
      * destruct b as [| |l]; reflexivity.
    + unfold track_performance. rewrite Hq.
      destruct b as [| |l]; try exact Hlen.
      destruct (enable_performance_stats_ (config d)); [|exact Hlen].
      destruct (Nat.ltb_spec (length ts) 1000); [rewrite length_app; simpl; lia|exact Hlen].
Qed.

(** X18.  The processing times kept by a run are those of its first 1000
    callbacks that carried samples, in order, when statistics are enabled,
    and none otherwise: later callbacks are not measured, and the detector
    itself works as in an untimed run. *)
Theorem process_times_are_first_1000 (cfg : Config) (log_open : bool) (e : engine)
    (bs : list (PwBuffer * F64.float)) :
  fst (timed_stream (new_detector cfg log_open e) bs)
  = detector_after cfg log_open e (map fst bs) /\
  snd (timed_stream (new_detector cfg log_open e) bs)
  = (if enable_performance_stats_ cfg then take 1000 (sample_times bs) else []) /\
  (length (snd (timed_stream (new_detector cfg log_open e) bs)) <= 1000)%nat.
Proof.
  assert (Ht : snd (timed_stream (new_detector cfg log_open e) bs)
               = if enable_performance_stats_ cfg then take 1000 (sample_times bs) else []).
  { unfold timed_stream. rewrite timed_stream_times by (cbn; try reflexivity; lia).
    reflexivity. }
  split; [|split; [exact Ht|]].
  - unfold timed_stream, detector_after, process_stream. apply timed_stream_detector.
  - rewrite Ht. destruct (enable_performance_stats_ cfg); [|simpl; lia].
    rewrite length_take. lia.
Qed.

(** X19.  The detection rate of a run that is stopped within its first
    second: the beat count is divided by zero whole seconds, so the
    statistics show an infinite rate when a beat was counted and a NaN when
    none was. *)
Theorem zero_second_rate (d : Detector _) (process_times : list F64.float) :
  enable_performance_stats_ (config d) = true ->
  0 < frame_count_ d -> 0 <= total_beats_ d ->
  In (StatRate (if total_beats_ d =? 0 then S754_nan else S754_infinity false))
     (print_final_stats d process_times 0).
Proof.
  intros Hs Hf Hb. unfold print_final_stats. rewrite Hs. cbn [negb].
  replace (0 <? frame_count_ d) with true by (symmetry; apply Z.ltb_lt; exact Hf).
  apply in_or_app. right. apply in_or_app. left. left. f_equal.
  destruct (total_beats_ d) as [|p|p]; [reflexivity| |lia].
  change (Zpos p =? 0) with false. cbv iota.
  destruct (of_Z_positive p) as [(m & e' & ->)| ->]; reflexivity.
Qed.

(** X20.  The final statistics of a run: nothing is printed when
    statistics are disabled; otherwise the line with the final average BPM
    is printed exactly when the run accepted at least one beat, and the
    average it shows is that of the last 20 accepted smoothed BPMs. *)
Theorem final_average_needs_a_beat (cfg : Config) (log_open : bool) (e : engine)
    (bs : list PwBuffer) (process_times : list F64.float) (seconds : Z) :
  existsb is_avg_bpm_line
    (print_final_stats (detector_after cfg log_open e bs) process_times seconds)
  = enable_performance_stats_ cfg
    && (0 <? count_where is_beat_report (reports_after cfg log_open e bs))%nat /\
  (length (print_final_stats (detector_after cfg log_open e bs) process_times seconds)
   =? 0)%nat
  = negb (enable_performance_stats_ cfg).
Proof.
  destruct (histories_share_beats cfg log_open e bs)
    as (Hcfg & _ & xs & Hn & Hr & _).
  unfold print_final_stats. rewrite Hcfg.
  destruct (enable_performance_stats_ cfg); cbn [negb andb].
  2: { split; reflexivity. }
  split.
  - rewrite !existsb_app. rewrite <- Hn, Hr, push_bounded_run.
    assert (Hhead : existsb is_avg_bpm_line
                      [StatHeader; StatRuntime seconds;
                       StatBeats (total_beats_ (detector_after cfg log_open e bs));
                       StatFrames (frame_count_ (detector_after cfg log_open e bs))]
                    = false) by reflexivity.
    rewrite Hhead. cbn [orb].
    assert (Hrate : forall l, existsb is_avg_bpm_line
                      (if 0 <? frame_count_ (detector_after cfg log_open e bs)
                       then [StatRate l] else []) = false)
      by (intros l; destruct (0 <? _); reflexivity).
    rewrite Hrate. cbn [orb].
    assert (Htimes : existsb is_avg_bpm_line
                       match process_times with
                       | [] => []
                       | t :: ts =>
                           [StatAvgTime
                              (F64.div (fold_left F64.add process_times F64.zero)
                                       (F64.of_Z (Z.of_nat (length process_times))));
                            StatMaxTime (max_element t ts);
                            StatMinTime (min_element t ts)]
                       end = false)
      by (destruct process_times; reflexivity).
    rewrite Htimes. cbn [orb].
    destruct xs as [|x xs]; [reflexivity|].
    destruct (drop (length (x :: xs) - BPM_HISTORY_SIZE) (x :: xs)) as [|y ys] eqn:Hd.
    + apply (f_equal length) in Hd. rewrite length_drop in Hd.
      unfold BPM_HISTORY_SIZE in Hd. simpl in Hd. lia.
    + reflexivity.
  - reflexivity.
Qed.

End Telemetry.

Lemma zero_second_rate_witness :
  In (StatRate S754_nan)
     (print_final_stats (fst (process_frame (full_detector quiet64 F32.zero []))) [] 0).
Proof.
  apply (zero_second_rate (fst (process_frame (full_detector quiet64 F32.zero []))) []);
    [reflexivity|reflexivity|vm_compute; discriminate].
Defined.

(** ** The cut of the stream into buffers *)

Section Chunking.

Context `{Aubio}.

Lemma timed_stream_stopped (d : Detector _) (bs : list (PwBuffer * F64.float)) :
  should_quit_ d = true -> timed_stream d bs = (d, []).
Proof.
  intros Hq. unfold timed_stream. induction bs as [|[b t] bs IH]; [reflexivity|].
  cbn [fold_left]. cbv beta iota. unfold process_audio, track_performance.
  rewrite Hq. exact IH.
Qed.

(** X1.  How the audio source cuts the sample stream into buffers matters
    to one member only.  A run of the callback over any sequence of
    buffers, empty deliveries included, leaves the frame reports and every
    member the callback works on (the accumulator, the engine, the smoothed
    BPM, the histories, the counters, the output and the log) as one call on
    all the samples at once does.  The processing times are the exception:
    one is recorded for each callback that carried samples, the first 1000
    of them, so their number follows the cut. *)
Theorem chunking_changes_only_process_times (d : Detector _)
    (bs : list (PwBuffer * F64.float)) :
  process_stream d (map fst bs) = process_audio d (Samples (samples_of (map fst bs))) /\
  fst (timed_stream d bs) = fst (process_audio d (Samples (samples_of (map fst bs)))) /\
  snd (timed_stream d bs)
  = (if should_quit_ d then []
     else if enable_performance_stats_ (config d) then take 1000 (sample_times bs)
          else []).
Proof.
  assert (Hflat : process_stream d (map fst bs)
                  = process_audio d (Samples (samples_of (map fst bs)))).
  { destruct (should_quit_ d) eqn:Hq.
    - rewrite (process_stream_stopped d _ Hq). unfold process_audio. rewrite Hq.
      reflexivity.
    - apply process_stream_flat. exact Hq. }
  split; [exact Hflat|]. split.
  - rewrite <- Hflat. unfold timed_stream, process_stream. apply timed_stream_detector.
  - destruct (should_quit_ d) eqn:Hq.
    + rewrite (timed_stream_stopped d bs Hq). reflexivity.
    + unfold timed_stream. rewrite timed_stream_times by (try exact Hq; simpl; lia).
      reflexivity.
Qed.

End Chunking.

(** The same 128 samples in two buffers and in one: the detector ends the
    same, two processing times are recorded in the first case and one in
    the second. *)
Example two_buffers_record_two_times :
  fst (timed_stream (new_detector cfg64 true [onset_128; onset_128])
         [(Samples loud64, F64.of_Z 1); (Samples loud64, F64.of_Z 2)])
  = fst (timed_stream (new_detector cfg64 true [onset_128; onset_128])
           [(Samples (loud64 ++ loud64), F64.of_Z 3)]) /\
  snd (timed_stream (new_detector cfg64 true [onset_128; onset_128])
         [(Samples loud64, F64.of_Z 1); (Samples loud64, F64.of_Z 2)])
  = [F64.of_Z 1; F64.of_Z 2] /\
  snd (timed_stream (new_detector cfg64 true [onset_128; onset_128])
         [(Samples (loud64 ++ loud64), F64.of_Z 3)])
  = [F64.of_Z 3].
Proof. vm_compute. repeat split; reflexivity. Qed.

(** ** Start-up and shutdown *)

Section Shutdown.

Import Lifecycle.

(** The paths through [initialize] and [setup_stream], one failing step
    after the other. *)
Ltac each_path env cfg finish :=
  destruct env as [a b c d e f g h i j k l];
  destruct cfg as [bs lg st pt vs];
  destruct lg, a;
    (destruct b; [|finish]);
    (destruct c; [|finish]);
    (destruct d; [|finish]);
    (destruct e; [|finish]);
    (destruct f, g; [|finish|finish|finish]);
    (destruct h; [|finish]);
    (destruct pt; [destruct i, j; [|finish|finish|finish]|]);
    (destruct k; [|finish]);
    destruct l; finish.

(** X21.  Whatever step of the start-up fails, every object that was created
    is released exactly once by the destructor, nothing is released that
    was not created, no member holds an object afterwards, and the releases
    come in the order of [cleanup]: log file, stream, core, context, main
    loop, then the aubio objects. *)
Theorem every_resource_released (cfg : Config) (env : Env) :
  (forall r : Resource,
     count_event (Released r) (events cfg env)
     = count_event (Acquired r) (events cfg env) /\
     (count_event (Acquired r) (events cfg env) <= 1)%nat /\
     handles_after cfg env r = false) /\
  releases (events cfg env)
  = List.filter (fun r => (0 <? count_event (Acquired r) (events cfg env))%nat)
                cleanup_order.
Proof.
  unfold events, handles_after.
  each_path env cfg
    ltac:(split; [intros r; destruct st, r; vm_compute; repeat split; lia
                 |destruct st; vm_compute; reflexivity]).
Qed.

(** X22.  The constructor drops the result of [initialize]: [run] enters the
    PipeWire main loop exactly when the main loop object could be created,
    also when a later step failed and [initialize] returned false (which it
    does unless every step succeeds), and [main] returns 0 in every case. *)
Theorem run_ignores_initialize (cfg : Config) (env : Env) :
  snd (initialize cfg env) = all_ok cfg env /\
  count_event MainLoopRun (events cfg env)
  = (if pw_main_loop_new_ok env then 1%nat else 0%nat) /\
  count_event (Failed NoMainLoop) (events cfg env)
  = (if pw_main_loop_new_ok env then 0%nat else 1%nat) /\
  exit_code cfg env = 0.
Proof.
  unfold events, exit_code.
  each_path env cfg ltac:(destruct st; vm_compute; repeat split; reflexivity).
Qed.

End Shutdown.

(** ** Rounding from any location, and the beat bar *)

Lemma shr_m_iter (k : nat) (m : Z) (r s : bool) :
  0 <= m ->
  shr_m (Nat.iter k shr_1 (Build_shr_record m r s)) = m / 2 ^ Z.of_nat k.
Proof.
  intros Hm. induction k as [|k IH].
  - simpl. rewrite Z.div_1_r. reflexivity.
  - change (Nat.iter (S k) shr_1 (Build_shr_record m r s))
      with (shr_1 (Nat.iter k shr_1 (Build_shr_record m r s))).
    destruct (Nat.iter k shr_1 (Build_shr_record m r s)) as [m' r' s'].
    cbn [shr_m] in IH. subst m'.
    assert (Hp : 0 < 2 ^ Z.of_nat k) by (apply Z.pow_pos_nonneg; lia).
    rewrite shr_1_nonneg by (apply Z.div_pos; lia). cbn [shr_m].
    rewrite Nat2Z.inj_succ, Z.pow_succ_r, Z.div_div by lia.
    f_equal. lia.
Qed.

Lemma shr_any (q e n : Z) (loc : location) :
  0 <= q -> 0 <= n ->
  shr_m (fst (shr (shr_record_of_loc q loc) e n)) = q / 2 ^ n /\
  snd (shr (shr_record_of_loc q loc) e n) = e + n.
Proof.
  intros Hq Hn. destruct n as [|k|k]; [| |lia].
  - cbn [shr fst snd]. rewrite Z.pow_0_r, Z.div_1_r.
    split; [destruct loc as [|[| |]]; reflexivity|lia].
  - cbn [shr fst snd]. split; [|reflexivity].
    rewrite iter_pos_nat.
    replace (Zpos k) with (Z.of_nat (Pos.to_nat k)) by lia.
    destruct loc as [|[| |]]; apply shr_m_iter; exact Hq.
Qed.

Lemma round_nearest_even_range (m : Z) (loc : location) :
  m <= round_nearest_even m loc <= m + 1.
Proof.
  destruct loc as [|[| |]]; cbn [round_nearest_even]; try lia.
  destruct (IntDef.Z.even m); lia.
Qed.

(** The rounded mantissa is at most [2^24], and at least [2^23] above the
    subnormal exponent, whichever way the quotient is rounded. *)
Lemma quotient_range (q e k : Z) :
  0 <= q ->
  e <= Z.max (Zdigits2 q + e - 24) (-149) ->
  q / 2 ^ (Z.max (Zdigits2 q + e - 24) (-149) - e) <= k
  <= q / 2 ^ (Z.max (Zdigits2 q + e - 24) (-149) - e) + 1 ->
  0 <= k <= 2 ^ 24 /\
  (-149 < Z.max (Zdigits2 q + e - 24) (-149) -> 2 ^ 23 <= k).
Proof.
  intros Hq Ht [Rlo Rhi].
  destruct q as [|p|p]; [| |lia].
  - cbn [Zdigits2] in *. rewrite Z.div_0_l in Rlo, Rhi
      by (apply Z.pow_nonzero; lia).
    change (2 ^ 24) with 16777216. split; [lia|]. lia.
  - cbn [Zdigits2] in *.
    pose proof (digits2_pos_bounds p) as [Dlo Dhi].
    set (n := Z.max (Zpos (digits2_pos p) + e - 24) (-149) - e) in *.
    assert (Hn : 0 <= n) by lia.
    assert (Hpn : 0 < 2 ^ n) by (apply Z.pow_pos_nonneg; lia).
    assert (Hquo : 0 <= Zpos p / 2 ^ n < 2 ^ 24).
    { split; [apply Z.div_pos; lia|].
      apply Z.div_lt_upper_bound; [lia|].
      rewrite <- Z.pow_add_r by lia.
      apply Z.lt_le_trans with (1 := Dhi). apply Z.pow_le_mono_r; lia. }
    split; [lia|]. intros Hnorm.
    assert (Hn' : n = Zpos (digits2_pos p) - 24) by lia.
    apply Z.le_trans with (2 := Rlo).
    apply Z.div_le_lower_bound; [lia|].
    rewrite <- Z.pow_add_r by lia.
    replace (n + 23) with (Zpos (digits2_pos p) - 1) by lia. exact Dlo.
Qed.

(** The rounding of a non-negative mantissa from any location is a valid
    non-negative binary32 value. *)
Lemma round_any_nonneg (q e : Z) (loc : location) :
  0 <= q ->
  e <= Z.max (Zdigits2 q + e - 24) (-149) ->
  nonneg32 (binary_round_aux 24 128 false q e loc) = true.
Proof.
  intros Hq Ht.
  set (t := Z.max (Zdigits2 q + e - 24) (-149)) in *.
  destruct (shr_any q e (t - e) loc Hq ltac:(lia)) as [Hm He].
  pose proof (round_nearest_even_range (q / 2 ^ (t - e))
                (loc_of_shr_record (fst (shr (shr_record_of_loc q loc) e (t - e)))))
    as Hk.
  destruct (quotient_range q e _ Hq Ht Hk) as [[Rlo Rhi] Rnorm].
  fold t in Rnorm.
  unfold binary_round_aux, shr_fexp. rewrite fexp32. fold t.
  destruct (shr (shr_record_of_loc q loc) e (t - e)) as [mrs' e'].
  cbn [fst snd] in Hm, He, Hk, Rlo, Rhi, Rnorm. rewrite Hm. subst e'.
  replace (e + (t - e)) with t by lia.
  set (k := round_nearest_even (q / 2 ^ (t - e)) (loc_of_shr_record mrs')) in *.
  assert (Hge : -149 <= t) by (unfold t; lia).
  clearbody k. clear Hm Hk mrs'.
  enough (Henc : (let '(mrs'', e'') :=
                    shr (shr_record_of_loc k loc_Exact) t
                        (fexp 24 128 (Zdigits2 k + t) - t) in
                  match shr_m mrs'' with
                  | 0 => S754_zero false
                  | Zpos m => if e'' <=? 128 - 24 then S754_finite false m e''
                               else S754_infinity false
                  | Zneg _ => S754_nan
                  end) = encode t k).
  { rewrite Henc. apply encode_ord; [exact Hge|split; assumption|exact Rnorm]. }
  rewrite fexp32. unfold encode.
  destruct k as [|p1|p1]; [| |lia].
  - cbn [Zdigits2 Z.eqb]. unfold shr, shr_record_of_loc.
    destruct (Z.max (0 + t - 24) (-149) - t) eqn:En; try lia; reflexivity.
  - cbn [Zdigits2]. change (Zpos p1 =? 0) with false. cbv iota.
    pose proof (digits2_pos_bounds p1) as [Dlo Dhi].
    destruct (Z.ltb_spec (Zpos p1) (2 ^ 24)) as [Hlt|Hge'].
    + assert (Hd : Zpos (digits2_pos p1) <= 24).
      { assert (Zpos (digits2_pos p1) - 1 < 24); [|lia].
        apply (Z.pow_lt_mono_r_iff 2); lia. }
      assert (Hn2 : Z.max (Zpos (digits2_pos p1) + t - 24) (-149) - t = 0).
      { destruct (Z.eq_dec t (-149)) as [->|Hne]; [lia|].
        assert (Zpos (digits2_pos p1) = 24); [|lia].
        apply digits2_pos_unique. split; [apply Rnorm; lia|exact Hlt]. }
      rewrite Hn2. unfold shr, shr_record_of_loc. cbn [shr_m].
      change (128 - 24) with 104. rewrite Pos2Z.id. reflexivity.
    + assert (Hp1 : Zpos p1 = 2 ^ 24) by lia.
      assert (Hp1' : p1 = Z.to_pos (2 ^ 24)) by (rewrite <- Hp1; reflexivity).
      subst p1.
      assert (Hn2 : Z.max (Zpos (digits2_pos (Z.to_pos (2 ^ 24))) + t - 24) (-149) - t
                    = 1).
      { change (Zpos (digits2_pos (Z.to_pos (2 ^ 24)))) with 25. lia. }
      rewrite Hn2. unfold shr, shr_record_of_loc.
      change (128 - 24) with 104. reflexivity.
Qed.

(** A valid positive value divided by [20.0f] is a valid non-negative
    value. *)
Lemma div_20_nonneg (m : positive) (e : Z) :
  valid_binary 24 128 (S754_finite false m e) = true ->
  nonneg32 (SFdiv 24 128 (S754_finite false m e) (F32.of_Z 20)) = true.
Proof.
  intros V. destruct (valid_finite_bounds _ _ _ V) as (He & Hm & _ & Ht).
  change (F32.of_Z 20) with (S754_finite false 10485760 (-19)).
  unfold SFdiv, SFdiv_core_binary.
  change (Zdigits2 (Zpos m)) with (Zpos (digits2_pos m)).
  change (Zdigits2 10485760) with 24.
  rewrite fexp32. unfold trunc_exp in Ht.
  pose proof (digits2_pos_bounds m) as [Dlo Dhi].
  set (f := Z.max (Zpos (digits2_pos m) + e - (24 + -19) - 24) (-149)).
  assert (Hf : f <= e) by lia.
  change (IntDef.Z.min f (e - -19)) with (Z.min f (e - -19)).
  replace (Z.min f (e - -19)) with f by lia.
  destruct (e - -19 - f) as [|s|s] eqn:Hs; [lia| |lia].
  change (IntDef.Z.shiftl (Zpos m) (Zpos s)) with (Z.shiftl (Zpos m) (Zpos s)).
  rewrite Z.shiftl_mul_pow2 by lia.
  change (IntDef.Z.div_eucl (Zpos m * 2 ^ Zpos s) 10485760)
    with (Z.div_eucl (Zpos m * 2 ^ Zpos s) 10485760).
  assert (Hps : 0 < 2 ^ Zpos s) by (apply Z.pow_pos_nonneg; lia).
  pose proof (Z.div_eucl_eq (Zpos m * 2 ^ Zpos s) 10485760 ltac:(lia)) as Hdiv.
  pose proof (Z.mod_pos_bound (Zpos m * 2 ^ Zpos s) 10485760 ltac:(lia)) as Hmod.
  unfold Z.modulo in Hmod.
  destruct (Z.div_eucl (Zpos m * 2 ^ Zpos s) 10485760) as [q r].
  cbn [xorb]. 
  assert (Hq : 0 <= q) by nia.
  apply round_any_nonneg; [exact Hq|].
  destruct (Z.eq_dec f (-149)) as [Hsub|Hnorm]; [lia|].
  assert (Hsd : Zpos s = 48 - Zpos (digits2_pos m)) by lia.
  assert (H47 : 2 ^ 47 <= Zpos m * 2 ^ Zpos s).
  { replace 47 with (Zpos (digits2_pos m) - 1 + Zpos s) by lia.
    rewrite Z.pow_add_r by lia. nia. }
  change (2 ^ 47) with 140737488355328 in H47.
  assert (Hq23 : 2 ^ 23 <= q) by (change (2 ^ 23) with 8388608; lia).
  destruct q as [|pq|pq]; [change (2 ^ 23) with 8388608 in Hq23; lia| |lia].
  cbn [Zdigits2]. pose proof (digits2_pos_gt pq 23 ltac:(lia) Hq23). lia.
Qed.

(** The integer part of a valid non-negative value that is not above
    [10.0f] lies between 0 and 10. *)
Lemma float_to_int_upto_10 (x : float) :
  nonneg32 x = true -> F32.ltb (F32.of_Z 10) x = false ->
  exists n, float_to_int x = Some n /\ 0 <= n <= 10.
Proof.
  intros Nx Hle.
  assert (N10 : nonneg32 (F32.of_Z 10) = true) by reflexivity.
  unfold F32.ltb in Hle. rewrite (ltb_ord _ _ N10 Nx) in Hle.
  apply Z.ltb_ge in Hle.
  destruct (nonneg32_cases x Nx) as [[s ->]|[->|(m & e & -> & V)]].
  - exists 0. split; [reflexivity|lia].
  - exfalso. revert Hle. vm_compute. intros Hc. apply Hc. reflexivity.
  - assert (V10 : valid_binary 24 128 (S754_finite false 10485760 (-20)) = true)
      by reflexivity.
    change (F32.of_Z 10) with (S754_finite false 10485760 (-20)) in Hle.
    pose proof (ord_le_value m 10485760 e (-20) (Z.min e (-20)) V V10 Hle
                  ltac:(lia) ltac:(lia)) as Hval.
    assert (Hmag : 0 <= Z.shiftl (Zpos m) e <= 10).
    { destruct (Z.le_gt_cases 0 e) as [Hpos|Hneg].
      - rewrite Z.shiftl_mul_pow2 by lia.
        replace (Z.min e (-20)) with (-20) in Hval by lia.
        replace (-20 - -20) with 0 in Hval by lia. rewrite Z.pow_0_r in Hval.
        replace (e - -20) with (e + 20) in Hval by lia.
        rewrite Z.pow_add_r in Hval by lia. change (2 ^ 20) with 1048576 in Hval.
        assert (0 < 2 ^ e) by (apply Z.pow_pos_nonneg; lia).
        split; [nia|]. nia.
      - rewrite Z.shiftl_div_pow2 by lia.
        assert (Hp : 0 < 2 ^ (- e)) by (apply Z.pow_pos_nonneg; lia).
        split; [apply Z.div_pos; lia|].
        apply Z.div_le_upper_bound; [lia|].
        destruct (Z.le_gt_cases (-20) e) as [Hhi|Hlo].
        + replace (Z.min e (-20)) with (-20) in Hval by lia.
          replace (-20 - -20) with 0 in Hval by lia. rewrite Z.pow_0_r in Hval.
          assert (Hsplit : 2 ^ 20 = 2 ^ (e - -20) * 2 ^ (- e)).
          { rewrite <- Z.pow_add_r by lia. f_equal. lia. }
          change (2 ^ 20) with 1048576 in Hsplit.
          assert (0 < 2 ^ (e - -20)) by (apply Z.pow_pos_nonneg; lia).
          nia.
        + replace (Z.min e (-20)) with e in Hval by lia.
          rewrite Z.sub_diag, Z.pow_0_r in Hval.
          assert (Hsplit : 2 ^ (- e) = 2 ^ 20 * 2 ^ (-20 - e)).
          { rewrite <- Z.pow_add_r by lia. f_equal. lia. }
          change (2 ^ 20) with 1048576 in Hsplit.
          assert (0 < 2 ^ (-20 - e)) by (apply Z.pow_pos_nonneg; lia).
          nia. }
    exists (Z.shiftl (Zpos m) e). split; [|exact Hmag].
    unfold float_to_int. cbv zeta.
    change (- 2 ^ 31) with (-2147483648). change (2 ^ 31) with 2147483648.
    destruct (Z.leb_spec (-2147483648) (Z.shiftl (Zpos m) e)); [|lia].
    destruct (Z.ltb_spec (Z.shiftl (Zpos m) e) 2147483648); [reflexivity|lia].
Qed.

(** X23.  With visual feedback enabled, the bar drawn for a beat has exactly
    ten cells whenever the BPM is a valid value that is not negative,
    infinity included: between 0 and 10 full cells, and empty cells for the
    rest.  The conversion to [int] is then always defined. *)
Theorem beat_bar_has_ten_cells `{Aubio} (d : Detector _) (bpm confidence : float) :
  enable_visual_feedback_ (config d) = true ->
  F32.valid bpm = true -> F32.leb F32.zero bpm = true ->
  exists full_cells : nat,
    (full_cells <= 10)%nat /\
    generate_beat_visual d bpm confidence true
    = Some (BeatBar full_cells (10 - full_cells) bpm confidence (get_average_bpm d)).
Proof.
  intros Hv V Z0. unfold generate_beat_visual. rewrite Hv. cbn [negb].
  assert (Nq : nonneg32 (bpm / F32.of_Z 20)%f32 = true).
  { pose proof (nonneg32_intro bpm V Z0) as Nb.
    destruct (nonneg32_cases bpm Nb) as [[s ->]|[->|(m & e & -> & Vm)]].
    - destruct s; reflexivity.
    - reflexivity.
    - apply div_20_nonneg. exact Vm. }
  assert (Hmin : exists n, float_to_int (F32.min (bpm / F32.of_Z 20)%f32 (F32.of_Z 10))
                           = Some n /\ 0 <= n <= 10).
  { unfold F32.min.
    destruct (F32.ltb (F32.of_Z 10) (bpm / F32.of_Z 20)%f32) eqn:Hlt.
    - exists 10. split; [reflexivity|lia].
    - apply float_to_int_upto_10; assumption. }
  destruct Hmin as (n & -> & Hn).
  exists (Z.to_nat n). split; [lia|].
  replace (Z.to_nat (10 - n)) with (10 - Z.to_nat n)%nat by lia. reflexivity.
Qed.

Lemma beat_bar_has_ten_cells_witness :
  exists full_cells : nat,
    (full_cells <= 10)%nat /\
    generate_beat_visual (full_detector loud64 F32.zero [onset_128])
      (F32.of_Z 128) (F32.lit 8 10) true
    = Some (BeatBar full_cells (10 - full_cells) (F32.of_Z 128) (F32.lit 8 10)
                    (get_average_bpm (full_detector loud64 F32.zero [onset_128]))).
Proof.
  exact (beat_bar_has_ten_cells (full_detector loud64 F32.zero [onset_128])
           (F32.of_Z 128) (F32.lit 8 10) eq_refl eq_refl eq_refl).
Defined.

(** ** The variance a beat carries *)

Lemma windows_of_snoc (xs : list float) (x : float) :
  windows_of (xs ++ [x])
  = windows_of xs ++ [fold_left (push_bounded STABILITY_WINDOW) (xs ++ [x]) []].
Proof.
  unfold windows_of. rewrite length_app. cbn [length].
  rewrite seq_app, map_app. cbn [seq map]. f_equal.
  - apply map_ext_in. intros k Hk. apply in_seq in Hk.
    rewrite take_app_le by lia. reflexivity.
  - rewrite take_ge by (rewrite length_app; simpl; lia). reflexivity.
Qed.

Lemma windows_of_length (xs : list float) : length (windows_of xs) = length xs.
Proof. unfold windows_of. rewrite length_map, length_seq. reflexivity. Qed.

(** Every window of [windows_of] holds 1 to 5 values, the last one being
    the value just pushed, and its variance is the standard deviation of
    the non-empty case of the query. *)
Lemma windows_of_nonempty (xs : list float) :
  Forall (fun w => (1 <= length w <= 5)%nat /\
                   get_bpm_variance_of w = population_std_dev w)
         (windows_of xs) /\
  map last (windows_of xs) = map Some xs.
Proof.
  induction xs as [|x xs IH] using rev_ind.
  - split; [constructor|reflexivity].
  - destruct IH as [IHw IHl]. rewrite windows_of_snoc.
    rewrite fold_left_app. cbn [fold_left].
    set (w := fold_left (push_bounded STABILITY_WINDOW) xs []).
    assert (Hw : (length w <= STABILITY_WINDOW)%nat).
    { unfold w. rewrite push_bounded_run, length_drop.
      unfold STABILITY_WINDOW. lia. }
    destruct (push_bounded_last STABILITY_WINDOW w x) as [Hlen Hlast];
      [unfold STABILITY_WINDOW; lia|].
    pose proof (push_bounded_length STABILITY_WINDOW w x Hw) as Hle.
    split.
    + apply Forall_app. split; [exact IHw|].
      apply List.Forall_cons; [|apply List.Forall_nil].
      split; [split; [exact Hlen|exact Hle]|].
      apply get_bpm_variance_of_nonempty. intros Hnil. rewrite Hnil in Hlen.
      simpl in Hlen. lia.
    + rewrite !map_app, IHl. cbn [map]. rewrite Hlast. reflexivity.
Qed.

Section BeatVariance.

Context `{Aubio}.

Lemma beat_bpms_app (l1 l2 : list Output) :
  beat_bpms (l1 ++ l2) = beat_bpms l1 ++ beat_bpms l2.
Proof. unfold beat_bpms. apply omap_app. Qed.

Lemma beat_bpms_every_200 (n : Z) (o : Output) :
  match o with OutVisual _ _ _ | OutBeat _ _ _ => False | _ => True end ->
  beat_bpms (every_200 n o) = [].
Proof.
  unfold every_200. destruct (n mod 200 =? 0); [|reflexivity].
  destruct o; intros Ho; try reflexivity; destruct Ho.
Qed.

(** The beat line of a frame carries the smoothed BPM held after the
    frame. *)
Lemma process_frame_beat_line (d : Detector _) :
  beat_bpms (stdout_ (fst (process_frame d)))
  = beat_bpms (stdout_ d)
    ++ (if is_beat_report (snd (process_frame d))
        then [smoothed_bpm_ (fst (process_frame d))] else []).
Proof.
  destruct (process_frame d) as [d' r] eqn:E. unfold process_frame in E.
  destruct (F32.ltb _ _).
  { inversion E; subst; clear E. unfold is_beat_report.
    cbn [fst snd stdout_ fr_analysis].
    rewrite beat_bpms_app, beat_bpms_every_200 by exact I. reflexivity. }
  destruct (aubio_onset_do _ _) as [e3 onset_out].
  destruct (if enable_pitch_detection_ _ then _ else _) as [e4 pitch_hz].
  destruct (_ && _); inversion E; subst; clear E;
    unfold is_beat_report;
    cbn [fst snd stdout_ fr_analysis an_is_beat smoothed_bpm_];
    rewrite !beat_bpms_app, beat_bpms_every_200 by exact I;
    try destruct (enable_visual_feedback_ _); reflexivity.
Qed.

(** The variance a frame carries is that of the stability window held
    after the frame, and so is the variance of the log line it writes. *)
Lemma process_frame_beat_variance (d : Detector _) :
  beat_variances [snd (process_frame d)]
  = (if is_beat_report (snd (process_frame d))
     then [variance_and_flag (bpm_stability_ (fst (process_frame d)))] else []) /\
  map (fun l => (log_bpm l, log_variance l)) (log_file_ (fst (process_frame d)))
  = map (fun l => (log_bpm l, log_variance l)) (log_file_ d)
    ++ (if is_beat_report (snd (process_frame d))
           && (enable_logging_ (config d) && log_is_open d)
        then [(smoothed_bpm_ (fst (process_frame d)),
               get_bpm_variance_of (bpm_stability_ (fst (process_frame d))))]
        else []).
Proof.
  unfold is_beat_report, beat_variances. destruct (is_silent d) eqn:Hs.
  - rewrite (process_frame_silent d Hs). cbn. rewrite app_nil_r. split; reflexivity.
  - destruct (process_frame_analysed d Hs)
      as (a & Ha & _ & _ & _ & _ & _ & _ & _ & _ & _ & _ & _ & Hb & Hl).
    cbn [omap list_omap]. rewrite Ha, Hl, map_app. cbv beta iota. rewrite Hb. split.
    + unfold variance_and_flag. destruct (an_is_beat a); reflexivity.
    + f_equal. destruct (an_is_beat a && _); reflexivity.
Qed.

Lemma beat_variances_app (l1 l2 : list FrameReport) :
  beat_variances (l1 ++ l2) = beat_variances l1 ++ beat_variances l2.
Proof. unfold beat_variances. apply omap_app. Qed.

(** The invariant of a run: the stability window, the variances of the
    beats and the log are all determined by the smoothed BPMs of the beat
    lines written so far. *)
Lemma beats_carry_window_variance (cfg : Config) (log_open : bool) (e : engine)
    (bs : list PwBuffer) :
  bpm_stability_ (detector_after cfg log_open e bs)
  = fold_left (push_bounded STABILITY_WINDOW)
      (beat_bpms (stdout_ (detector_after cfg log_open e bs))) [] /\
  beat_variances (reports_after cfg log_open e bs)
  = map variance_and_flag
      (windows_of (beat_bpms (stdout_ (detector_after cfg log_open e bs)))) /\
  map (fun l => (log_bpm l, log_variance l))
      (log_file_ (detector_after cfg log_open e bs))
  = (if enable_logging_ cfg && log_open
     then zip (beat_bpms (stdout_ (detector_after cfg log_open e bs)))
              (map get_bpm_variance_of
                 (windows_of (beat_bpms (stdout_ (detector_after cfg log_open e bs)))))
     else []).
Proof.
  enough (Hinv : config (detector_after cfg log_open e bs) = cfg /\
                 log_is_open (detector_after cfg log_open e bs) = log_open /\
                 bpm_stability_ (detector_after cfg log_open e bs)
                 = fold_left (push_bounded STABILITY_WINDOW)
                     (beat_bpms (stdout_ (detector_after cfg log_open e bs))) [] /\
                 beat_variances (reports_after cfg log_open e bs)
                 = map variance_and_flag
                     (windows_of (beat_bpms (stdout_ (detector_after cfg log_open e bs)))) /\
                 map (fun l => (log_bpm l, log_variance l))
                     (log_file_ (detector_after cfg log_open e bs))
                 = (if enable_logging_ cfg && log_open
                    then zip (beat_bpms (stdout_ (detector_after cfg log_open e bs)))
                             (map get_bpm_variance_of
                                (windows_of
                                   (beat_bpms (stdout_ (detector_after cfg log_open e bs)))))
                    else []))
    by (destruct Hinv as (_ & _ & Hx); exact Hx).
  apply (run_pair_invariant
           (fun d rs =>
              config d = cfg /\ log_is_open d = log_open /\
              bpm_stability_ d
              = fold_left (push_bounded STABILITY_WINDOW) (beat_bpms (stdout_ d)) [] /\
              beat_variances rs
              = map variance_and_flag (windows_of (beat_bpms (stdout_ d))) /\
              map (fun l => (log_bpm l, log_variance l)) (log_file_ d)
              = (if enable_logging_ cfg && log_open
                 then zip (beat_bpms (stdout_ d))
                          (map get_bpm_variance_of (windows_of (beat_bpms (stdout_ d))))
                 else []))).
  - intros d rs x Hd. exact Hd.
  - intros d rs (Hcfg & Hopen & Hst & Hv & Hlog).
    destruct (process_frame_fixed d) as (Hc & _ & Hlo & _).
    destruct (process_frame_histories d) as (_ & Hst' & _).
    destruct (process_frame_beat_variance d) as (Hv' & Hlog').
    pose proof (process_frame_beat_line d) as Hout.
    rewrite Hcfg, Hopen in Hlog'.
    split; [rewrite Hc; exact Hcfg|]. split; [rewrite Hlo; exact Hopen|].
    rewrite beat_variances_app, Hv', Hlog', Hout, Hv, Hlog.
    destruct (is_beat_report (snd (process_frame d))) eqn:Hbeat.
    + assert (Hwin : bpm_stability_ (fst (process_frame d))
                     = fold_left (push_bounded STABILITY_WINDOW)
                         (beat_bpms (stdout_ d)
                          ++ [smoothed_bpm_ (fst (process_frame d))]) []).
      { rewrite Hst', fold_left_app, <- Hst. reflexivity. }
      rewrite windows_of_snoc, !map_app, <- Hwin. cbn [map andb].
      split; [reflexivity|]. split; [reflexivity|].
      destruct (enable_logging_ cfg && log_open); [|reflexivity].
      rewrite zip_with_app
        by (rewrite length_map, windows_of_length; reflexivity).
      reflexivity.
    + cbn [andb]. rewrite !app_nil_r.
      split; [rewrite Hst'; exact Hst|]. split; reflexivity.
  - repeat split. cbn. destruct (enable_logging_ cfg && log_open); reflexivity.
Qed.

(** C10, as the code has it.  The variance of every frame accepted as a
    beat, and of every log line, is that of the stability window right
    after the smoothed BPM of that beat was pushed into it.  For a run: with
    [xs] the smoothed BPMs of the beat lines written, in order, the [k]-th
    beat and the [k]-th log line carry the variance of the window after the
    first [k] of them were pushed, the window the detector holds at the end
    is the last of these, each of these windows holds 1 to 5 values and
    ends with that beat's smoothed BPM, and its variance is the standard
    deviation of the non-empty case of the query.  For a single frame from
    any state [d]: the variance reported and logged is the query on the
    window the detector holds after the frame, which is the old window with
    the new smoothed BPM pushed. *)
Theorem beat_variance_over_nonempty_window (cfg : Config) (log_open : bool)
    (e : engine) (bs : list PwBuffer) (d : Detector _) :
  bpm_stability_ (detector_after cfg log_open e bs)
  = fold_left (push_bounded STABILITY_WINDOW)
      (beat_bpms (stdout_ (detector_after cfg log_open e bs))) [] /\
  beat_variances (reports_after cfg log_open e bs)
  = map variance_and_flag
      (windows_of (beat_bpms (stdout_ (detector_after cfg log_open e bs)))) /\
  map (fun l => (log_bpm l, log_variance l))
      (log_file_ (detector_after cfg log_open e bs))
  = (if enable_logging_ cfg && log_open
     then zip (beat_bpms (stdout_ (detector_after cfg log_open e bs)))
              (map get_bpm_variance_of
                 (windows_of (beat_bpms (stdout_ (detector_after cfg log_open e bs)))))
     else []) /\
  Forall (fun w => (1 <= length w <= 5)%nat /\
                   get_bpm_variance_of w = population_std_dev w)
         (windows_of (beat_bpms (stdout_ (detector_after cfg log_open e bs)))) /\
  map last (windows_of (beat_bpms (stdout_ (detector_after cfg log_open e bs))))
  = map Some (beat_bpms (stdout_ (detector_after cfg log_open e bs))) /\
  beat_variances [snd (process_frame d)]
  = (if is_beat_report (snd (process_frame d))
     then [variance_and_flag
             (push_bounded STABILITY_WINDOW (bpm_stability_ d)
                (smoothed_bpm_ (fst (process_frame d))))]
     else []) /\
  bpm_stability_ (fst (process_frame d))
  = (if is_beat_report (snd (process_frame d))
     then push_bounded STABILITY_WINDOW (bpm_stability_ d)
            (smoothed_bpm_ (fst (process_frame d)))
     else bpm_stability_ d) /\
  (1 <= length (push_bounded STABILITY_WINDOW (bpm_stability_ d)
                  (smoothed_bpm_ (fst (process_frame d)))))%nat /\
  get_bpm_variance_of (push_bounded STABILITY_WINDOW (bpm_stability_ d)
                         (smoothed_bpm_ (fst (process_frame d))))
  = population_std_dev (push_bounded STABILITY_WINDOW (bpm_stability_ d)
                          (smoothed_bpm_ (fst (process_frame d)))).
Proof.
  destruct (beats_carry_window_variance cfg log_open e bs) as (Hst & Hv & Hlog).
  destruct (windows_of_nonempty
              (beat_bpms (stdout_ (detector_after cfg log_open e bs)))) as [Hw Hl].
  split; [exact Hst|]. split; [exact Hv|]. split; [exact Hlog|].
  split; [exact Hw|]. split; [exact Hl|].
  destruct (process_frame_histories d) as (_ & Hst' & _).
  destruct (process_frame_beat_variance d) as (Hv' & _).
  destruct (push_bounded_last STABILITY_WINDOW (bpm_stability_ d)
              (smoothed_bpm_ (fst (process_frame d)))) as [Hlen _];
    [unfold STABILITY_WINDOW; lia|].
  split.
  { rewrite Hv', Hst'. destruct (is_beat_report _); reflexivity. }
  split; [exact Hst'|]. split; [exact Hlen|].
  apply get_bpm_variance_of_nonempty. intros Hnil. rewrite Hnil in Hlen.
  simpl in Hlen. lia.
Qed.

End BeatVariance.

(** ** The variance query, with its rounding *)

Lemma sum_of_zeros (n : nat) : sum_floats (replicate n F32.zero) = F32.zero.
Proof.
  unfold sum_floats. induction n as [|n IH]; [reflexivity|].
  cbn [replicate fold_left]. exact IH.
Qed.

Lemma zero_over_count (n : nat) : (F32.zero / F32.of_Z (Z.of_nat (S n)))%f32 = F32.zero.
Proof.
  replace (Z.of_nat (S n)) with (Zpos (Pos.of_succ_nat n)) by lia.
  destruct (of_Z_positive (Pos.of_succ_nat n)) as [(m & e & ->)| ->]; reflexivity.
Qed.

Lemma number_minus_itself (x : float) :
  is_number x = true -> (x - x)%f32 = F32.zero.
Proof.
  destruct x as [[|]|s| |s m e]; intros Hx; try discriminate Hx; try reflexivity.
  apply sub_self.
Qed.

(** A window of equal numbers whose binary32 mean is the number itself has
    a standard deviation of zero. *)
Lemma variance_of_equal_values (x : float) (n : nat) :
  is_number x = true -> mean_of (replicate (S n) x) = x ->
  get_bpm_variance_of (replicate (S n) x) = F32.zero.
Proof.
  intros Hx Hmean.
  rewrite get_bpm_variance_of_nonempty by discriminate.
  unfold population_std_dev. rewrite Hmean.
  assert (Hmap : forall k,
             map (fun y => (y - x) * (y - x))%f32 (replicate k x)
             = replicate k F32.zero).
  { induction k as [|k IH]; [reflexivity|].
    cbn [replicate map]. rewrite IH, (number_minus_itself x Hx). reflexivity. }
  rewrite Hmap. unfold mean_of.
  rewrite sum_of_zeros, length_replicate, zero_over_count.
  reflexivity.
Qed.

(** C6, as the code has it.  The variance query returns the sentinel 999
    on an empty window and, on a non-empty window, the population standard
    deviation [sqrt(mean((x - mean)^2))] in binary32, both means dividing by
    the number of elements.  It returns 0 for the window of five values 100,
    and for any window of equal numbers whose binary32 mean is the number
    itself; the running sum is rounded, so that is not every window of
    equal values. *)
Theorem variance_is_population_std_dev `{Aubio} (d : Detector _) (x : float)
    (w : list float) (n : nat) :
  get_bpm_variance d = get_bpm_variance_of (bpm_stability_ d) /\
  get_bpm_variance_of [] = F32.of_Z 999 /\
  get_bpm_variance_of (x :: w) = population_std_dev (x :: w) /\
  population_std_dev (x :: w)
  = F32.sqrt (sum_floats (map (fun y => (y - mean_of (x :: w)) * (y - mean_of (x :: w)))%f32
                              (x :: w))
              / F32.of_Z (Z.of_nat (length (x :: w))))%f32 /\
  mean_of (x :: w) = (sum_floats (x :: w) / F32.of_Z (Z.of_nat (length (x :: w))))%f32 /\
  get_bpm_variance_of (replicate 5 (F32.of_Z 100)) = F32.zero /\
  (is_number x = true -> mean_of (replicate (S n) x) = x ->
   get_bpm_variance_of (replicate (S n) x) = F32.zero).
Proof.
  split; [reflexivity|]. split; [reflexivity|].
  split; [apply get_bpm_variance_of_nonempty; discriminate|].
  split; [unfold population_std_dev, mean_of at 1; rewrite length_map; reflexivity|].
  split; [reflexivity|].
  split; [vm_compute; reflexivity|]. apply variance_of_equal_values.
Qed.

Lemma variance_is_population_std_dev_witness :
  is_number (F32.of_Z 120) = true /\
  mean_of (replicate 5 (F32.of_Z 120)) = F32.of_Z 120 /\
  get_bpm_variance_of (replicate 5 (F32.of_Z 120)) = F32.zero.
Proof.
  assert (Hmean : mean_of (replicate 5 (F32.of_Z 120)) = F32.of_Z 120)
    by (vm_compute; reflexivity).
  split; [reflexivity|]. split; [exact Hmean|].
  exact (proj2 (proj2 (proj2 (proj2 (proj2 (proj2
           (variance_is_population_std_dev (full_detector loud64 F32.zero [])
              (F32.of_Z 120) [] 4)))))) eq_refl Hmean).
Defined.

(** C6, as stated, fails in its last sentence: a window of five equal
    values need not give 0.  The engine reports 215.72972 BPM five times;
    the reading is outside the band, so it bootstraps the smoothed BPM and
    then leaves it alone, and the fifth beat sees the window of five copies
    of it.  Their running sum is rounded at the third and at the fifth
    addition, the mean comes out one unit in the last place below the
    value, and the query returns [2^-16]. *)
Lemma five_equal_values_with_variance :
  bpm_stability_ (detector_after cfg64 true script_215 (replicate 5 (Samples loud64)))
  = replicate 5 bpm_215 /\
  get_bpm_variance_of (replicate 5 bpm_215) = S754_finite false 8388608 (-39) /\
  get_bpm_variance_of (replicate 5 bpm_215) <> F32.zero /\
  mean_of (replicate 5 bpm_215) = S754_finite false 14138062 (-16) /\
  last (beat_variances
          (reports_after cfg64 true script_215 (replicate 5 (Samples loud64))))
  = Some (S754_finite false 8388608 (-39), true) /\
  F32.valid bpm_215 = true.
Proof.
  vm_compute. repeat split; try reflexivity. discriminate.
Qed.
